(** * TwitterDrasta: forwarding a public Twitter timeline to a Telegram channel

    A shallow embedding of [TwitterDrasta.py] and the properties of its
    synchronisation engine ([TweetDrasta.update_status]), its bulk importer
    ([TweetDrasta.dig_update]), its formatter ([TweetDrasta.status_str]) and
    its persistence layer ([DBStore]).

    Conventions of the embedding.
    - Python [int] is [Z]; a Python [str] is the [string] of the bytes of
      its UTF-8 encoding, and what Python does character by character
      (slices, [strip], [list]) is done code point by code point;
      [None]-or-value is [option].
    - The three collaborators (Twitter API, Telegram bot API, PostgreSQL)
      answer from finite scripts of outcomes held in the state; once a script
      is used up the collaborator answers normally.  This covers every run in
      which rate limits and failures are finitely many.
    - Effects (messages handed to the bot, sleeps, log records of level
      info and above, database transactions) are recorded in chronological
      order in a trace; debug records and lines printed to standard output
      are left out.
    - Exceptions that leave a function are results [Raise]. *)

From Stdlib Require Import ZArith List String Ascii Bool Lia.
From Stdlib Require Import DecimalString.
Import ListNotations.
Local Open Scope string_scope.
Local Open Scope list_scope.
Local Open Scope Z_scope.

Set Implicit Arguments.
Set Warnings "-notation-for-abbreviation,-register-all".

(** ** Python strings *)

Module Py.

(** [str(n)] for an integer. *)
Definition str_of_int (n : Z) : string :=
  NilZero.string_of_int (Z.to_int n).

(** The UTF-8 encoding of the code point [cp]. *)
Definition byte (n : Z) : ascii := ascii_of_N (Z.to_N n).

Definition utf8 (cp : Z) : string :=
  if cp <? 128 then String (byte cp) ""
  else if cp <? 2048 then
    String (byte (192 + cp / 64)) (String (byte (128 + cp mod 64)) "")
  else if cp <? 65536 then
    String (byte (224 + cp / 4096))
      (String (byte (128 + (cp / 64) mod 64)) (String (byte (128 + cp mod 64)) ""))
  else
    String (byte (240 + cp / 262144))
      (String (byte (128 + (cp / 4096) mod 64))
         (String (byte (128 + (cp / 64) mod 64)) (String (byte (128 + cp mod 64)) ""))).

(** A byte [10xxxxxx] continues the character begun before it. *)
Definition continues (c : ascii) : bool :=
  let n := Z.of_N (N_of_ascii c) in (128 <=? n) && (n <? 192).

(** The characters of [s], each one the bytes of its code point, and
    before them the continuation bytes [s] starts with (none in an
    encoding). *)
Fixpoint chars_of (s : string) : string * list string :=
  match s with
  | EmptyString => (EmptyString, [])
  | String c s' =>
      let (pending, cs) := chars_of s' in
      if continues c then (String c pending, cs)
      else (EmptyString, String c pending :: cs)
  end.

(** [list(s)] *)
Definition chars (s : string) : list string :=
  match chars_of s with
  | (EmptyString, cs) => cs
  | (stray, cs) => stray :: cs
  end.

(** [''.join(cs)] *)
Fixpoint unchars (cs : list string) : string :=
  match cs with
  | [] => EmptyString
  | c :: cs' => c ++ unchars cs'
  end.

(** [len(s)] *)
Definition len (s : string) : nat := List.length (chars s).

(** [s[k:]] for an integer [k] (a negative [k] counts from the end). *)
Definition slice_from (k : Z) (s : string) : string :=
  let n := Z.of_nat (len s) in
  let start := if k <? 0 then Z.max 0 (n + k) else k in
  unchars (skipn (Z.to_nat start) (chars s)).

(** The code points for which [str.isspace()] holds, which are the
    characters [str.strip()] removes: the ASCII controls and the space,
    U+0085, U+00A0, U+1680, U+2000 to U+200A, U+2028, U+2029, U+202F,
    U+205F and U+3000. *)
Definition whitespace : list Z :=
  [9; 10; 11; 12; 13; 28; 29; 30; 31; 32; 133; 160; 5760;
   8192; 8193; 8194; 8195; 8196; 8197; 8198; 8199; 8200; 8201; 8202;
   8232; 8233; 8239; 8287; 12288].

Definition isspace (ch : string) : bool :=
  existsb (fun cp => String.eqb ch (utf8 cp)) whitespace.

Fixpoint lstrip_chars (cs : list string) : list string :=
  match cs with
  | c :: cs' => if isspace c then lstrip_chars cs' else cs
  | [] => []
  end.

Definition lstrip (s : string) : string := unchars (lstrip_chars (chars s)).

Definition rstrip (s : string) : string :=
  unchars (rev (lstrip_chars (rev (chars s)))).

(** [s.strip()] *)
Definition strip (s : string) : string :=
  unchars (rev (lstrip_chars (rev (lstrip_chars (chars s))))).

(** [sep.join(parts)] *)
Definition join (sep : string) (parts : list string) : string :=
  String.concat sep parts.

(** [xs[-1]] of a non-empty list, [None] standing for [IndexError]. *)
Definition last_item {A} (xs : list A) : option A :=
  match rev xs with
  | x :: _ => Some x
  | [] => None
  end.

(** [xs.index(x)], [None] standing for [ValueError]. *)
Fixpoint index (x : Z) (xs : list Z) : option nat :=
  match xs with
  | [] => None
  | y :: ys => if y =? x then Some O
               else match index x ys with
                    | Some n => Some (S n)
                    | None => None
                    end
  end.

(** A value of the [persist] dictionary: loaded from the database it is
    text or [None]; written by the program it is an [int] or [None]. *)
Inductive val := VNone | VInt (n : Z) | VStr (s : string).

(** [d[key] = v] on an insertion-ordered dictionary. *)
Fixpoint dict_set {V} (key : string) (v : V) (d : list (string * V))
  : list (string * V) :=
  match d with
  | [] => [(key, v)]
  | (k, v0) :: d' =>
      if String.eqb k key then (k, v) :: d' else (k, v0) :: dict_set key v d'
  end.

Fixpoint dict_get {V} (key : string) (d : list (string * V)) : option V :=
  match d with
  | [] => None
  | (k, v) :: d' => if String.eqb k key then Some v else dict_get key d'
  end.

End Py.

(** ** Posts *)

(** An element of [entities['user_mentions']]: the screen name and the
    [indices] pair (start offset, end offset) into the text. *)
Record Mention := mkMention {
  screen_name : string;
  indices : Z * Z
}.

(** [status.retweeted_status], present on a retweet wrapper. *)
Record Retweeted := mkRetweeted {
  rt_user : string;              (* retweeted_status.user.screen_name *)
  rt_full_text : string;         (* retweeted_status.full_text *)
  rt_mentions : list Mention     (* retweeted_status.entities['user_mentions'] *)
}.

(** A [tweepy.Status].  [created_at] holds the text that
    [strftime("%A, %B %e %Y at %I:%M%p")] yields for the post's time. *)
Record Status := mkStatus {
  id : Z;
  user : string;                       (* user.screen_name *)
  text : string;                       (* .text *)
  full_text : option string;           (* .full_text, of an extended fetch *)
  truncated : bool;
  user_mentions : list Mention;        (* entities['user_mentions'] *)
  in_reply_to_screen_name : option string;
  retweeted_status : option Retweeted;
  created_at : string
}.

(** ** Formatter *)

Module Formatter.

(** [TweetDrasta.__rangem]: the offsets (start of the first mention, end
    of the last mention) of the leading run of mentions in which each
    mention starts one past the end of the one before it.  [prev] is
    [mentions[i-1]], absent while [i == 0]. *)
Fixpoint rangem_from (prev : option Mention) (j k : Z) (mentions : list Mention)
  : Z * Z :=
  match mentions with
  | [] => (j, k)
  | men :: rest =>
      match prev with
      | None => rangem_from (Some men) (fst (indices men)) (snd (indices men)) rest
      | Some p =>
          if negb (snd (indices p) + 1 =? fst (indices men)) then (j, k)
          else rangem_from (Some men) j (snd (indices men)) rest
      end
  end.

Definition rangem (mentions : list Mention) : Z * Z :=
  rangem_from None 0 0 mentions.

Definition at_names (mentions : list Mention) : string :=
  Py.join " " (map (fun u => "@" ++ screen_name u)%string mentions).

Definition newline : string := String (ascii_of_nat 10) EmptyString.

(** U+2192, the arrow between the retweeted author and the mentions. *)
Definition arrow : string :=
  String (ascii_of_nat 226) (String (ascii_of_nat 134) (String (ascii_of_nat 146) EmptyString)).

Section Render.
(** [TweetDrasta.RETWEET_EMOJI] and [TweetDrasta.REPLY_EMOJI]. *)
Variables RETWEET_EMOJI REPLY_EMOJI : string.

Definition truthy (s : option string) : bool :=
  match s with
  | Some (String _ _) => true
  | _ => false
  end.

(** [TweetDrasta.status_str]; the argument is [None] when the caller
    passes something that is not a [tweepy.Status]. *)
Definition status_str (arg : option Status) : string :=
  match arg with
  | None => ""
  | Some status =>
      (let txt :=
        match full_text status with
        | Some ft =>
            match retweeted_status status with
            | Some rt => rt_full_text rt
            | None => ft
            end
        | None => text status
        end in
      let head :=
        match retweeted_status status with
        | Some rt =>
            let mentions := rt_mentions rt in
            let mn := if negb (Nat.eqb (List.length mentions) 0)
                      then " " ++ arrow ++ " " ++ at_names mentions
                      else "" in
            RETWEET_EMOJI ++ "  <b>" ++ rt_user rt ++ mn ++ "</b>" ++ newline
              ++ Py.strip (Py.slice_from (snd (rangem mentions)) txt) ++ newline
        | None =>
            let mentions := user_mentions status in
            if truthy (in_reply_to_screen_name status)
               && negb (Nat.eqb (List.length mentions) 0)
            then REPLY_EMOJI ++ "  <b>" ++ at_names mentions ++ "</b>" ++ newline
                   ++ Py.strip (Py.slice_from (snd (rangem mentions)) txt) ++ newline
            else txt ++ newline
        end in
      head ++ "https://twitter.com/" ++ user status ++ "/status/"
           ++ Py.str_of_int (id status) ++ newline ++ created_at status ++ newline)%string
  end.
End Render.

End Formatter.

(** ** Collaborators, state and effects *)

(** What one call of the Twitter API does: answer, raise
    [tweepy.RateLimitError], or raise another [tweepy.TweepError]. *)
Inductive ApiOutcome := ApiOk | ApiRateLimit | ApiError.

(** What one call of [bot.send_message] does: accept the text, raise
    [RetryAfter], raise [BadRequest], or raise another [TelegramError]. *)
Inductive BotOutcome := Delivered | RetryAfter (secs : Z) | BadRequest | BotError.

(** What one [pg.connect] does: connect, or raise [pg.DatabaseError]. *)
Inductive DbOutcome := DbUp | DbDown.

(** Exceptions that can leave the functions modelled here. *)
Inductive Exn := TweepError | TelegramError | TypeError | IndexError.

(** A value that [json.loads] returns. *)
Inductive Json :=
| JNull
| JBool (b : bool)
| JNumber
| JString (s : string)
| JList (items : list Json)
| JDict (members : list (string * Json)).

(** A [TEXT] value of the [tmp] table as [json.loads] sees it: the JSON
    array of strings that [json.dumps] wrote ([JsonArray]), text that is
    not JSON ([NotJson]), or JSON of any other shape ([JsonOther]). *)
Inductive Text := JsonArray (items : list string) | NotJson | JsonOther (v : Json).

(** [list(v)] for a value that [json.loads] returned: the items of a list,
    the characters of a string, the keys of a dictionary; [None] stands for
    the [TypeError] of a value that cannot be iterated. *)
Definition list_of (v : Json) : option (list Json) :=
  match v with
  | JList items => Some items
  | JString s => Some (map JString (Py.chars s))
  | JDict members => Some (map (fun m => JString (fst m)) members)
  | JNull | JBool _ | JNumber => None
  end.

(** Log records of level info and above that the modelled code writes. *)
Inductive Log :=
| TwitterRateLimited                  (* warning, __rtlimt and __get_status_by_id *)
| TelegramRateLimited                 (* warning, send_msg *)
| FetchFailed (sid : Z)               (* exception, __get_status_by_id *)
| UpdateFailed                        (* exception, update_status *)
| Updated (count : Z)                 (* info, update_status *)
| NoDatabase                          (* error, dig_update *)
| Digging (count : Z) (all : bool)    (* info, dig_update *)
| Fetched (c : Z)                     (* info, dig_update *)
| UpdatedTweets (c : Z)               (* info, dig_update *)
| CorruptJson                         (* warning, dig_update *)
| DbWorks                             (* info, DBStore.__init__ *)
| DbConnectFailed                     (* error and warning, DBStore.__init__ *)
| DbReadFailed                        (* exception, load_keystore, get_tmp_value *)
| DbWriteFailed                       (* exception, save_keystore, save_tmp_value *)
| DbDeleteFailed.                     (* exception, drop_tmp *)

(** The transactions of [DBStore], recorded when the connection is made. *)
Inductive Query :=
| LoadKeystore | SaveKeystore | SaveTmp (key : Z) | GetTmp (key : Z) | DropTmp.

Inductive Event :=
| Sent (msg : string)        (* bot.send_message took the text *)
| Rejected (msg : string)    (* bot.send_message raised BadRequest; logged *)
| Slept (secs : Z)           (* time.sleep *)
| Logged (r : Log)
| Db (q : Query).

Record World := mkWorld {
  api_script : list ApiOutcome;
  bot_script : list BotOutcome;
  db_script : list DbOutcome;
  (* the database: a table is None while it does not exist *)
  keystore : option (list (string * option string));
  tmp : option (list (Z * Text));
  (* the program *)
  ready : bool;                        (* DBStore.ready *)
  last_statusid : option Z;            (* TweetDrasta.last_statusid *)
  persist : list (string * Py.val);    (* App.persist *)
  trace : list Event
}.

Definition set_api_script s w :=
  mkWorld s (bot_script w) (db_script w) (keystore w) (tmp w) (ready w)
          (last_statusid w) (persist w) (trace w).
Definition set_bot_script s w :=
  mkWorld (api_script w) s (db_script w) (keystore w) (tmp w) (ready w)
          (last_statusid w) (persist w) (trace w).
Definition set_db_script s w :=
  mkWorld (api_script w) (bot_script w) s (keystore w) (tmp w) (ready w)
          (last_statusid w) (persist w) (trace w).
Definition set_keystore t w :=
  mkWorld (api_script w) (bot_script w) (db_script w) t (tmp w) (ready w)
          (last_statusid w) (persist w) (trace w).
Definition set_tmp t w :=
  mkWorld (api_script w) (bot_script w) (db_script w) (keystore w) t (ready w)
          (last_statusid w) (persist w) (trace w).
Definition set_ready b w :=
  mkWorld (api_script w) (bot_script w) (db_script w) (keystore w) (tmp w) b
          (last_statusid w) (persist w) (trace w).
Definition set_last_statusid l w :=
  mkWorld (api_script w) (bot_script w) (db_script w) (keystore w) (tmp w) (ready w)
          l (persist w) (trace w).
Definition set_persist d w :=
  mkWorld (api_script w) (bot_script w) (db_script w) (keystore w) (tmp w) (ready w)
          (last_statusid w) d (trace w).
Definition emit e w :=
  mkWorld (api_script w) (bot_script w) (db_script w) (keystore w) (tmp w) (ready w)
          (last_statusid w) (persist w) (trace w ++ [e]).

(** *** The monad of the program: state and exceptions *)

Inductive Res (A : Type) :=
| Ret (a : A) (w : World)
| Raise (e : Exn) (w : World).
Arguments Raise {A} e w.

Definition M (A : Type) := World -> Res A.

Definition ret {A} (a : A) : M A := fun w => Ret a w.
Definition raise {A} (e : Exn) : M A := fun w => Raise e w.
Definition bind {A B} (m : M A) (k : A -> M B) : M B :=
  fun w => match m w with
           | Ret a w' => k a w'
           | Raise e w' => Raise e w'
           end.

Notation "x <- m ;; k" := (bind m (fun x => k))
  (at level 61, m at next level, right associativity).
Notation "m ;; k" := (bind m (fun _ => k))
  (at level 61, right associativity).

(** [try: m except <caught>: handler] *)
Definition try_except {A} (m : M A) (caught : Exn -> bool) (handler : M A) : M A :=
  fun w => match m w with
           | Ret a w' => Ret a w'
           | Raise e w' => if caught e then handler w' else Raise e w'
           end.

(** [try: m finally: cleanup] *)
Definition finally {A} (m : M A) (cleanup : M unit) : M A :=
  fun w => match m w with
           | Ret a w' => match cleanup w' with
                         | Ret _ w'' => Ret a w''
                         | Raise e w'' => Raise e w''
                         end
           | Raise e w' => match cleanup w' with
                           | Ret _ w'' => Raise e w''
                           | Raise e' w'' => Raise e' w''
                           end
           end.

Definition is_tweep (e : Exn) : bool :=
  match e with TweepError => true | _ => false end.

Definition modify (f : World -> World) : M unit := fun w => Ret tt (f w).
Definition reads {A} (f : World -> A) : M A := fun w => Ret (f w) w.
Definition log (r : Log) : M unit := modify (emit (Logged r)).
Definition sleep (secs : Z) : M unit := modify (emit (Slept secs)).

(** The world a result ends in, returned or raised. *)
Definition world_of {A} (r : Res A) : World :=
  match r with Ret _ w => w | Raise _ w => w end.

(** The texts handed to the bot that it accepted or rejected, in order. *)
Fixpoint handed (tr : list Event) : list string :=
  match tr with
  | [] => []
  | Sent msg :: tr' => msg :: handed tr'
  | Rejected msg :: tr' => msg :: handed tr'
  | _ :: tr' => handed tr'
  end.

(** The texts the bot accepted, in order. *)
Fixpoint delivered (tr : list Event) : list string :=
  match tr with
  | [] => []
  | Sent msg :: tr' => msg :: delivered tr'
  | _ :: tr' => delivered tr'
  end.

(** *** Observations on traces and states, used to state properties *)

(** The database transactions of a trace, in order. *)
Fixpoint dbs (tr : list Event) : list Query :=
  match tr with
  | [] => []
  | Db q :: tr' => q :: dbs tr'
  | _ :: tr' => dbs tr'
  end.

(** Events that neither hand a message to the bot nor touch the
    database: sleeps and log records. *)
Definition quiet_event (e : Event) : Prop :=
  match e with
  | Slept _ | Logged _ => True
  | _ => False
  end.

Definition quiet (tr : list Event) : Prop := Forall quiet_event tr.

(** Every message handed to the bot is followed at once by the pause of
    three seconds. *)
Fixpoint paced (tr : list Event) : Prop :=
  match tr with
  | [] => True
  | Sent _ :: tr' | Rejected _ :: tr' =>
      match tr' with
      | Slept 3 :: _ => paced tr'
      | _ => False
      end
  | _ :: tr' => paced tr'
  end.



(** [s] is what is left of the script [t]. *)
Definition tail_of {A} (s t : list A) : Prop := exists used, t = used ++ s.

(** From [w] to [w'] only the Twitter and Telegram collaborators moved on
    and the cursor may have changed: the events [evs] were added to the
    trace, the two scripts were used further, and the database, its
    script, [ready] and [persist] are as they were. *)
Record moved (w w' : World) (evs : list Event) : Prop := mkMoved {
  mv_trace : trace w' = trace w ++ evs;
  mv_api : tail_of (api_script w') (api_script w);
  mv_bot : tail_of (bot_script w') (bot_script w);
  mv_db : db_script w' = db_script w;
  mv_keystore : keystore w' = keystore w;
  mv_tmp : tmp w' = tmp w;
  mv_ready : ready w' = ready w;
  mv_persist : persist w' = persist w
}.

(** From [w] to [w'] the cursor stayed where it was and the script of the
    database was used further. *)
Definition steady (w w' : World) : Prop :=
  last_statusid w' = last_statusid w /\ tail_of (db_script w') (db_script w).

(** The order on cursors: an unset cursor is below every id. *)
Definition cursor_le (a b : option Z) : Prop :=
  match a, b with
  | None, _ => True
  | Some x, Some y => x <= y
  | Some _, None => False
  end.

(** The ids of a feed are strictly decreasing: unique, newest first. *)
Fixpoint newest_first (ids : list Z) : Prop :=
  match ids with
  | [] => True
  | x :: rest => Forall (fun y => y < x) rest /\ newest_first rest
  end.

(** The Twitter API raises no error other than rate limits. *)
Definition api_clean (w : World) : Prop := ~ In ApiError (api_script w).

(** The bot raises no error other than [RetryAfter] and [BadRequest]. *)
Definition bot_polite (w : World) : Prop := ~ In BotError (bot_script w).

(** ** DBStore *)

Module DBStore.

(** [pg.connect(...)]: [true] when the connection is made. *)
Definition connect : M bool :=
  fun w => match db_script w with
           | [] => Ret true w
           | DbUp :: s => Ret true (set_db_script s w)
           | DbDown :: s => Ret false (set_db_script s w)
           end.

(** The end of [DBStore.__init__]: try the connection out and set
    [ready]. *)
Definition init : M unit :=
  up <- connect ;;
  if up then modify (set_ready true) ;; log DbWorks
  else log DbConnectFailed ;; modify (set_ready false).

(** How a dictionary value is written into a [TEXT] column. *)
Definition adapt (v : Py.val) : option string :=
  match v with
  | Py.VNone => None
  | Py.VInt n => Some (Py.str_of_int n)
  | Py.VStr s => Some s
  end.

Definition of_column (c : option string) : Py.val :=
  match c with
  | None => Py.VNone
  | Some s => Py.VStr s
  end.

(** [DBStore.load_keystore(values)], [values] being [App.persist]. *)
Definition load_keystore : M unit :=
  fun w =>
    if negb (ready w) then Ret tt w
    else (up <- connect ;;
          if up then
            modify (emit (Db LoadKeystore)) ;;
            table <- reads keystore ;;
            match table with
            | Some rows =>
                values <- reads persist ;;
                modify (set_persist
                  (fold_left (fun d row => Py.dict_set (fst row) (of_column (snd row)) d)
                             rows values))
            | None => ret tt
            end
          else log DbReadFailed) w.

Definition key_exists (key : string) (rows : list (string * option string)) : bool :=
  existsb (fun row => String.eqb (fst row) key) rows.

(** [UPDATE keystore SET value = v WHERE key = key] or
    [INSERT INTO keystore(key,value)]. *)
Definition upsert (rows : list (string * option string)) (kv : string * Py.val)
  : list (string * option string) :=
  let (key, v) := kv in
  if key_exists key rows
  then map (fun row => if String.eqb (fst row) key then (key, adapt v) else row) rows
  else rows ++ [(key, adapt v)].

(** [DBStore.save_keystore(values)], [values] being [App.persist]. *)
Definition save_keystore : M unit :=
  fun w =>
    if negb (ready w) then Ret tt w
    else (up <- connect ;;
          if up then
            modify (emit (Db SaveKeystore)) ;;
            table <- reads keystore ;;
            values <- reads persist ;;
            let rows := match table with Some rows => rows | None => [] end in
            modify (set_keystore (Some (fold_left upsert values rows)))
          else log DbWriteFailed) w.

Definition row_exists (key : Z) (rows : list (Z * Text)) : bool :=
  existsb (fun row => fst row =? key) rows.

(** The ids that the column [tmp.id], a PostgreSQL [INTEGER], holds. *)
Definition integer (key : Z) : Prop := -2147483648 <= key <= 2147483647.

(** [DBStore.save_tmp_value(id, value)] for an [int] id that the column
    holds, as the page numbers of [dig_update] are; for an id beyond
    [integer] PostgreSQL refuses the [INSERT], which is not modelled. *)
Definition save_tmp_value (key : Z) (value : Text) : M unit :=
  fun w =>
    if negb (ready w) then Ret tt w
    else (up <- connect ;;
          if up then
            modify (emit (Db (SaveTmp key))) ;;
            table <- reads tmp ;;
            let rows := match table with Some rows => rows | None => [] end in
            modify (set_tmp (Some
              (if row_exists key rows
               then map (fun row => if fst row =? key then (key, value) else row) rows
               else rows ++ [(key, value)])))
          else log DbWriteFailed) w.

(** [DBStore.get_tmp_value(id)] for an [int] id.  [cur.fetchone()[0]] on
    a missing row subscripts [None]: a [TypeError], which the handler for
    database errors does not catch. *)
Definition get_tmp_value (key : Z) : M (option Text) :=
  fun w =>
    if negb (ready w) then Ret None w
    else (up <- connect ;;
          if up then
            modify (emit (Db (GetTmp key))) ;;
            table <- reads tmp ;;
            match table with
            | Some rows =>
                match find (fun row => fst row =? key) rows with
                | Some row => ret (Some (snd row))
                | None => raise TypeError
                end
            | None => ret None
            end
          else log DbReadFailed ;; ret None) w.

(** [DBStore.drop_tmp()]; it does not look at [ready]. *)
Definition drop_tmp : M unit :=
  up <- connect ;;
  if up then modify (emit (Db DropTmp)) ;; modify (set_tmp None)
  else log DbDeleteFailed.

End DBStore.

(** ** TelegramBot *)

Module TelegramBot.

(** [TelegramBot.send_msg(msg)] for a [str] message: on [RetryAfter]
    wait and send again, on [BadRequest] log and give the message up; any
    other [TelegramError] leaves the function. *)
Fixpoint send_msg_on (script : list BotOutcome) (msg : string) (w : World) : Res unit :=
  match script with
  | [] => Ret tt (emit (Sent msg) w)
  | Delivered :: s => Ret tt (emit (Sent msg) (set_bot_script s w))
  | RetryAfter secs :: s =>
      send_msg_on s msg
        (emit (Slept secs) (emit (Logged TelegramRateLimited) (set_bot_script s w)))
  | BadRequest :: s => Ret tt (emit (Rejected msg) (set_bot_script s w))
  | BotError :: s => Raise TelegramError (set_bot_script s w)
  end.

Definition send_msg (msg : string) : M unit :=
  fun w => send_msg_on (bot_script w) msg w.

End TelegramBot.

(** ** TweetDrasta *)

(** The pages [tweepy.Cursor(api.user_timeline, id=username)] has not
    fetched yet, newest page first. *)
Definition PageCursor := list (list Status).

(** The posts the page iterator gets to see: it stops at the first page
    that comes back empty. *)
Fixpoint feed (c : PageCursor) : list Status :=
  match c with
  | (st :: page) :: rest => (st :: page) ++ feed rest
  | _ => []
  end.

(** ** Sample feeds and states

    Concrete posts, timelines and states on which the operations are run
    further down. *)

Module Sample.

(** A short post of the account [bob]: the list endpoint returns it whole. *)
Definition post (n : Z) : Status :=
  mkStatus n "bob" ("post " ++ Py.str_of_int n) None false [] None None "Monday".

(** A long post: the list endpoint returns it truncated. *)
Definition long_post (n : Z) : Status :=
  mkStatus n "bob" ("post " ++ Py.str_of_int n) None true [] None None "Monday".

(** The same long post as [api.get_status] serves it in extended mode. *)
Definition full_post (n : Z) : Status :=
  mkStatus n "bob" "" (Some ("the whole post " ++ Py.str_of_int n)%string) false [] None None "Monday".

(** A page of [n] posts whose newest has id [newest]. *)
Definition page (newest : Z) (n : nat) : list Status :=
  map (fun k => post (newest - Z.of_nat k)) (seq 0 n).

(** Sixty posts, ids 160 down to 101, in three pages of twenty. *)
Definition sixty : PageCursor := [page 160 20; page 140 20; page 120 20].

(** Twenty posts, ids 20 down to 1, in one page. *)
Definition twenty : PageCursor := [page 20 20].

(** Three posts in one page. *)
Definition three : PageCursor := [[post 3; post 2; post 1]].

(** Two posts in one page, the newer one listed truncated. *)
Definition two_long : PageCursor := [[long_post 2; post 1]].

(** The default [RETWEET_EMOJI], U+1F501, and [REPLY_EMOJI], U+21AA. *)
Definition retweet_emoji : string :=
  String (ascii_of_nat 240) (String (ascii_of_nat 159)
    (String (ascii_of_nat 148) (String (ascii_of_nat 129) EmptyString))).
Definition reply_emoji : string :=
  String (ascii_of_nat 226) (String (ascii_of_nat 134)
    (String (ascii_of_nat 170) EmptyString)).

(** A state with the given scripts and cursor: database connected and
    empty, nothing persisted, nothing done yet. *)
Definition state (api : list ApiOutcome) (bot : list BotOutcome) (db : list DbOutcome)
           (cursor : option Z) : World :=
  mkWorld api bot db None None true cursor [] [].

(** The state in which every collaborator answers normally. *)
Definition calm (cursor : option Z) : World := state [] [] [] cursor.

End Sample.

Module TweetDrasta.

Section Engine.
(** The settings of the engine, fixed when it is built. *)
Variables max_rollback ratelimit_wait : Z.
Variables RETWEET_EMOJI REPLY_EMOJI : string.
(** Twitter, unchanged while one operation runs: the timeline of the
    account as the API pages it, and the posts [api.get_status] serves
    in extended mode. *)
Variable timeline : PageCursor.
Variable statuses : list Status.

Definition status_str := Formatter.status_str RETWEET_EMOJI REPLY_EMOJI.

(** One [cursor.next()] under [__rtlimt], as far as the API is
    concerned: a rate limit is logged, slept on and the call made
    again; another [TweepError] leaves the generator. *)
Fixpoint rtlimt_on (script : list ApiOutcome) (w : World) : Res unit :=
  match script with
  | [] => Ret tt w
  | ApiOk :: s => Ret tt (set_api_script s w)
  | ApiRateLimit :: s =>
      rtlimt_on s (emit (Slept ratelimit_wait)
                     (emit (Logged TwitterRateLimited) (set_api_script s w)))
  | ApiError :: s => Raise TweepError (set_api_script s w)
  end.

Definition rtlimt : M unit := fun w => rtlimt_on (api_script w) w.

(** [api.get_status(id, tweet_mode='extended')] when the API answers;
    an id it does not know is a [TweepError]. *)
Definition get_status (sid : Z) : option Status :=
  find (fun st => id st =? sid) statuses.

(** [TweetDrasta.__get_status_by_id] *)
Fixpoint get_status_by_id_on (script : list ApiOutcome) (sid : Z) (w : World)
  : Res (option Status) :=
  let answer w :=
    match get_status sid with
    | Some st => Ret (Some st) w
    | None => Ret None (emit (Logged (FetchFailed sid)) w)
    end in
  match script with
  | [] => answer w
  | ApiOk :: s => answer (set_api_script s w)
  | ApiRateLimit :: s =>
      get_status_by_id_on s sid
        (emit (Slept ratelimit_wait)
           (emit (Logged TwitterRateLimited) (set_api_script s w)))
  | ApiError :: s => Ret None (emit (Logged (FetchFailed sid)) (set_api_script s w))
  end.

Definition get_status_by_id (sid : Z) : M (option Status) :=
  fun w => get_status_by_id_on (api_script w) sid w.

Definition is_some {A} (o : option A) : bool :=
  match o with Some _ => true | None => false end.

(** [TweetDrasta.__check_status] *)
Definition check_status (status : option Status) : M (option Status) :=
  match status with
  | None => ret None
  | Some st =>
      if truncated st || is_some (retweeted_status st)
      then get_status_by_id (id st)
      else ret (Some st)
  end.

(** [list(self.__rtlimt(tweepy.Cursor(...).items(limit)))]: [page] is
    what is left of the page in hand, [c] the pages not fetched yet.  A
    page is fetched only when an item is asked for and the page in hand
    is used up. *)
Fixpoint items (limit : nat) (page : list Status) (c : PageCursor) : M (list Status) :=
  match limit with
  | O => ret []
  | S n =>
      match page with
      | st :: page' => more <- items n page' c ;; ret (st :: more)
      | [] =>
          rtlimt ;;
          match c with
          | (st :: page') :: c' => more <- items n page' c' ;; ret (st :: more)
          | _ => ret []
          end
      end
  end.

(** The inner loop of [__get_statuses_since] over one page: [inl] when
    the function returns, [inr] when the page is used up. *)
Fixpoint scan_page (since_id : Z) (page : list Status) (sts : list Z) (i : Z)
  : list Z + list Z * Z :=
  match page with
  | [] => inr (sts, i)
  | status :: page' =>
      if (id status <=? since_id) || (max_rollback <=? i) then inl sts
      else scan_page since_id page' (sts ++ [id status]) (i + 1)
  end.

Fixpoint scan_pages (since_id : Z) (c : PageCursor) (sts : list Z) (i : Z) : M (list Z) :=
  rtlimt ;;
  match c with
  | (st :: page) :: rest =>
      match scan_page since_id (st :: page) sts i with
      | inl found => ret found
      | inr (sts', i') => scan_pages since_id rest sts' i'
      end
  | _ => ret sts
  end.

(** [TweetDrasta.__get_statuses_since] *)
Definition get_statuses_since (since_id : option Z) : M (list Z) :=
  match since_id with
  | None => ret []
  | Some since => scan_pages since timeline [] 0
  end.

(** The loop of [update_status] over the posts of the recent list that
    come before the cursor. *)
Fixpoint forward_recent (todo : list Status) (count : Z) : M Z :=
  match todo with
  | [] => ret count
  | status :: rest =>
      full <- check_status (Some status) ;;
      TelegramBot.send_msg (status_str full) ;;
      modify (set_last_statusid (Some (id status))) ;;
      sleep 3 ;;
      forward_recent rest (count + 1)
  end.

(** The loop of [update_status] over the ids found by rolling back. *)
Fixpoint forward_rollback (todo : list Z) (count : Z) : M Z :=
  match todo with
  | [] => ret count
  | status_id :: rest =>
      fetched <- get_status_by_id status_id ;;
      match fetched with
      | Some status =>
          TelegramBot.send_msg (status_str (Some status)) ;;
          modify (set_last_statusid (Some (id status))) ;;
          sleep 3 ;;
          forward_rollback rest (count + 1)
      | None => forward_rollback rest count
      end
  end.

(** [TweetDrasta.update_status] *)
Definition update_status : M unit :=
  try_except
    (recent_status <- items 20 [] timeline ;;
     let ids := map id recent_status in
     last <- reads last_statusid ;;
     count <-
       match last with
       | None =>
           match recent_status with
           | status :: _ =>
               full <- check_status (Some status) ;;
               TelegramBot.send_msg (status_str full) ;;
               modify (set_last_statusid (Some (id status))) ;;
               ret 1
           | [] => raise IndexError
           end
       | Some l =>
           match Py.index l ids with
           | Some k => forward_recent (rev (firstn k recent_status)) 0
           | None =>
               sts <- get_statuses_since (Some l) ;;
               forward_rollback (rev sts) 0
           end
       end ;;
     if 0 <? count then log (Updated count) else ret tt)
    is_tweep
    (log UpdateFailed).

(** [[self.status_str(self.__check_status(status)) for status in statuses]] *)
Fixpoint render_all (page : list Status) : M (list string) :=
  match page with
  | [] => ret []
  | status :: page' =>
      full <- check_status (Some status) ;;
      more <- render_all page' ;;
      ret (status_str full :: more)
  end.

(** The first loop of [dig_update]: fetch pages, render them and stage
    them.  [i] counts the pages staged, [c] the posts fetched, [last] is
    the id of the oldest post fetched. *)
Fixpoint dig_fetch (all : bool) (f r : Z) (pages : PageCursor)
         (i : nat) (c : Z) (last : option Z) : M (nat * Z * option Z) :=
  rtlimt ;;
  match pages with
  | (st :: page) :: rest =>
      let statuses :=
        if negb all && (f - Z.of_nat i <=? 0) && (0 <? r)
        then firstn (Z.to_nat r) (st :: page) else st :: page in
      stx <- render_all statuses ;;
      let i := S i in
      let c := c + Z.of_nat (List.length stx) in
      match Py.last_item statuses, statuses with
      | Some oldest, newest :: _ =>
          (if Nat.eqb i 1 then modify (set_last_statusid (Some (id newest)))
           else ret tt) ;;
          DBStore.save_tmp_value (Z.of_nat i) (JsonArray stx) ;;
          if negb all && (f <=? Z.of_nat i) then ret (i, c, Some (id oldest))
          else dig_fetch all f r rest i c (Some (id oldest))
      | _, _ => raise IndexError
      end
  | _ => ret (i, c, last)
  end.

(** [for st in reversed(stx): self.bot.send_msg(st); sleep(3)] *)
Fixpoint send_all (msgs : list string) : M unit :=
  match msgs with
  | [] => ret tt
  | st :: rest => TelegramBot.send_msg st ;; sleep 3 ;; send_all rest
  end.

(** The same loop over the items of any JSON value: [send_msg] returns
    at once when it is given something that is not a [str]. *)
Fixpoint send_items (items : list Json) : M unit :=
  match items with
  | [] => ret tt
  | st :: rest =>
      match st with
      | JString msg => TelegramBot.send_msg msg
      | _ => ret tt
      end ;;
      sleep 3 ;;
      send_items rest
  end.

(** The second loop of [dig_update]: send the staged pages, last page
    first.  [json.loads(None)] is a [TypeError], and so is [list] of a
    JSON value that cannot be iterated; neither is caught by the handler
    of [json.JSONDecodeError]. *)
Fixpoint dig_drain (i : nat) (c : Z) : M Z :=
  match i with
  | O => ret c
  | S i' =>
      stx <- DBStore.get_tmp_value (Z.of_nat i) ;;
      match stx with
      | None => raise TypeError
      | Some NotJson => log CorruptJson ;; dig_drain i' c
      | Some (JsonArray msgs) =>
          send_all (rev msgs) ;;
          dig_drain i' (c + Z.of_nat (List.length msgs))
      | Some (JsonOther v) =>
          match list_of v with
          | None => raise TypeError
          | Some items =>
              send_items (rev items) ;;
              dig_drain i' (c + Z.of_nat (List.length items))
          end
      end
  end.

(** The [try] block of [dig_update]: fetch and stage, then send what was
    staged; its value is [last], which the function returns in the end.
    (The progress lines printed to standard output are left out.) *)
Definition dig_try (count : Z) (all : bool) : M (option Z) :=
  fetched <- dig_fetch all (count / 20) (count mod 20) timeline 0 0 None ;;
  let '(i, c, last) := fetched in
  log (Fetched c) ;;
  c' <- dig_drain i 0 ;;
  log (UpdatedTweets c') ;;
  ret last.

(** [TweetDrasta.dig_update(dbstore, count, all)].  The handler of
    [TweepError] calls [self.logger.exception()] without the message
    the method requires, which is a [TypeError]. *)
Definition dig_update (count : Z) (all : bool) : M (option Z) :=
  fun w =>
    if negb (ready w) then (log NoDatabase ;; ret None) w
    else (log (Digging count all) ;;
          finally
            (try_except (dig_try count all) is_tweep (raise TypeError))
            DBStore.drop_tmp) w.

(** [App.__update_hook] *)
Definition update_hook : M unit :=
  update_status ;;
  last <- reads last_statusid ;;
  modify (fun w => set_persist
            (Py.dict_set "last_statusid"
               (match last with Some n => Py.VInt n | None => Py.VNone end)
               (persist w)) w) ;;
  DBStore.save_keystore.

(** *** What the engine is expected to hand to the bot *)

(** Does [__check_status] fetch the post again? *)
Definition refetched (status : Status) : bool :=
  truncated status || is_some (retweeted_status status).

(** What [__check_status] returns for a listed post when the API raises
    no error of its own: the post itself, or what [api.get_status] serves
    for its id ([None] for an id the API does not know). *)
Definition checked (status : Status) : option Status :=
  if refetched status then get_status (id status) else Some status.

(** [msg] is the rendering of the listed post [status]: of the post as
    listed when it needs no second fetch, otherwise of the post as
    [api.get_status] serves it, or of nothing when that fetch fails. *)
Definition rendering (status : Status) (msg : string) : Prop :=
  if refetched status
  then msg = status_str (get_status (id status)) \/ msg = status_str None
  else msg = status_str (Some status).

(** The ids the rollback collects: the leading posts of the feed newer
    than [since], at most [max_rollback] of them. *)
Fixpoint newer_run (since : Z) (posts : list Status) : list Z :=
  match posts with
  | [] => []
  | status :: rest =>
      if id status <=? since then [] else id status :: newer_run since rest
  end.

Definition collected (since : Z) : list Z :=
  firstn (Z.to_nat max_rollback) (newer_run since (feed timeline)).

End Engine.

End TweetDrasta.

(** ** The engine with its default settings

    [max_rollback=50], [ratelimit_wait=(15*60)] and the default emojis, on
    a given timeline and a given set of posts served by id. *)

Module Default.

Definition update_status (timeline : PageCursor) (statuses : list Status) : M unit :=
  TweetDrasta.update_status 50 (15 * 60) Sample.retweet_emoji Sample.reply_emoji
                            timeline statuses.

Definition update_hook (timeline : PageCursor) (statuses : list Status) : M unit :=
  TweetDrasta.update_hook 50 (15 * 60) Sample.retweet_emoji Sample.reply_emoji
                          timeline statuses.

Definition dig_update (timeline : PageCursor) (statuses : list Status)
           (count : Z) (all : bool) : M (option Z) :=
  TweetDrasta.dig_update (15 * 60) Sample.retweet_emoji Sample.reply_emoji
                         timeline statuses count all.

Definition status_str : option Status -> string :=
  TweetDrasta.status_str Sample.retweet_emoji Sample.reply_emoji.

End Default.

(** ** Further observations

    Definitions used to state properties of the code beyond the sync
    cycle: what a run of rate limits adds to the trace, the state of the
    database, and lookups in its tables. *)


(** Every connection to the database still to come is made. *)
Definition db_up (w : World) : Prop := ~ In DbDown (db_script w).

(** The value stored under [key] in the [tmp] table, if the table and the
    row exist. *)
Definition tmp_lookup (key : Z) (w : World) : option Text :=
  match tmp w with
  | Some rows => option_map snd (find (fun row => fst row =? key) rows)
  | None => None
  end.

(** The keys of the rows of the [tmp] table. *)
Definition tmp_keys (w : World) : list Z :=
  match tmp w with
  | Some rows => map fst rows
  | None => []
  end.

(** The value stored under [key] in the [keystore] table: the value of
    the first row with that key. *)
Definition keystore_lookup (key : string) (w : World) : option (option string) :=
  match keystore w with
  | Some rows => Py.dict_get key rows
  | None => None
  end.

(** Each mention of [ms] starts one past the end of the mention before
    it, [prev] being the mention before the first of them. *)
Fixpoint chained (prev : Mention) (ms : list Mention) : Prop :=
  match ms with
  | [] => True
  | m :: rest => snd (indices prev) + 1 = fst (indices m) /\ chained m rest
  end.

(** The last two lines of every rendering: the permalink of the post and
    its time. *)
Definition footer (status : Status) : string :=
  ("https://twitter.com/" ++ user status ++ "/status/" ++ Py.str_of_int (id status)
     ++ Formatter.newline ++ created_at status ++ Formatter.newline)%string.

(** The rows of a table with key [k] exist and all hold [c]. *)
Definition holds (k : string) (c : option string) (rows : list (string * option string))
  : Prop :=
  (exists row, In row rows /\ fst row = k) /\
  forall row, In row rows -> fst row = k -> snd row = c.

(** The store is ready and no collaborator fails in what is to come: the
    database is reachable, the Twitter API raises nothing but rate limits
    and the bot nothing but [RetryAfter] and [BadRequest]. *)
Definition nominal (w : World) : Prop :=
  ready w = true /\ db_up w /\ api_clean w /\ bot_polite w.

(** The pages the page iterator gets to see: those before the first
    empty one. *)
Fixpoint leading (c : PageCursor) : list (list Status) :=
  match c with
  | (st :: page) :: rest => (st :: page) :: leading rest
  | _ => []
  end.

(** The posts a bulk import of [count] posts is found to take from the
    feed, newest first: the whole feed when [all] is set; otherwise the
    first [count // 20] pages when that is at least one page, and else the
    first page, cut to [count % 20] posts when that is not zero. *)
Definition dug (count : Z) (all : bool) (c : PageCursor) : list Status :=
  if all then feed c
  else if 0 <? count / 20 then List.concat (firstn (Z.to_nat (count / 20)) (leading c))
  else match leading c with
       | page :: _ =>
           if 0 <? count mod 20 then firstn (Z.to_nat (count mod 20)) page else page
       | [] => []
       end.

(** The same, page by page, for an import that has staged [i] pages
    already and whose page iterator is at [c]. *)
Definition dug_from (all : bool) (f r : Z) (c : PageCursor) (i : nat)
  : list (list Status) :=
  if all then leading c
  else if Z.of_nat i <? f then firstn (Z.to_nat (f - Z.of_nat i)) (leading c)
  else match leading c with
       | page :: _ => [if 0 <? r then firstn (Z.to_nat r) page else page]
       | [] => []
       end.

(** ** TelegramBot.start and TelegramBot.stop

    The updater thread and the lookup of the channel id have a state of
    their own: whether the updater runs, the channel id the bot holds, the
    id [bot.get_chat] serves for the channel, the outcomes of the calls of
    [get_chat] still to come (when they are used up the call succeeds) and
    what the bot has done so far. *)

Module TelegramBotLife.

Inductive ChatOutcome :=
| ChatOk                 (* get_chat returns the chat *)
| ChatBadRequest         (* get_chat raises BadRequest *)
| ChatError.             (* get_chat raises another TelegramError *)

Inductive BotEvent :=
| Polling                (* updater.start_polling() *)
| Halted                 (* updater.stop(), info "Bot stopped!" *)
| Asked                  (* bot.get_chat *)
| LookupFailed (i : Z)   (* warning "Failed to get fetch channel id! (i)" *)
| Waited (secs : Z)      (* sleep *)
| Online                 (* info "Bot ... running & online ..." *)
| NoChannel.             (* fatal "No channel id, can't continue!!" *)

Record Bot := mkBot {
  running : bool;                  (* updater.running *)
  channel_id : option Z;           (* self.channel_id *)
  chat : Z;                        (* the id of the channel *)
  chat_script : list ChatOutcome;
  events : list BotEvent
}.

(** How a call ends: it returns, the process exits, or a [TelegramError]
    leaves it. *)
Inductive Ending :=
| Returned (b : Bot)
| Exited (code : Z) (b : Bot)
| Failed (b : Bot).

Definition set_running r b :=
  mkBot r (channel_id b) (chat b) (chat_script b) (events b).
Definition set_channel_id c b :=
  mkBot (running b) c (chat b) (chat_script b) (events b).
Definition set_chat_script s b :=
  mkBot (running b) (channel_id b) (chat b) s (events b).
Definition note e b :=
  mkBot (running b) (channel_id b) (chat b) (chat_script b) (events b ++ [e]).

(** [not self.channel_id] *)
Definition unset (c : option Z) : bool :=
  match c with
  | None => true
  | Some n => n =? 0
  end.

(** [TelegramBot.stop] *)
Definition stop (b : Bot) : Bot :=
  if running b then note Halted (set_running false b) else b.

(** [range(1, 11)] *)
Definition tries : list Z := map Z.of_nat (seq 1 10).

(** The loop of [start] over the tries left. *)
Fixpoint get_channel_id (left : list Z) (b : Bot) : Ending :=
  match left with
  | [] => Returned b
  | i :: rest =>
      match chat_script b with
      | [] => Returned (set_channel_id (Some (chat b)) (note Asked b))
      | ChatOk :: s =>
          Returned (set_channel_id (Some (chat b)) (note Asked (set_chat_script s b)))
      | ChatBadRequest :: s =>
          let b1 := note (LookupFailed i) (note Asked (set_chat_script s b)) in
          if i =? 10 then Exited 2 (note NoChannel (stop b1))
          else get_channel_id rest (note (Waited 10) b1)
      | ChatError :: s => Failed (note Asked (set_chat_script s b))
      end
  end.

(** [TelegramBot.start] *)
Definition start (b : Bot) : Ending :=
  if running b then Returned b
  else
    let b1 := note Polling (set_running true b) in
    if unset (channel_id b1) then
      match get_channel_id tries b1 with
      | Returned b2 => Returned (note Online b2)
      | ending => ending
      end
    else Returned (note Online b1).

(** The events of the failed tries [i], [i+1], ..., [i+k-1], none of them
    the tenth. *)
Definition failed_tries (i k : nat) : list BotEvent :=
  flat_map (fun j => [Asked; LookupFailed (Z.of_nat j); Waited 10]) (seq i k).

(** The number of sleeps among the events. *)
Definition waits (evs : list BotEvent) : nat :=
  List.length (filter (fun e => match e with Waited _ => true | _ => false end) evs).

(** The number of calls of [get_chat] among the events. *)
Definition lookups (evs : list BotEvent) : nat :=
  List.length (filter (fun e => match e with Asked => true | _ => false end) evs).

(** The bot as a call leaves it. *)
Definition bot_of (e : Ending) : Bot :=
  match e with
  | Returned b | Exited _ b | Failed b => b
  end.

End TelegramBotLife.


(** The texts the bot rejected with [BadRequest], in order. *)
Fixpoint rejected (tr : list Event) : list string :=
  match tr with
  | [] => []
  | Rejected msg :: tr' => msg :: rejected tr'
  | _ :: tr' => rejected tr'
  end.

(** The bot takes every message that is still to come: it raises no
    [BadRequest]. *)
Definition bot_takes_all (w : World) : Prop := ~ In BadRequest (bot_script w).

(** While the bot takes every message, [m] gets none rejected. *)
Definition unrejecting {A} (m : M A) : Prop :=
  forall w, bot_takes_all w ->
    bot_takes_all (world_of (m w)) /\
    rejected (trace (world_of (m w))) = rejected (trace w).

(** * Properties *)

(** ** Traces and scripts *)

Lemma handed_app (a b : list Event) : handed (a ++ b) = handed a ++ handed b.
Proof.
  induction a as [|e a IH]; simpl; [reflexivity|].
  destruct e; simpl; rewrite IH; reflexivity.
Qed.

Lemma dbs_app (a b : list Event) : dbs (a ++ b) = dbs a ++ dbs b.
Proof.
  induction a as [|e a IH]; simpl; [reflexivity|].
  destruct e; simpl; rewrite IH; reflexivity.
Qed.

Lemma quiet_handed (tr : list Event) : quiet tr -> handed tr = [].
Proof.
  induction 1 as [|e tr He _ IH]; simpl; [reflexivity|].
  destruct e; simpl in He; try contradiction; exact IH.
Qed.

Lemma quiet_dbs (tr : list Event) : quiet tr -> dbs tr = [].
Proof.
  induction 1 as [|e tr He _ IH]; simpl; [reflexivity|].
  destruct e; simpl in He; try contradiction; exact IH.
Qed.

Lemma quiet_app (a b : list Event) : quiet a -> quiet b -> quiet (a ++ b).
Proof. apply Forall_app_intro || (intros; apply Forall_app; split; assumption). Qed.

Lemma quiet_paced (tr : list Event) : quiet tr -> paced tr.
Proof.
  induction 1 as [|e tr He _ IH]; simpl; [exact I|].
  destruct e; simpl in He; try contradiction; exact IH.
Qed.

Lemma paced_app (a b : list Event) : paced a -> paced b -> paced (a ++ b).
Proof.
  induction a as [|e a IH]; simpl; intros Ha Hb; [exact Hb|].
  destruct e; try (apply IH; assumption);
    (destruct a as [|[] a']; try contradiction;
     destruct secs as [|[p|p|]|]; try contradiction;
     try destruct p; try contradiction; apply IH; assumption).
Qed.

Lemma tail_of_refl {A} (s : list A) : tail_of s s.
Proof. exists []; reflexivity. Qed.

Lemma tail_of_trans {A} (s t u : list A) : tail_of s t -> tail_of t u -> tail_of s u.
Proof.
  intros [p Hp] [q Hq]. exists (q ++ p). rewrite Hq, Hp, app_assoc. reflexivity.
Qed.

Lemma tail_of_cons {A} (x : A) (s t : list A) : tail_of s t -> tail_of s (x :: t).
Proof. intros [p Hp]. exists (x :: p). rewrite Hp. reflexivity. Qed.

Lemma tail_of_not_in {A} (x : A) (s t : list A) : tail_of s t -> ~ In x t -> ~ In x s.
Proof.
  intros [p Hp] Hn Hin. apply Hn. rewrite Hp. apply in_or_app. right. exact Hin.
Qed.

Lemma tail_of_in {A} (x : A) (s t : list A) : tail_of s t -> In x s -> In x t.
Proof. intros [p Hp] Hin. rewrite Hp. apply in_or_app. right. exact Hin. Qed.

(** ** Steps of the collaborators *)

Lemma moved_refl (w : World) : moved w w [].
Proof. constructor; try reflexivity; try apply tail_of_refl. symmetry; apply app_nil_r. Qed.

Lemma moved_trans (w w1 w2 : World) (e1 e2 : list Event) :
  moved w w1 e1 -> moved w1 w2 e2 -> moved w w2 (e1 ++ e2).
Proof.
  intros [T A B D K P R S] [T' A' B' D' K' P' R' S'].
  constructor; try congruence.
  - rewrite T', T, app_assoc. reflexivity.
  - eapply tail_of_trans; eassumption.
  - eapply tail_of_trans; eassumption.
Qed.

Lemma moved_emit (w : World) (e : Event) : moved w (emit e w) [e].
Proof. constructor; try reflexivity; apply tail_of_refl. Qed.

Lemma moved_cursor (w : World) (l : option Z) : moved w (set_last_statusid l w) [].
Proof. constructor; try reflexivity; try apply tail_of_refl. symmetry; apply app_nil_r. Qed.

Lemma moved_api (w : World) (o : ApiOutcome) (s : list ApiOutcome) :
  api_script w = o :: s -> moved w (set_api_script s w) [].
Proof.
  intros H. constructor; try reflexivity; simpl.
  - symmetry; apply app_nil_r.
  - rewrite H. apply tail_of_cons, tail_of_refl.
  - apply tail_of_refl.
Qed.

Lemma moved_bot (w : World) (o : BotOutcome) (s : list BotOutcome) :
  bot_script w = o :: s -> moved w (set_bot_script s w) [].
Proof.
  intros H. constructor; try reflexivity; simpl.
  - symmetry; apply app_nil_r.
  - apply tail_of_refl.
  - rewrite H. apply tail_of_cons, tail_of_refl.
Qed.

Lemma moved_clean (w w' : World) (evs : list Event) :
  moved w w' evs -> api_clean w -> api_clean w'.
Proof. intros H. unfold api_clean. apply tail_of_not_in, (mv_api H). Qed.

Lemma moved_polite (w w' : World) (evs : list Event) :
  moved w w' evs -> bot_polite w -> bot_polite w'.
Proof. intros H. unfold bot_polite. apply tail_of_not_in, (mv_bot H). Qed.

Lemma moved_handed (w w' : World) (evs : list Event) :
  moved w w' evs -> handed (trace w') = handed (trace w) ++ handed evs.
Proof. intros H. rewrite (mv_trace H). apply handed_app. Qed.

Lemma moved_api_noise (w : World) (o : ApiOutcome) (s : list ApiOutcome) (e1 e2 : Event) :
  api_script w = o :: s ->
  moved w (emit e2 (emit e1 (set_api_script s w))) [e1; e2].
Proof.
  intros H. constructor; try reflexivity; simpl.
  - rewrite <- app_assoc. reflexivity.
  - rewrite H. apply tail_of_cons, tail_of_refl.
  - apply tail_of_refl.
Qed.

Lemma moved_bot_noise (w : World) (o : BotOutcome) (s : list BotOutcome) (e1 e2 : Event) :
  bot_script w = o :: s ->
  moved w (emit e2 (emit e1 (set_bot_script s w))) [e1; e2].
Proof.
  intros H. constructor; try reflexivity; simpl.
  - rewrite <- app_assoc. reflexivity.
  - apply tail_of_refl.
  - rewrite H. apply tail_of_cons, tail_of_refl.
Qed.

Lemma moved_bot_verdict (w : World) (o : BotOutcome) (s : list BotOutcome) (e : Event) :
  bot_script w = o :: s -> moved w (emit e (set_bot_script s w)) [e].
Proof.
  intros H. constructor; try reflexivity; simpl.
  - apply tail_of_refl.
  - rewrite H. apply tail_of_cons, tail_of_refl.
Qed.

(** ** TelegramBot.send_msg *)

(** A call of [send_msg] either completes, and then its last event is the
    bot's verdict on the message, or is left by a [TelegramError] without
    any verdict. *)
Lemma send_msg_on_spec (msg : string) (script : list BotOutcome) :
  forall w, bot_script w = script ->
  exists w' evs,
    moved w w' evs /\ last_statusid w' = last_statusid w /\
    ((TelegramBot.send_msg_on script msg w = Ret tt w' /\
      exists pre v, evs = pre ++ [v] /\ quiet pre /\ (v = Sent msg \/ v = Rejected msg))
     \/ (TelegramBot.send_msg_on script msg w = Raise TelegramError w' /\
         quiet evs /\ In BotError script)).
Proof.
  induction script as [|o s IH]; intros w Hs; simpl.
  - exists (emit (Sent msg) w), [Sent msg]. split; [apply moved_emit|].
    split; [reflexivity|]. left. split; [reflexivity|].
    exists [], (Sent msg). repeat split; auto. constructor.
  - destruct o as [|secs| |].
    + exists (emit (Sent msg) (set_bot_script s w)), [Sent msg].
      split; [eapply moved_bot_verdict; eassumption|].
      split; [reflexivity|]. left. split; [reflexivity|].
      exists [], (Sent msg). repeat split; auto. constructor.
    + set (w1 := emit (Slept secs) (emit (Logged TelegramRateLimited) (set_bot_script s w))).
      destruct (IH w1 eq_refl) as (w' & evs & Hm & Hl & Hr).
      exists w', ([Logged TelegramRateLimited; Slept secs] ++ evs).
      split; [eapply moved_trans; [eapply moved_bot_noise; eassumption|exact Hm]|].
      split; [rewrite Hl; reflexivity|].
      destruct Hr as [(Hr & pre & v & He & Hq & Hv)|(Hr & Hq & Hin)].
      * left. split; [exact Hr|].
        exists ([Logged TelegramRateLimited; Slept secs] ++ pre), v.
        split; [rewrite He, app_assoc; reflexivity|].
        split; [|exact Hv]. apply quiet_app; [|exact Hq].
        repeat constructor.
      * right. split; [exact Hr|]. split; [|right; exact Hin].
        apply quiet_app; [|exact Hq]. repeat constructor.
    + exists (emit (Rejected msg) (set_bot_script s w)), [Rejected msg].
      split; [eapply moved_bot_verdict; eassumption|].
      split; [reflexivity|]. left. split; [reflexivity|].
      exists [], (Rejected msg). repeat split; auto. constructor.
    + exists (set_bot_script s w), [].
      split; [eapply moved_bot; eassumption|].
      split; [reflexivity|]. right. split; [reflexivity|].
      split; [constructor|left; reflexivity].
Qed.

Lemma send_msg_spec (msg : string) (w : World) :
  exists w' evs,
    moved w w' evs /\ last_statusid w' = last_statusid w /\
    ((TelegramBot.send_msg msg w = Ret tt w' /\
      exists pre v, evs = pre ++ [v] /\ quiet pre /\ (v = Sent msg \/ v = Rejected msg))
     \/ (TelegramBot.send_msg msg w = Raise TelegramError w' /\
         quiet evs /\ In BotError (bot_script w))).
Proof. apply send_msg_on_spec. reflexivity. Qed.

(** ** Messages the bot takes *)

Lemma rejected_app (a b : list Event) : rejected (a ++ b) = rejected a ++ rejected b.
Proof.
  induction a as [|e a IH]; simpl; [reflexivity|].
  destruct e; simpl; rewrite IH; reflexivity.
Qed.

Lemma delivered_app (a b : list Event) : delivered (a ++ b) = delivered a ++ delivered b.
Proof.
  induction a as [|e a IH]; simpl; [reflexivity|].
  destruct e; simpl; rewrite IH; reflexivity.
Qed.

Lemma quiet_rejected (tr : list Event) : quiet tr -> rejected tr = [].
Proof.
  induction 1 as [|e tr He _ IH]; simpl; [reflexivity|].
  destruct e; simpl in He; try contradiction; exact IH.
Qed.

(** Where no message was rejected, what was handed over was delivered. *)
Lemma unrejected_delivered (tr : list Event) : rejected tr = [] -> delivered tr = handed tr.
Proof.
  induction tr as [|e tr IH]; simpl; [reflexivity|].
  destruct e; simpl; intros H; try (apply IH; exact H).
  - rewrite (IH H). reflexivity.
  - discriminate H.
Qed.

Lemma delivered_length (tr : list Event) :
  (List.length (delivered tr) <= List.length (handed tr))%nat.
Proof.
  induction tr as [|e tr IH]; simpl; [lia|]. destruct e; simpl; lia.
Qed.

Lemma moved_unrejected (w w' : World) (evs : list Event) :
  moved w w' evs -> quiet evs -> bot_takes_all w ->
  bot_takes_all w' /\ rejected (trace w') = rejected (trace w).
Proof.
  intros Hm Hq Ht. split.
  - unfold bot_takes_all. exact (@tail_of_not_in _ BadRequest _ _ (mv_bot Hm) Ht).
  - rewrite (mv_trace Hm), rejected_app, (quiet_rejected Hq). apply app_nil_r.
Qed.

Lemma unrejecting_ret {A} (a : A) : unrejecting (ret a).
Proof. intros w H. split; [exact H|reflexivity]. Qed.

Lemma unrejecting_raise {A} (e : Exn) : unrejecting (@raise A e).
Proof. intros w H. split; [exact H|reflexivity]. Qed.

Lemma unrejecting_reads {A} (f : World -> A) : unrejecting (reads f).
Proof. intros w H. split; [exact H|reflexivity]. Qed.

Lemma unrejecting_log (r : Log) : unrejecting (log r).
Proof.
  intros w H. split; [exact H|]. simpl. rewrite rejected_app. apply app_nil_r.
Qed.

Lemma unrejecting_sleep (secs : Z) : unrejecting (sleep secs).
Proof.
  intros w H. split; [exact H|]. simpl. rewrite rejected_app. apply app_nil_r.
Qed.

Lemma unrejecting_cursor (l : option Z) : unrejecting (modify (set_last_statusid l)).
Proof. intros w H. split; [exact H|reflexivity]. Qed.

Lemma unrejecting_bind {A B} (m : M A) (k : A -> M B) :
  unrejecting m -> (forall a, unrejecting (k a)) -> unrejecting (bind m k).
Proof.
  intros Hm Hk w H. unfold bind. specialize (Hm w H).
  destruct (m w) as [a w1|e w1]; simpl in Hm; [|exact Hm].
  destruct Hm as (H1 & Hr1). destruct (Hk a w1 H1) as (H2 & Hr2).
  split; [exact H2|]. rewrite Hr2. exact Hr1.
Qed.

Lemma unrejecting_try_except {A} (m : M A) (caught : Exn -> bool) (handler : M A) :
  unrejecting m -> unrejecting handler -> unrejecting (try_except m caught handler).
Proof.
  intros Hm Hh w H. unfold try_except. specialize (Hm w H).
  destruct (m w) as [a w1|e w1]; simpl in Hm; [exact Hm|].
  destruct (caught e); [|exact Hm].
  destruct Hm as (H1 & Hr1). destruct (Hh w1 H1) as (H2 & Hr2).
  split; [exact H2|]. rewrite Hr2. exact Hr1.
Qed.

(** A bot that raises no [BadRequest] rejects nothing: [send_msg] ends
    with the text sent, or is left by a [TelegramError]. *)
Lemma send_msg_on_unrejecting (msg : string) (script : list BotOutcome) :
  forall w, bot_script w = script -> ~ In BadRequest script ->
    bot_takes_all (world_of (TelegramBot.send_msg_on script msg w)) /\
    rejected (trace (world_of (TelegramBot.send_msg_on script msg w)))
    = rejected (trace w).
Proof.
  induction script as [|o s IH]; intros w Hs Hno; simpl.
  - split; [unfold bot_takes_all; simpl; rewrite Hs; exact Hno|].
    rewrite rejected_app. apply app_nil_r.
  - assert (Hs' : ~ In BadRequest s) by (intros Hin; apply Hno; right; exact Hin).
    destruct o as [|secs| |]; simpl.
    + split; [exact Hs'|]. rewrite rejected_app. apply app_nil_r.
    + destruct (IH (emit (Slept secs) (emit (Logged TelegramRateLimited)
                                            (set_bot_script s w))) eq_refl Hs')
        as (H1 & H2).
      split; [exact H1|]. rewrite H2. simpl. rewrite !rejected_app. simpl.
      rewrite !app_nil_r. reflexivity.
    + exfalso. apply Hno. left. reflexivity.
    + split; [exact Hs'|reflexivity].
Qed.

Lemma send_msg_unrejecting (msg : string) : unrejecting (TelegramBot.send_msg msg).
Proof. intros w H. exact (send_msg_on_unrejecting msg w eq_refl H). Qed.

(** What a run added to the trace, when the bot took every message: the
    texts delivered are the texts handed over. *)
Lemma taken_all {A} (m : M A) (w : World) (evs : list Event) :
  unrejecting m -> bot_takes_all w ->
  trace (world_of (m w)) = trace w ++ evs ->
  delivered evs = handed evs.
Proof.
  intros Hm Ht Htr. destruct (Hm w Ht) as (_ & Hr).
  rewrite Htr, rejected_app in Hr.
  apply unrejected_delivered.
  apply (app_inv_head (rejected (trace w))). rewrite app_nil_r. exact Hr.
Qed.

(** ** The engine *)

Section EngineFacts.

Variables max_rollback ratelimit_wait : Z.
Variables RETWEET_EMOJI REPLY_EMOJI : string.
Variable timeline : PageCursor.
Variable statuses : list Status.

Local Notation rtlimt_on := (TweetDrasta.rtlimt_on ratelimit_wait).
Local Notation rtlimt := (TweetDrasta.rtlimt ratelimit_wait).
Local Notation get_status := (TweetDrasta.get_status statuses).
Local Notation get_status_by_id_on := (TweetDrasta.get_status_by_id_on ratelimit_wait statuses).
Local Notation get_status_by_id := (TweetDrasta.get_status_by_id ratelimit_wait statuses).
Local Notation check_status := (TweetDrasta.check_status ratelimit_wait statuses).
Local Notation status_str := (TweetDrasta.status_str RETWEET_EMOJI REPLY_EMOJI).
Local Notation items := (TweetDrasta.items ratelimit_wait).
Local Notation scan_page := (TweetDrasta.scan_page max_rollback).
Local Notation scan_pages := (TweetDrasta.scan_pages max_rollback ratelimit_wait).
Local Notation get_statuses_since :=
  (TweetDrasta.get_statuses_since max_rollback ratelimit_wait timeline).
Local Notation forward_recent :=
  (TweetDrasta.forward_recent ratelimit_wait RETWEET_EMOJI REPLY_EMOJI statuses).
Local Notation forward_rollback :=
  (TweetDrasta.forward_rollback ratelimit_wait RETWEET_EMOJI REPLY_EMOJI statuses).
Local Notation update_status :=
  (TweetDrasta.update_status max_rollback ratelimit_wait RETWEET_EMOJI REPLY_EMOJI
                             timeline statuses).
Local Notation update_hook :=
  (TweetDrasta.update_hook max_rollback ratelimit_wait RETWEET_EMOJI REPLY_EMOJI
                           timeline statuses).
Local Notation render_all :=
  (TweetDrasta.render_all ratelimit_wait RETWEET_EMOJI REPLY_EMOJI statuses).
Local Notation dig_fetch :=
  (TweetDrasta.dig_fetch ratelimit_wait RETWEET_EMOJI REPLY_EMOJI statuses).
Local Notation dig_try :=
  (TweetDrasta.dig_try ratelimit_wait RETWEET_EMOJI REPLY_EMOJI timeline statuses).
Local Notation dig_update :=
  (TweetDrasta.dig_update ratelimit_wait RETWEET_EMOJI REPLY_EMOJI timeline statuses).
Local Notation rendering := (TweetDrasta.rendering RETWEET_EMOJI REPLY_EMOJI statuses).
Local Notation collected := (TweetDrasta.collected max_rollback timeline).
Local Notation checked := (TweetDrasta.checked statuses).

(** A call of the API under [__rtlimt] either goes through, after any
    number of rate limits, or is left by a [TweepError]; it adds sleeps and
    log records only. *)
Lemma rtlimt_on_spec (script : list ApiOutcome) :
  forall w, api_script w = script ->
  exists w' evs,
    moved w w' evs /\ quiet evs /\ last_statusid w' = last_statusid w /\
    (rtlimt_on script w = Ret tt w'
     \/ (rtlimt_on script w = Raise TweepError w' /\ In ApiError script)).
Proof.
  induction script as [|o s IH]; intros w Hs; simpl.
  - exists w, []. split; [apply moved_refl|]. split; [constructor|]. auto.
  - destruct o.
    + exists (set_api_script s w), [].
      split; [eapply moved_api; eassumption|]. split; [constructor|]. auto.
    + set (w1 := emit (Slept ratelimit_wait)
                   (emit (Logged TwitterRateLimited) (set_api_script s w))).
      destruct (IH w1 eq_refl) as (w' & evs & Hm & Hq & Hl & Hr).
      exists w', ([Logged TwitterRateLimited; Slept ratelimit_wait] ++ evs).
      split; [eapply moved_trans; [eapply moved_api_noise; eassumption|exact Hm]|].
      split; [apply quiet_app; [repeat constructor|exact Hq]|].
      split; [rewrite Hl; reflexivity|].
      destruct Hr as [Hr|[Hr Hin]]; [left; exact Hr|right; split; [exact Hr|right; exact Hin]].
    + exists (set_api_script s w), [].
      split; [eapply moved_api; eassumption|]. split; [constructor|].
      split; [reflexivity|]. right. split; [reflexivity|left; reflexivity].
Qed.

Lemma rtlimt_spec (w : World) :
  exists w' evs,
    moved w w' evs /\ quiet evs /\ last_statusid w' = last_statusid w /\
    (rtlimt w = Ret tt w'
     \/ (rtlimt w = Raise TweepError w' /\ In ApiError (api_script w))).
Proof. apply rtlimt_on_spec. reflexivity. Qed.

(** [__get_status_by_id] always returns: the post the API serves for the
    id, or [None] after a failure it has logged. *)
Lemma get_status_by_id_on_spec (sid : Z) (script : list ApiOutcome) :
  forall w, api_script w = script ->
  exists w' evs r,
    get_status_by_id_on script sid w = Ret r w' /\
    moved w w' evs /\ quiet evs /\ last_statusid w' = last_statusid w /\
    (r = get_status sid \/ (r = None /\ In ApiError script)).
Proof.
  assert (Hanswer : forall w,
    exists w' evs r,
      match get_status sid with
      | Some st => Ret (Some st) w
      | None => Ret None (emit (Logged (FetchFailed sid)) w)
      end = Ret r w' /\
      moved w w' evs /\ quiet evs /\ last_statusid w' = last_statusid w /\
      r = get_status sid).
  { intros w. destruct (get_status sid) as [st|].
    - exists w, [], (Some st). split; [reflexivity|]. split; [apply moved_refl|].
      split; [constructor|]. auto.
    - exists (emit (Logged (FetchFailed sid)) w), [Logged (FetchFailed sid)], None.
      split; [reflexivity|]. split; [apply moved_emit|].
      split; [repeat constructor|]. auto. }
  induction script as [|o s IH]; intros w Hs; simpl.
  - destruct (Hanswer w) as (w' & evs & r & H1 & H2 & H3 & H4 & H5).
    exists w', evs, r. auto 10.
  - destruct o.
    + destruct (Hanswer (set_api_script s w)) as (w' & evs & r & H1 & H2 & H3 & H4 & H5).
      exists w', evs, r. split; [exact H1|].
      split; [change evs with ([] ++ evs);
              eapply moved_trans; [eapply moved_api; eassumption|exact H2]|].
      auto.
    + set (w1 := emit (Slept ratelimit_wait)
                   (emit (Logged TwitterRateLimited) (set_api_script s w))).
      destruct (IH w1 eq_refl) as (w' & evs & r & Hr & Hm & Hq & Hl & Hres).
      exists w', ([Logged TwitterRateLimited; Slept ratelimit_wait] ++ evs), r.
      split; [exact Hr|].
      split; [eapply moved_trans; [eapply moved_api_noise; eassumption|exact Hm]|].
      split; [apply quiet_app; [repeat constructor|exact Hq]|].
      split; [rewrite Hl; reflexivity|].
      destruct Hres as [Hres|[Hres Hin]]; [left; exact Hres|right; split; [exact Hres|right; exact Hin]].
    + exists (emit (Logged (FetchFailed sid)) (set_api_script s w)),
        ([] ++ [Logged (FetchFailed sid)]), None.
      split; [reflexivity|].
      split; [eapply moved_trans; [eapply moved_api; eassumption|apply moved_emit]|].
      split; [repeat constructor|]. split; [reflexivity|].
      right. split; [reflexivity|left; reflexivity].
Qed.

Lemma get_status_by_id_spec (sid : Z) (w : World) :
  exists w' evs r,
    get_status_by_id sid w = Ret r w' /\
    moved w w' evs /\ quiet evs /\ last_statusid w' = last_statusid w /\
    (r = get_status sid \/ (r = None /\ In ApiError (api_script w))).
Proof. apply get_status_by_id_on_spec. reflexivity. Qed.

(** The post [api.get_status] serves for an id carries that id. *)
Lemma get_status_id (sid : Z) (st : Status) : get_status sid = Some st -> id st = sid.
Proof.
  unfold TweetDrasta.get_status. intros H. apply find_some in H.
  destruct H as [_ H]. apply Z.eqb_eq in H. exact H.
Qed.

(** [__check_status] always returns, and the text rendered from its
    result is a rendering of the post it was given. *)
Lemma check_status_spec (st : Status) (w : World) :
  exists w' evs r,
    check_status (Some st) w = Ret r w' /\
    moved w w' evs /\ quiet evs /\ last_statusid w' = last_statusid w /\
    rendering st (status_str r) /\
    (api_clean w -> r = checked st).
Proof.
  unfold TweetDrasta.check_status, TweetDrasta.rendering, TweetDrasta.checked,
    TweetDrasta.refetched.
  destruct (truncated st || TweetDrasta.is_some (retweeted_status st)).
  - destruct (get_status_by_id_spec (id st) w) as (w' & evs & r & Hr & Hm & Hq & Hl & Hres).
    exists w', evs, r. repeat (split; [assumption|]).
    split.
    + destruct Hres as [->|[-> _]]; auto.
    + intros Hc. destruct Hres as [->|[_ Hin]]; [reflexivity|]. contradiction.
  - exists w, [], (Some st). split; [reflexivity|]. split; [apply moved_refl|].
    split; [constructor|]. auto.
Qed.

(** The fetch of the [limit] most recent posts either yields the first
    [limit] posts of the feed or is left by a [TweepError]. *)
Lemma items_spec (limit : nat) :
  forall page c w,
  exists w' evs,
    moved w w' evs /\ quiet evs /\ last_statusid w' = last_statusid w /\
    (items limit page c w = Ret (firstn limit (page ++ feed c)) w'
     \/ (items limit page c w = Raise TweepError w' /\ In ApiError (api_script w))).
Proof.
  induction limit as [|n IH]; intros page c w.
  - exists w, []. split; [apply moved_refl|]. split; [constructor|]. auto.
  - destruct page as [|st page'].
    + simpl. unfold bind.
      destruct (rtlimt_spec w) as (w1 & e1 & Hm1 & Hq1 & Hl1 & [Hr1|[Hr1 Hin1]]); rewrite Hr1.
      * destruct c as [|[|st page'] c'].
        -- exists w1, e1. auto 10.
        -- exists w1, e1. auto 10.
        -- destruct (IH page' c' w1) as (w2 & e2 & Hm2 & Hq2 & Hl2 & Hr2).
           exists w2, (e1 ++ e2).
           split; [eapply moved_trans; eassumption|].
           split; [apply quiet_app; assumption|].
           split; [congruence|].
           destruct Hr2 as [Hr2|[Hr2 Hin2]].
           ++ left. rewrite Hr2. reflexivity.
           ++ right. rewrite Hr2. split; [reflexivity|].
              eapply tail_of_in; [exact (mv_api Hm1)|exact Hin2].
      * exists w1, e1. auto 10.
    + simpl. unfold bind.
      destruct (IH page' c w) as (w2 & e2 & Hm2 & Hq2 & Hl2 & [Hr2|[Hr2 Hin2]]); rewrite Hr2.
      * exists w2, e2. auto 10.
      * exists w2, e2. auto 10.
Qed.


(** *** The rollback's search *)

Lemma scan_page_spec (since : Z) (page : list Status) :
  forall rest sts i,
    match scan_page since page sts i with
    | inl found =>
        found = sts ++ firstn (Z.to_nat (max_rollback - i))
                              (TweetDrasta.newer_run since (page ++ rest))
    | inr (sts', i') =>
        sts ++ firstn (Z.to_nat (max_rollback - i))
                      (TweetDrasta.newer_run since (page ++ rest))
        = sts' ++ firstn (Z.to_nat (max_rollback - i')) (TweetDrasta.newer_run since rest)
    end.
Proof.
  induction page as [|st page IH]; intros rest sts i; simpl; [reflexivity|].
  destruct (id st <=? since) eqn:E1; simpl.
  - rewrite firstn_nil, app_nil_r. reflexivity.
  - destruct (max_rollback <=? i) eqn:E2; simpl.
    + apply Z.leb_le in E2.
      replace (Z.to_nat (max_rollback - i)) with 0%nat by lia.
      simpl. rewrite app_nil_r. reflexivity.
    + apply Z.leb_gt in E2.
      replace (Z.to_nat (max_rollback - i))
        with (S (Z.to_nat (max_rollback - (i + 1)))) by lia.
      simpl. specialize (IH rest (sts ++ [id st]) (i + 1)).
      rewrite <- app_assoc in IH. simpl in IH. exact IH.
Qed.

Lemma scan_pages_cons (since : Z) (st : Status) (page : list Status) (rest : PageCursor)
      (sts : list Z) (i : Z) :
  scan_pages since ((st :: page) :: rest) sts i
  = (rtlimt ;;
     match scan_page since (st :: page) sts i with
     | inl found => ret found
     | inr (sts', i') => scan_pages since rest sts' i'
     end).
Proof. reflexivity. Qed.

(** The search either returns the leading posts of the feed newer than
    the cursor, as far as [max_rollback] leaves room, or is left by a
    [TweepError]. *)
Lemma scan_pages_spec (since : Z) (c : PageCursor) :
  forall sts i w,
  exists w' evs,
    moved w w' evs /\ quiet evs /\ last_statusid w' = last_statusid w /\
    (scan_pages since c sts i w
       = Ret (sts ++ firstn (Z.to_nat (max_rollback - i))
                            (TweetDrasta.newer_run since (feed c))) w'
     \/ (scan_pages since c sts i w = Raise TweepError w' /\ In ApiError (api_script w))).
Proof.
  induction c as [|pg rest IH]; intros sts i w.
  - simpl. unfold bind.
    destruct (rtlimt_spec w) as (w1 & e1 & Hm1 & Hq1 & Hl1 & [Hr1|[Hr1 Hin1]]); rewrite Hr1;
      exists w1, e1; [|auto 10].
    rewrite firstn_nil, app_nil_r. auto 10.
  - destruct pg as [|st page].
    + simpl. unfold bind.
      destruct (rtlimt_spec w) as (w1 & e1 & Hm1 & Hq1 & Hl1 & [Hr1|[Hr1 Hin1]]); rewrite Hr1;
        exists w1, e1; [|auto 10].
      rewrite firstn_nil, app_nil_r. auto 10.
    + rewrite scan_pages_cons. unfold bind.
      change (feed ((st :: page) :: rest)) with ((st :: page) ++ feed rest).
      destruct (rtlimt_spec w) as (w1 & e1 & Hm1 & Hq1 & Hl1 & [Hr1|[Hr1 Hin1]]); rewrite Hr1;
        [|exists w1, e1; auto 10].
      pose proof (scan_page_spec since (st :: page) (feed rest) sts i) as Hp.
      destruct (scan_page since (st :: page) sts i) as [found|[sts' i']].
      * exists w1, e1. rewrite <- Hp. auto 10.
      * destruct (IH sts' i' w1) as (w2 & e2 & Hm2 & Hq2 & Hl2 & Hr2).
        exists w2, (e1 ++ e2).
        split; [eapply moved_trans; eassumption|].
        split; [apply quiet_app; assumption|].
        split; [congruence|].
        destruct Hr2 as [Hr2|[Hr2 Hin2]].
        -- left. rewrite Hr2, Hp. reflexivity.
        -- right. split; [exact Hr2|].
           eapply tail_of_in; [exact (mv_api Hm1)|exact Hin2].
Qed.

Lemma get_statuses_since_spec (since : Z) (w : World) :
  exists w' evs,
    moved w w' evs /\ quiet evs /\ last_statusid w' = last_statusid w /\
    (get_statuses_since (Some since) w = Ret (collected since) w'
     \/ (get_statuses_since (Some since) w = Raise TweepError w'
         /\ In ApiError (api_script w))).
Proof.
  unfold TweetDrasta.get_statuses_since, TweetDrasta.collected.
  destruct (scan_pages_spec since timeline [] 0 w) as (w' & evs & Hm & Hq & Hl & Hr).
  exists w', evs. rewrite Z.sub_0_r in Hr. simpl in Hr. auto.
Qed.

Lemma newer_run_newer (since : Z) (posts : list Status) :
  Forall (fun sid => since < sid) (TweetDrasta.newer_run since posts).
Proof.
  induction posts as [|st posts IH]; simpl; [constructor|].
  destruct (id st <=? since) eqn:E; [constructor|].
  apply Z.leb_gt in E. constructor; assumption.
Qed.

Lemma in_firstn {A} (n : nat) (x : A) (l : list A) : In x (firstn n l) -> In x l.
Proof.
  intros H. rewrite <- (firstn_skipn n l). apply in_or_app. left. exact H.
Qed.

Lemma collected_newer (since : Z) : Forall (fun sid => since < sid) (collected since).
Proof.
  unfold TweetDrasta.collected. apply Forall_forall. intros x Hx.
  apply in_firstn in Hx. revert x Hx. apply Forall_forall, newer_run_newer.
Qed.

Lemma collected_length (since : Z) :
  (List.length (collected since) <= Z.to_nat max_rollback)%nat.
Proof. unfold TweetDrasta.collected. apply firstn_le_length. Qed.


(** *** The forwarding loops *)

Lemma last_cons {A} (a d : A) (l : list A) : List.last (a :: l) d = List.last l a.
Proof.
  revert a d. induction l as [|b l IH]; intros a d; [reflexivity|].
  change (List.last (b :: l) d = List.last (b :: l) a).
  rewrite (IH b d), (IH b a). reflexivity.
Qed.

(** The events of one pass of a forwarding loop: noise, the verdict on
    the message, the pause, and what the rest of the loop adds. *)
Lemma pass_events (pre more : list Event) (v : Event) (msg : string) :
  quiet pre -> v = Sent msg \/ v = Rejected msg ->
  handed ((pre ++ [v]) ++ Slept 3 :: more) = msg :: handed more /\
  dbs ((pre ++ [v]) ++ Slept 3 :: more) = dbs more /\
  (paced more -> paced ((pre ++ [v]) ++ Slept 3 :: more)).
Proof.
  intros Hq Hv. rewrite <- app_assoc. simpl.
  rewrite handed_app, dbs_app, (quiet_handed Hq), (quiet_dbs Hq). simpl.
  split; [|split].
  - destruct Hv as [-> | ->]; reflexivity.
  - destruct Hv as [-> | ->]; reflexivity.
  - intros Hp. apply paced_app; [apply quiet_paced; exact Hq|].
    destruct Hv as [-> | ->]; exact Hp.
Qed.

Lemma forward_recent_cons (st : Status) (rest : list Status) (count : Z) :
  forward_recent (st :: rest) count
  = (full <- check_status (Some st) ;;
     TelegramBot.send_msg (status_str full) ;;
     modify (set_last_statusid (Some (id st))) ;;
     sleep 3 ;;
     forward_recent rest (count + 1)).
Proof. reflexivity. Qed.

(** The loop over the recent posts: it hands one rendering per post to
    the bot, in the order of the list, pausing after each, and leaves the
    cursor on the last post it handled; only a [TelegramError] stops it. *)
Lemma forward_recent_spec (todo : list Status) :
  forall count w,
  exists w' evs,
    moved w w' evs /\ dbs evs = [] /\ paced evs /\
    (last_statusid w' = last_statusid w
     \/ exists st, In st todo /\ last_statusid w' = Some (id st)) /\
    ((forward_recent todo count w = Ret (count + Z.of_nat (List.length todo)) w' /\
      Forall2 rendering todo (handed evs) /\
      last_statusid w'
      = List.last (map (fun st => Some (id st)) todo) (last_statusid w) /\
      (api_clean w -> handed evs = map (fun st => status_str (checked st)) todo))
     \/ (forward_recent todo count w = Raise TelegramError w' /\
         In BotError (bot_script w))).
Proof.
  induction todo as [|st rest IH]; intros count w.
  - exists w, []. split; [apply moved_refl|]. split; [reflexivity|].
    split; [exact I|]. split; [left; reflexivity|]. left.
    simpl. rewrite Z.add_0_r. split; [reflexivity|]. split; [constructor|].
    split; reflexivity.
  - rewrite forward_recent_cons. unfold bind.
    destruct (check_status_spec st w)
      as (w1 & e1 & r & Hr1 & Hm1 & Hq1 & Hl1 & Hrend & Hexact).
    rewrite Hr1. cbv beta iota.
    destruct (send_msg_spec (status_str r) w1)
      as (w2 & e2 & Hm2 & Hl2 & [(Hr2 & pre & v & He2 & Hq2 & Hv)|(Hr2 & Hq2 & Hin2)]);
      rewrite Hr2; cbv beta iota.
    + unfold sleep, modify. cbv beta iota.
      set (w4 := emit (Slept 3) (set_last_statusid (Some (id st)) w2)).
      destruct (IH (count + 1) w4) as (w' & e3 & Hm3 & Hd3 & Hp3 & Hc3 & Hres3).
      assert (Hm24 : moved w2 w4 ([] ++ [Slept 3]))
        by (eapply moved_trans; [apply moved_cursor|apply moved_emit]).
      assert (Hm : moved w w' (e1 ++ e2 ++ ([] ++ [Slept 3]) ++ e3))
        by (eapply moved_trans; [exact Hm1|];
            eapply moved_trans; [exact Hm2|];
            eapply moved_trans; [exact Hm24|exact Hm3]).
      destruct (pass_events e3 Hq2 Hv) as (Hh & Hd & Hp).
      exists w', (e1 ++ e2 ++ Slept 3 :: e3).
      split; [exact Hm|]. subst e2.
      split; [rewrite dbs_app, (quiet_dbs Hq1), Hd; exact Hd3|].
      split; [apply paced_app; [apply quiet_paced; exact Hq1|apply Hp; exact Hp3]|].
      split.
      { right. destruct Hc3 as [Hc3|(st' & Hin & Hc3)].
        - exists st. split; [left; reflexivity|]. rewrite Hc3. reflexivity.
        - exists st'. split; [right; exact Hin|exact Hc3]. }
      destruct Hres3 as [(Hr3 & Hf3 & Hl3 & Hex3)|(Hr3 & Hin3)].
      * left. split.
        { rewrite Hr3. f_equal. simpl List.length. lia. }
        split.
        { rewrite handed_app, (quiet_handed Hq1), Hh. simpl.
          constructor; [exact Hrend|exact Hf3]. }
        split.
        { rewrite Hl3. simpl map. rewrite last_cons. reflexivity. }
        intros Hclean.
        rewrite handed_app, (quiet_handed Hq1), Hh. simpl.
        rewrite (Hexact Hclean), Hex3; [reflexivity|].
        exact (moved_clean (moved_trans Hm1 (moved_trans Hm2 Hm24)) Hclean).
      * right. split; [exact Hr3|].
        exact (tail_of_in _ (mv_bot (moved_trans Hm1 (moved_trans Hm2 Hm24))) Hin3).
    + exists w2, (e1 ++ e2).
      split; [eapply moved_trans; eassumption|].
      split; [rewrite dbs_app, (quiet_dbs Hq1), (quiet_dbs Hq2); reflexivity|].
      split; [apply quiet_paced, quiet_app; assumption|].
      split; [left; congruence|].
      right. split; [reflexivity|].
      exact (tail_of_in _ (mv_bot Hm1) Hin2).
Qed.


Lemma forward_rollback_cons (sid : Z) (rest : list Z) (count : Z) :
  forward_rollback (sid :: rest) count
  = (fetched <- get_status_by_id sid ;;
     match fetched with
     | Some status =>
         TelegramBot.send_msg (status_str (Some status)) ;;
         modify (set_last_statusid (Some (id status))) ;;
         sleep 3 ;;
         forward_rollback rest (count + 1)
     | None => forward_rollback rest count
     end).
Proof. reflexivity. Qed.

(** The loop over the ids found by rolling back: it hands at most one
    message per id to the bot, pausing after each, and moves the cursor
    only to ids of the list; when every fetch by id succeeds it hands over
    the rendering of every post, in the order of the list. *)
Lemma forward_rollback_spec (todo : list Z) :
  forall count w,
  exists w' evs,
    moved w w' evs /\ dbs evs = [] /\ paced evs /\
    (last_statusid w' = last_statusid w
     \/ exists sid, In sid todo /\ last_statusid w' = Some sid) /\
    (List.length (handed evs) <= List.length todo)%nat /\
    (((exists count', forward_rollback todo count w = Ret count' w') /\
      (api_clean w -> Forall (fun sid => get_status sid <> None) todo ->
       handed evs = map (fun sid => status_str (get_status sid)) todo /\
       last_statusid w' = List.last (map Some todo) (last_statusid w)))
     \/ (forward_rollback todo count w = Raise TelegramError w' /\
         In BotError (bot_script w))).
Proof.
  induction todo as [|sid rest IH]; intros count w.
  - exists w, []. split; [apply moved_refl|]. split; [reflexivity|].
    split; [exact I|]. split; [left; reflexivity|]. split; [apply le_n|]. left.
    split; [exists count; reflexivity|]. intros _ _. split; reflexivity.
  - rewrite forward_rollback_cons. unfold bind.
    destruct (get_status_by_id_spec sid w) as (w1 & e1 & r & Hr1 & Hm1 & Hq1 & Hl1 & Hres).
    rewrite Hr1. cbv beta iota.
    destruct r as [status|].
    + assert (Hget : get_status sid = Some status)
        by (destruct Hres as [Hres|[Hres _]]; [symmetry; exact Hres|discriminate]).
      pose proof (get_status_id _ Hget) as Hid.
      destruct (send_msg_spec (status_str (Some status)) w1)
        as (w2 & e2 & Hm2 & Hl2 & [(Hr2 & pre & v & He2 & Hq2 & Hv)|(Hr2 & Hq2 & Hin2)]);
        rewrite Hr2; cbv beta iota.
      * unfold sleep, modify. cbv beta iota.
        set (w4 := emit (Slept 3) (set_last_statusid (Some (id status)) w2)).
        destruct (IH (count + 1) w4) as (w' & e3 & Hm3 & Hd3 & Hp3 & Hc3 & Hn3 & Hres3).
        assert (Hm24 : moved w2 w4 ([] ++ [Slept 3]))
          by (eapply moved_trans; [apply moved_cursor|apply moved_emit]).
        assert (Hm04 : moved w w4 (e1 ++ e2 ++ [] ++ [Slept 3]))
          by (eapply moved_trans; [exact Hm1|];
              eapply moved_trans; [exact Hm2|exact Hm24]).
        assert (Hm : moved w w' (e1 ++ e2 ++ Slept 3 :: e3))
          by (eapply moved_trans; [exact Hm1|];
              eapply moved_trans; [exact Hm2|];
              exact (moved_trans Hm24 Hm3)).
        destruct (pass_events e3 Hq2 Hv) as (Hh & Hd & Hp).
        exists w', (e1 ++ e2 ++ Slept 3 :: e3).
        split; [exact Hm|]. subst e2.
        assert (Hhanded : handed (e1 ++ (pre ++ [v]) ++ Slept 3 :: e3)
                          = status_str (Some status) :: handed e3)
          by (rewrite handed_app, (quiet_handed Hq1), Hh; reflexivity).
        split; [rewrite dbs_app, (quiet_dbs Hq1), Hd; exact Hd3|].
        split; [apply paced_app; [apply quiet_paced; exact Hq1|apply Hp; exact Hp3]|].
        split.
        { right. destruct Hc3 as [Hc3|(sid' & Hin & Hc3)].
          - exists sid. split; [left; reflexivity|]. rewrite Hc3. simpl. rewrite Hid. reflexivity.
          - exists sid'. split; [right; exact Hin|exact Hc3]. }
        split; [rewrite Hhanded; simpl; lia|].
        destruct Hres3 as [((count' & Hr3) & Hnom)|(Hr3 & Hin3)].
        -- left. split; [exists count'; exact Hr3|].
           intros Hclean Hserved. inversion Hserved as [|? ? _ Hserved']; subst.
           destruct (Hnom (moved_clean Hm04 Hclean) Hserved') as [Hh3 Hl3].
           split.
           ++ rewrite Hhanded, Hh3. simpl. rewrite Hget. reflexivity.
           ++ rewrite Hl3. simpl map. rewrite last_cons. reflexivity.
        -- right. split; [exact Hr3|].
           exact (tail_of_in _ (mv_bot Hm04) Hin3).
      * exists w2, (e1 ++ e2).
        split; [eapply moved_trans; eassumption|].
        split; [rewrite dbs_app, (quiet_dbs Hq1), (quiet_dbs Hq2); reflexivity|].
        split; [apply quiet_paced, quiet_app; assumption|].
        split; [left; congruence|].
        split; [rewrite handed_app, (quiet_handed Hq1), (quiet_handed Hq2); simpl; lia|].
        right. split; [reflexivity|].
        exact (tail_of_in _ (mv_bot Hm1) Hin2).
    + destruct (IH count w1) as (w' & e3 & Hm3 & Hd3 & Hp3 & Hc3 & Hn3 & Hres3).
      exists w', (e1 ++ e3).
      split; [eapply moved_trans; eassumption|].
      split; [rewrite dbs_app, (quiet_dbs Hq1); exact Hd3|].
      split; [apply paced_app; [apply quiet_paced; exact Hq1|exact Hp3]|].
      split.
      { destruct Hc3 as [Hc3|(sid' & Hin & Hc3)].
        - left. congruence.
        - right. exists sid'. split; [right; exact Hin|exact Hc3]. }
      split; [rewrite handed_app, (quiet_handed Hq1); simpl; lia|].
      destruct Hres3 as [((count' & Hr3) & Hnom)|(Hr3 & Hin3)].
      * left. split; [exists count'; exact Hr3|].
        intros Hclean Hserved. exfalso. inversion Hserved as [|? ? Hs _]; subst.
        destruct Hres as [Hres|[_ Hin]]; [apply Hs; symmetry; exact Hres|].
        apply Hclean. exact Hin.
      * right. split; [exact Hr3|].
        exact (tail_of_in _ (mv_bot Hm1) Hin3).
Qed.


(** *** The fetch of the recent posts and the search, by result *)

Lemma items_ret (limit : nat) (page : list Status) (c : PageCursor) (w w1 : World)
      (l : list Status) :
  items limit page c w = Ret l w1 ->
  l = firstn limit (page ++ feed c) /\
  exists evs, moved w w1 evs /\ quiet evs /\ last_statusid w1 = last_statusid w.
Proof.
  intros H.
  destruct (items_spec limit page c w) as (w' & evs & Hm & Hq & Hl & [Hr|[Hr _]]);
    rewrite H in Hr; [|discriminate].
  injection Hr as -> ->. split; [reflexivity|]. exists evs. auto.
Qed.

Lemma items_raise (limit : nat) (page : list Status) (c : PageCursor) (w w1 : World)
      (e : Exn) :
  items limit page c w = Raise e w1 ->
  e = TweepError /\ In ApiError (api_script w) /\
  exists evs, moved w w1 evs /\ quiet evs /\ last_statusid w1 = last_statusid w.
Proof.
  intros H.
  destruct (items_spec limit page c w) as (w' & evs & Hm & Hq & Hl & [Hr|[Hr Hin]]);
    rewrite H in Hr; [discriminate|].
  injection Hr as -> ->. split; [reflexivity|]. split; [exact Hin|]. exists evs. auto.
Qed.

Lemma get_statuses_since_ret (since : Z) (w w1 : World) (sts : list Z) :
  get_statuses_since (Some since) w = Ret sts w1 ->
  sts = collected since /\
  exists evs, moved w w1 evs /\ quiet evs /\ last_statusid w1 = last_statusid w.
Proof.
  intros H.
  destruct (get_statuses_since_spec since w) as (w' & evs & Hm & Hq & Hl & [Hr|[Hr _]]);
    rewrite H in Hr; [|discriminate].
  injection Hr as -> ->. split; [reflexivity|]. exists evs. auto.
Qed.

Lemma get_statuses_since_raise (since : Z) (w w1 : World) (e : Exn) :
  get_statuses_since (Some since) w = Raise e w1 ->
  e = TweepError /\ In ApiError (api_script w) /\
  exists evs, moved w w1 evs /\ quiet evs /\ last_statusid w1 = last_statusid w.
Proof.
  intros H.
  destruct (get_statuses_since_spec since w) as (w' & evs & Hm & Hq & Hl & [Hr|[Hr Hin]]);
    rewrite H in Hr; [discriminate|].
  injection Hr as -> ->. split; [reflexivity|]. split; [exact Hin|]. exists evs. auto.
Qed.

(** ** Cold start *)

(** *** No message is rejected unless the bot rejects it *)

Lemma rtlimt_unrejecting : unrejecting rtlimt.
Proof.
  intros w H.
  destruct (rtlimt_spec w) as (w' & evs & Hm & Hq & _ & [Hr|(Hr & _)]); rewrite Hr;
    exact (moved_unrejected Hm Hq H).
Qed.

Lemma get_status_by_id_unrejecting (sid : Z) : unrejecting (get_status_by_id sid).
Proof.
  intros w H.
  destruct (get_status_by_id_spec sid w) as (w' & evs & r & Hr & Hm & Hq & _).
  rewrite Hr. exact (moved_unrejected Hm Hq H).
Qed.

Lemma check_status_unrejecting (status : option Status) :
  unrejecting (check_status status).
Proof.
  destruct status as [st|]; [|exact (unrejecting_ret None)].
  intros w H.
  destruct (check_status_spec st w) as (w' & evs & r & Hr & Hm & Hq & _).
  rewrite Hr. exact (moved_unrejected Hm Hq H).
Qed.

Lemma items_unrejecting (limit : nat) (page : list Status) (c : PageCursor) :
  unrejecting (items limit page c).
Proof.
  intros w H.
  destruct (items_spec limit page c w) as (w' & evs & Hm & Hq & _ & [Hr|(Hr & _)]);
    rewrite Hr; exact (moved_unrejected Hm Hq H).
Qed.

Lemma get_statuses_since_unrejecting (since_id : option Z) :
  unrejecting (get_statuses_since since_id).
Proof.
  destruct since_id as [since|]; [|exact (unrejecting_ret [])].
  intros w H.
  destruct (get_statuses_since_spec since w) as (w' & evs & Hm & Hq & _ & [Hr|(Hr & _)]);
    rewrite Hr; exact (moved_unrejected Hm Hq H).
Qed.

Lemma forward_recent_unrejecting (todo : list Status) :
  forall count, unrejecting (forward_recent todo count).
Proof.
  induction todo as [|st todo IH]; intros count; [exact (unrejecting_ret count)|].
  rewrite forward_recent_cons.
  apply unrejecting_bind; [apply check_status_unrejecting|intros full].
  apply unrejecting_bind; [apply send_msg_unrejecting|intros _].
  apply unrejecting_bind; [apply unrejecting_cursor|intros _].
  apply unrejecting_bind; [apply unrejecting_sleep|intros _].
  apply IH.
Qed.

Lemma forward_rollback_unrejecting (todo : list Z) :
  forall count, unrejecting (forward_rollback todo count).
Proof.
  induction todo as [|sid todo IH]; intros count; [exact (unrejecting_ret count)|].
  rewrite forward_rollback_cons.
  apply unrejecting_bind; [apply get_status_by_id_unrejecting|intros [status|]];
    [|apply IH].
  apply unrejecting_bind; [apply send_msg_unrejecting|intros _].
  apply unrejecting_bind; [apply unrejecting_cursor|intros _].
  apply unrejecting_bind; [apply unrejecting_sleep|intros _].
  apply IH.
Qed.

(** In a cycle of [update_status] the only messages rejected are those
    the bot answers with [BadRequest]. *)
Lemma update_status_unrejecting : unrejecting update_status.
Proof.
  unfold TweetDrasta.update_status.
  apply unrejecting_try_except; [|apply unrejecting_log].
  apply unrejecting_bind; [apply items_unrejecting|intros recent]. cbv zeta.
  apply unrejecting_bind; [apply unrejecting_reads|intros last].
  apply unrejecting_bind.
  - destruct last as [l|].
    + destruct (Py.index l (map id recent)) as [k|].
      * apply forward_recent_unrejecting.
      * apply unrejecting_bind; [apply get_statuses_since_unrejecting|intros sts].
        apply forward_rollback_unrejecting.
    + destruct recent as [|status others]; [apply unrejecting_raise|].
      apply unrejecting_bind; [apply check_status_unrejecting|intros full].
      apply unrejecting_bind; [apply send_msg_unrejecting|intros _].
      apply unrejecting_bind; [apply unrejecting_cursor|intros _].
      apply unrejecting_ret.
  - intros count. destruct (0 <? count); [apply unrejecting_log|apply unrejecting_ret].
Qed.

(** C5.  On a cold start (no cursor) with a non-empty feed whose recent
    posts were fetched, [update_status] hands exactly one message to the
    bot, a rendering of the newest post, and leaves the cursor on that
    post's id; when the bot raises no [BadRequest] that message is
    delivered, and it is the only one.  (The bot is assumed not to raise an
    error other than [RetryAfter] and [BadRequest].) *)
Theorem cold_start_forwards_newest (w w1 : World) (recent : list Status)
        (newest : Status) (older : list Status) :
  last_statusid w = None ->
  feed timeline = newest :: older ->
  items 20 [] timeline w = Ret recent w1 ->
  bot_polite w ->
  exists w' msg,
    update_status w = Ret tt w' /\
    handed (trace w') = handed (trace w) ++ [msg] /\
    (bot_takes_all w -> delivered (trace w') = delivered (trace w) ++ [msg]) /\
    rendering newest msg /\
    (api_clean w -> msg = status_str (checked newest)) /\
    last_statusid w' = Some (id newest).
Proof.
  intros Hcold Hfeed Hitems Hpolite.
  destruct (items_ret _ _ _ _ Hitems) as (Hrecent & e0 & Hm0 & Hq0 & Hl0).
  rewrite Hfeed in Hrecent. simpl in Hrecent.
  destruct (check_status_spec newest w1)
    as (w2 & e1 & r & Hr1 & Hm1 & Hq1 & Hl1 & Hrend & Hexact).
  destruct (send_msg_spec (status_str r) w2)
    as (w3 & e2 & Hm2 & Hl2 & [(Hr2 & pre & v & He2 & Hq2 & Hv)|(_ & _ & Hin2)]).
  2:{ exfalso. apply Hpolite.
      exact (tail_of_in _ (mv_bot (moved_trans Hm0 Hm1)) Hin2). }
  set (w' := emit (Logged (Updated 1)) (set_last_statusid (Some (id newest)) w3)).
  exists w', (status_str r).
  assert (Hupd : update_status w = Ret tt w').
  { unfold TweetDrasta.update_status, try_except, bind. rewrite Hitems.
    cbv beta iota. unfold reads. cbv beta iota. rewrite Hl0, Hcold, Hrecent.
    cbv beta iota. rewrite Hr1. cbv beta iota. rewrite Hr2. reflexivity. }
  assert (Hm : moved w w' (e0 ++ e1 ++ e2 ++ [] ++ [Logged (Updated 1)])).
  { eapply moved_trans; [exact Hm0|]. eapply moved_trans; [exact Hm1|].
    eapply moved_trans; [exact Hm2|].
    eapply moved_trans; [apply moved_cursor|apply moved_emit]. }
  assert (Hh : handed (e0 ++ e1 ++ e2 ++ [] ++ [Logged (Updated 1)]) = [status_str r]).
  { subst e2.
    rewrite !handed_app, (quiet_handed Hq0), (quiet_handed Hq1), (quiet_handed Hq2).
    destruct Hv as [-> | ->]; reflexivity. }
  split; [exact Hupd|].
  split; [rewrite (moved_handed Hm), Hh; reflexivity|].
  split.
  { intros Htakes. rewrite (mv_trace Hm), delivered_app. f_equal.
    rewrite <- Hh. apply (@taken_all _ update_status w _ update_status_unrejecting Htakes).
    rewrite Hupd. exact (mv_trace Hm). }
  split; [exact Hrend|]. split; [|reflexivity].
  intros Hclean. rewrite (Hexact (moved_clean Hm0 Hclean)). reflexivity.
Qed.


(** ** Fast path *)


Lemma last_rev_cons {A B} (f : A -> B) (x : A) (xs : list A) (d : B) :
  List.last (map f (rev (x :: xs))) d = f x.
Proof. simpl. rewrite map_app. simpl. apply last_last. Qed.

(** What [update_status] does once the recent posts are fetched and the
    cursor is found among them at index [k]. *)
Lemma fast_path_run (w w1 : World) (recent : list Status) (l : Z) (k : nat) :
  last_statusid w = Some l ->
  items 20 [] timeline w = Ret recent w1 ->
  Py.index l (map id recent) = Some k ->
  exists w2 wu loop_evs tail,
    moved w1 w2 loop_evs /\ dbs loop_evs = [] /\ paced loop_evs /\
    moved w2 wu tail /\ quiet tail /\ last_statusid wu = last_statusid w2 /\
    (last_statusid w2 = Some l
     \/ exists st, In st (rev (firstn k recent)) /\ last_statusid w2 = Some (id st)) /\
    ((forward_recent (rev (firstn k recent)) 0 w1
        = Ret (0 + Z.of_nat (List.length (rev (firstn k recent)))) w2 /\
      update_status w = Ret tt wu /\
      Forall2 rendering (rev (firstn k recent)) (handed loop_evs) /\
      last_statusid w2
      = List.last (map (fun st => Some (id st)) (rev (firstn k recent))) (Some l) /\
      (api_clean w ->
       handed loop_evs = map (fun st => status_str (checked st)) (rev (firstn k recent))))
     \/ (update_status w = Raise TelegramError wu /\ In BotError (bot_script w1))).
Proof.
  intros Hcur Hitems Hidx.
  destruct (items_ret _ _ _ _ Hitems) as (_ & e0 & Hm0 & Hq0 & Hl0).
  assert (Hcur1 : last_statusid w1 = Some l) by congruence.
  assert (Hupd : update_status w
                 = match forward_recent (rev (firstn k recent)) 0 w1 with
                   | Ret count w2 =>
                       if 0 <? count then Ret tt (emit (Logged (Updated count)) w2)
                       else Ret tt w2
                   | Raise e w2 => if is_tweep e then log UpdateFailed w2 else Raise e w2
                   end).
  { unfold TweetDrasta.update_status, try_except, bind. rewrite Hitems.
    cbv beta iota. unfold reads. cbv beta iota. rewrite Hcur1, Hidx.
    destruct (forward_recent (rev (firstn k recent)) 0 w1) as [count w2|e w2];
      [|reflexivity].
    destruct (0 <? count); reflexivity. }
  destruct (forward_recent_spec (rev (firstn k recent)) 0 w1)
    as (w2 & e1 & Hm1 & Hd1 & Hp1 & Hc1 & Hres).
  rewrite Hcur1 in Hc1.
  destruct Hres as [(Hr & Hf & Hl & Hex)|(Hr & Hin)]; rewrite Hr in Hupd.
  - rewrite Hcur1 in Hl.
    assert (Hex' : api_clean w ->
                   handed e1 = map (fun st => status_str (checked st))
                                   (rev (firstn k recent)))
      by (intros Hclean; exact (Hex (moved_clean Hm0 Hclean))).
    destruct (0 <? 0 + Z.of_nat (List.length (rev (firstn k recent)))).
    + exists w2, (emit (Logged (Updated (0 + Z.of_nat (List.length (rev (firstn k recent)))))) w2),
        e1, [Logged (Updated (0 + Z.of_nat (List.length (rev (firstn k recent)))))].
      split; [exact Hm1|]. split; [exact Hd1|]. split; [exact Hp1|].
      split; [apply moved_emit|]. split; [repeat constructor|].
      split; [reflexivity|]. split; [exact Hc1|]. left. auto 10.
    + exists w2, w2, e1, [].
      split; [exact Hm1|]. split; [exact Hd1|]. split; [exact Hp1|].
      split; [apply moved_refl|]. split; [constructor|].
      split; [reflexivity|]. split; [exact Hc1|]. left. auto 10.
  - exists w2, w2, e1, [].
    split; [exact Hm1|]. split; [exact Hd1|]. split; [exact Hp1|].
    split; [apply moved_refl|]. split; [constructor|].
    split; [reflexivity|]. split; [exact Hc1|]. right. auto.
Qed.



(** ** Rollback path *)

(** What [update_status] does once the recent posts are fetched and the
    cursor is not among them, whatever the collaborators do. *)
Lemma rollback_run (w w1 : World) (recent : list Status) (l : Z) :
  last_statusid w = Some l ->
  items 20 [] timeline w = Ret recent w1 ->
  Py.index l (map id recent) = None ->
  exists evs,
    moved w (world_of (update_status w)) evs /\ dbs evs = [] /\ paced evs /\
    (List.length (handed evs) <= List.length (collected l))%nat /\
    (last_statusid (world_of (update_status w)) = Some l
     \/ exists sid, In sid (collected l)
                    /\ last_statusid (world_of (update_status w)) = Some sid) /\
    (api_clean w -> bot_polite w -> exists wu, update_status w = Ret tt wu) /\
    (api_clean w -> Forall (fun sid => get_status sid <> None) (collected l) ->
     (exists wu, update_status w = Ret tt wu) ->
     handed evs = map (fun sid => status_str (get_status sid)) (rev (collected l)) /\
     last_statusid (world_of (update_status w))
     = List.last (map Some (rev (collected l))) (Some l)).
Proof.
  intros Hcur Hitems Hidx.
  destruct (items_ret _ _ _ _ Hitems) as (_ & e0 & Hm0 & Hq0 & Hl0).
  assert (Hcur1 : last_statusid w1 = Some l) by congruence.
  assert (Hupd : update_status w
                 = match get_statuses_since (Some l) w1 with
                   | Ret sts w2 =>
                       match forward_rollback (rev sts) 0 w2 with
                       | Ret count w3 =>
                           if 0 <? count then Ret tt (emit (Logged (Updated count)) w3)
                           else Ret tt w3
                       | Raise e w3 =>
                           if is_tweep e then log UpdateFailed w3 else Raise e w3
                       end
                   | Raise e w2 => if is_tweep e then log UpdateFailed w2 else Raise e w2
                   end).
  { unfold TweetDrasta.update_status, try_except, bind. rewrite Hitems.
    cbv beta iota. unfold reads. cbv beta iota. rewrite Hcur1, Hidx.
    unfold bind.
    destruct (get_statuses_since (Some l) w1) as [sts w2|e w2]; [|reflexivity].
    destruct (forward_rollback (rev sts) 0 w2) as [count w3|e w3]; [|reflexivity].
    destruct (0 <? count); reflexivity. }
  rewrite Hupd. clear Hupd.
  destruct (get_statuses_since_spec l w1) as (w2 & e1 & Hm1 & Hq1 & Hl1 & [Hr1|[Hr1 Hin1]]);
    rewrite Hr1.
  - destruct (forward_rollback_spec (rev (collected l)) 0 w2)
      as (w3 & e2 & Hm2 & Hd2 & Hp2 & Hc2 & Hn2 & Hres).
    assert (Hm02 : moved w w2 (e0 ++ e1)) by exact (moved_trans Hm0 Hm1).
    assert (Hcur3 : last_statusid w3 = Some l
                    \/ exists sid, In sid (collected l) /\ last_statusid w3 = Some sid).
    { destruct Hc2 as [Hc2|(sid & Hin & Hc2)].
      - left. congruence.
      - right. exists sid. split; [apply in_rev; exact Hin|exact Hc2]. }
    rewrite length_rev in Hn2.
    destruct Hres as [((count & Hr2) & Hnom)|(Hr2 & Hin2)]; rewrite Hr2.
    + assert (Hnom' : api_clean w ->
                      Forall (fun sid => get_status sid <> None) (collected l) ->
                      handed e2 = map (fun sid => status_str (get_status sid))
                                      (rev (collected l)) /\
                      last_statusid w3 = List.last (map Some (rev (collected l))) (Some l)).
      { intros Hclean Hserved.
        destruct (Hnom (moved_clean Hm02 Hclean) (Forall_rev Hserved)) as [Hh Hl].
        split; [exact Hh|]. rewrite Hl. congruence. }
      destruct (0 <? count).
      * exists (e0 ++ e1 ++ e2 ++ [Logged (Updated count)]). simpl world_of.
        split; [exact (moved_trans Hm0 (moved_trans Hm1 (moved_trans Hm2 (moved_emit _ _))))|].
        split; [rewrite !dbs_app, (quiet_dbs Hq0), (quiet_dbs Hq1), Hd2; reflexivity|].
        split; [apply paced_app; [apply quiet_paced; exact Hq0|];
                apply paced_app; [apply quiet_paced; exact Hq1|];
                apply paced_app; [exact Hp2|exact I]|].
        split; [rewrite !handed_app, (quiet_handed Hq0), (quiet_handed Hq1); simpl;
                rewrite app_nil_r; exact Hn2|].
        split; [exact Hcur3|].
        split; [intros _ _; eexists; reflexivity|].
        intros Hclean Hserved _.
        destruct (Hnom' Hclean Hserved) as [Hh Hl].
        split; [|exact Hl].
        rewrite !handed_app, (quiet_handed Hq0), (quiet_handed Hq1). simpl.
        rewrite app_nil_r. exact Hh.
      * exists (e0 ++ e1 ++ e2). simpl world_of.
        split; [exact (moved_trans Hm0 (moved_trans Hm1 Hm2))|].
        split; [rewrite !dbs_app, (quiet_dbs Hq0), (quiet_dbs Hq1), Hd2; reflexivity|].
        split; [apply paced_app; [apply quiet_paced; exact Hq0|];
                apply paced_app; [apply quiet_paced; exact Hq1|exact Hp2]|].
        split; [rewrite !handed_app, (quiet_handed Hq0), (quiet_handed Hq1); exact Hn2|].
        split; [exact Hcur3|].
        split; [intros _ _; eexists; reflexivity|].
        intros Hclean Hserved _.
        destruct (Hnom' Hclean Hserved) as [Hh Hl].
        split; [|exact Hl].
        rewrite !handed_app, (quiet_handed Hq0), (quiet_handed Hq1). exact Hh.
    + exists (e0 ++ e1 ++ e2). simpl world_of.
      split; [exact (moved_trans Hm0 (moved_trans Hm1 Hm2))|].
      split; [rewrite !dbs_app, (quiet_dbs Hq0), (quiet_dbs Hq1), Hd2; reflexivity|].
      split; [apply paced_app; [apply quiet_paced; exact Hq0|];
              apply paced_app; [apply quiet_paced; exact Hq1|exact Hp2]|].
      split; [rewrite !handed_app, (quiet_handed Hq0), (quiet_handed Hq1); exact Hn2|].
      split; [exact Hcur3|].
      split.
      * intros _ Hpolite. exfalso. apply Hpolite.
        exact (tail_of_in _ (mv_bot Hm02) Hin2).
      * intros _ _ [wu Hwu]. discriminate.
  - exists (e0 ++ e1 ++ [Logged UpdateFailed]). simpl world_of.
    split; [exact (moved_trans Hm0 (moved_trans Hm1 (moved_emit _ _)))|].
    split; [rewrite !dbs_app, (quiet_dbs Hq0), (quiet_dbs Hq1); reflexivity|].
    split; [apply quiet_paced, quiet_app; [exact Hq0|];
            apply quiet_app; [exact Hq1|repeat constructor]|].
    split; [rewrite !handed_app, (quiet_handed Hq0), (quiet_handed Hq1); simpl; lia|].
    split; [left; simpl; congruence|].
    split; intros Hclean; exfalso; apply (moved_clean Hm0 Hclean); exact Hin1.
Qed.


(** C2.  In a cycle that does not find the cursor [l] among the freshly
    fetched recent posts, the search pages through the feed and returns
    [collected l]: the ids of the leading posts of the feed strictly newer
    than [l], cut at [max_rollback] ids.  Whatever the collaborators do,
    at most [max_rollback] messages are handed to the bot, each followed by
    the pause, and the messages delivered are among them: all of them when
    the bot raises no [BadRequest].  When no fetch fails, the posts
    collected are fetched by id one by one and their renderings are handed
    over oldest first, and the cursor ends on the newest of them. *)
Theorem rollback_forwards_collected (w w1 : World) (recent : list Status) (l : Z) :
  last_statusid w = Some l ->
  items 20 [] timeline w = Ret recent w1 ->
  Py.index l (map id recent) = None ->
  (forall sts w2, get_statuses_since (Some l) w1 = Ret sts w2 -> sts = collected l) /\
  Forall (fun sid => l < sid) (collected l) /\
  (List.length (collected l) <= Z.to_nat max_rollback)%nat /\
  exists evs,
    trace (world_of (update_status w)) = trace w ++ evs /\
    paced evs /\
    (List.length (handed evs) <= Z.to_nat max_rollback)%nat /\
    (List.length (delivered evs) <= Z.to_nat max_rollback)%nat /\
    (bot_takes_all w -> delivered evs = handed evs) /\
    (api_clean w -> bot_polite w ->
     Forall (fun sid => get_status sid <> None) (collected l) ->
     (exists wu, update_status w = Ret tt wu) /\
     handed evs = map (fun sid => status_str (get_status sid)) (rev (collected l)) /\
     last_statusid (world_of (update_status w))
     = match collected l with
       | newest :: _ => Some newest
       | [] => Some l
       end).
Proof.
  intros Hcur Hitems Hidx.
  split; [intros sts w2 H; exact (proj1 (get_statuses_since_ret _ _ H))|].
  split; [apply collected_newer|].
  split; [apply collected_length|].
  destruct (rollback_run _ Hcur Hitems Hidx) as (evs & Hm & _ & Hp & Hn & _ & Hret & Hnom).
  exists evs.
  split; [exact (mv_trace Hm)|]. split; [exact Hp|].
  split; [pose proof (collected_length l); lia|].
  split; [pose proof (collected_length l); pose proof (delivered_length evs); lia|].
  split; [intros Htakes;
          exact (@taken_all _ update_status w _ update_status_unrejecting Htakes
                            (mv_trace Hm))|].
  intros Hclean Hpolite Hserved.
  destruct (Hnom Hclean Hserved (Hret Hclean Hpolite)) as (Hh & Hl).
  split; [exact (Hret Hclean Hpolite)|]. split; [exact Hh|].
  rewrite Hl. destruct (collected l) as [|newest others]; [reflexivity|].
  exact (last_rev_cons Some newest others (Some l)).
Qed.

(** ** Failures of the feed API *)

(** A [TweepError] raised while the feed is listed ends the cycle at
    once, with the cursor and the messages handed over as they were. *)
Lemma listing_failure_run (w w1 : World) (e : Exn) :
  items 20 [] timeline w = Raise e w1
  \/ (exists recent w0 l,
        last_statusid w = Some l /\
        items 20 [] timeline w = Ret recent w0 /\
        Py.index l (map id recent) = None /\
        get_statuses_since (Some l) w0 = Raise e w1) ->
  update_status w = Ret tt (emit (Logged UpdateFailed) w1) /\
  last_statusid (emit (Logged UpdateFailed) w1) = last_statusid w /\
  handed (trace (emit (Logged UpdateFailed) w1)) = handed (trace w).
Proof.
  intros [Hitems|(recent & w0 & l & Hcur & Hitems & Hidx & Hsince)].
  - destruct (items_raise _ _ _ _ Hitems) as (-> & _ & e0 & Hm0 & Hq0 & Hl0).
    split; [|split].
    + unfold TweetDrasta.update_status, try_except, bind. rewrite Hitems. reflexivity.
    + exact Hl0.
    + simpl. rewrite (mv_trace Hm0), !handed_app, (quiet_handed Hq0). simpl.
      rewrite !app_nil_r. reflexivity.
  - destruct (items_ret _ _ _ _ Hitems) as (_ & e0 & Hm0 & Hq0 & Hl0).
    destruct (get_statuses_since_raise _ _ Hsince) as (-> & _ & e1 & Hm1 & Hq1 & Hl1).
    split; [|split].
    + unfold TweetDrasta.update_status, try_except, bind. rewrite Hitems.
      cbv beta iota. unfold reads. cbv beta iota. rewrite Hl0, Hcur, Hidx.
      unfold bind. rewrite Hsince. reflexivity.
    + simpl. congruence.
    + simpl. rewrite (mv_trace Hm1), (mv_trace Hm0), !handed_app,
        (quiet_handed Hq0), (quiet_handed Hq1). simpl.
      rewrite !app_nil_r. reflexivity.
Qed.

(** C8, amended.  When a [TweepError] other than a rate limit is raised
    while the feed is listed, that is by the fetch of the recent posts or
    by the paging of the rollback's search, the cycle is aborted: the error
    is logged and [update_status] returns, no message has been handed to
    the bot and the cursor is what it was. *)
Theorem listing_failure_aborts_cycle (w w1 : World) (e : Exn) :
  items 20 [] timeline w = Raise e w1
  \/ (exists recent w0 l,
        last_statusid w = Some l /\
        items 20 [] timeline w = Ret recent w0 /\
        Py.index l (map id recent) = None /\
        get_statuses_since (Some l) w0 = Raise e w1) ->
  update_status w = Ret tt (emit (Logged UpdateFailed) w1) /\
  last_statusid (emit (Logged UpdateFailed) w1) = last_statusid w /\
  handed (trace (emit (Logged UpdateFailed) w1)) = handed (trace w).
Proof. apply listing_failure_run. Qed.


(** ** The cursor never moves back *)

Lemma cursor_le_refl (c : option Z) : cursor_le c c.
Proof. destruct c; simpl; [apply Z.le_refl|exact I]. Qed.

Lemma index_in (l : Z) (ids : list Z) (k : nat) : Py.index l ids = Some k -> In l ids.
Proof.
  revert k. induction ids as [|y ys IH]; simpl; intros k H; [discriminate|].
  destruct (y =? l) eqn:E.
  - left. apply Z.eqb_eq. exact E.
  - destruct (Py.index l ys) as [n|]; [|discriminate]. right. exact (IH n eq_refl).
Qed.

(** In a feed ordered newest first, the ids that come before the cursor
    are greater than the cursor. *)
Lemma index_before (l : Z) (ids : list Z) :
  forall k, newest_first ids -> Py.index l ids = Some k ->
            Forall (fun x => l < x) (firstn k ids).
Proof.
  induction ids as [|y ys IH]; simpl; intros k Hs H; [discriminate|].
  destruct Hs as [Hy Hs].
  destruct (y =? l) eqn:E.
  - injection H as <-. constructor.
  - destruct (Py.index l ys) as [n|] eqn:En; [|discriminate].
    injection H as <-. simpl. constructor.
    + rewrite Forall_forall in Hy. apply Hy. exact (index_in _ _ En).
    + apply IH; [exact Hs|reflexivity].
Qed.

Lemma newest_first_firstn (n : nat) (ids : list Z) :
  newest_first ids -> newest_first (firstn n ids).
Proof.
  revert n. induction ids as [|y ys IH]; intros n Hs; [rewrite firstn_nil; exact I|].
  destruct n as [|n]; [exact I|]. destruct Hs as [Hy Hs]. simpl. split.
  - rewrite Forall_forall in *. intros x Hx. apply Hy. exact (in_firstn _ _ _ Hx).
  - apply IH. exact Hs.
Qed.

(** What [update_status] does on a cold start once the recent posts are
    fetched, whatever the collaborators do. *)
Lemma cold_start_run (w w1 : World) (recent : list Status) :
  last_statusid w = None ->
  items 20 [] timeline w = Ret recent w1 ->
  exists evs,
    moved w (world_of (update_status w)) evs /\ dbs evs = [] /\
    (forall wu, update_status w = Ret tt wu ->
                exists newest older,
                  recent = newest :: older /\ last_statusid wu = Some (id newest)).
Proof.
  intros Hcold Hitems.
  destruct (items_ret _ _ _ _ Hitems) as (_ & e0 & Hm0 & Hq0 & Hl0).
  unfold TweetDrasta.update_status, try_except, bind. rewrite Hitems.
  cbv beta iota. unfold reads. cbv beta iota. rewrite Hl0, Hcold.
  destruct recent as [|newest older].
  - exists e0. split; [exact Hm0|]. split; [apply quiet_dbs; exact Hq0|].
    intros wu H. discriminate.
  - unfold bind.
    destruct (check_status_spec newest w1) as (w2 & e1 & r & Hr1 & Hm1 & Hq1 & _).
    rewrite Hr1. cbv beta iota.
    destruct (send_msg_spec (status_str r) w2)
      as (w3 & e2 & Hm2 & Hl2 & [(Hr2 & pre & v & He2 & Hq2 & Hv)|(Hr2 & Hq2 & Hin2)]);
      rewrite Hr2.
    + exists (e0 ++ e1 ++ e2 ++ [] ++ [Logged (Updated 1)]).
      split; [|split].
      * eapply moved_trans; [exact Hm0|]. eapply moved_trans; [exact Hm1|].
        eapply moved_trans; [exact Hm2|].
        eapply moved_trans; [apply moved_cursor|apply moved_emit].
      * subst e2. rewrite !dbs_app, (quiet_dbs Hq0), (quiet_dbs Hq1), (quiet_dbs Hq2).
        destruct Hv as [-> | ->]; reflexivity.
      * intros wu H. injection H as <-. exists newest, older. split; reflexivity.
    + exists (e0 ++ e1 ++ e2).
      split; [exact (moved_trans Hm0 (moved_trans Hm1 Hm2))|].
      split; [rewrite !dbs_app, (quiet_dbs Hq0), (quiet_dbs Hq1), (quiet_dbs Hq2);
              reflexivity|].
      intros wu H. discriminate.
Qed.

(** Whatever happens, [update_status] changes nothing but the cursor, the
    trace and the scripts of Twitter and Telegram, and makes no database
    transaction. *)
Lemma update_status_moved (w : World) :
  exists evs, moved w (world_of (update_status w)) evs /\ dbs evs = [].
Proof.
  destruct (items 20 [] timeline w) as [recent w1|e w1] eqn:Hitems.
  - destruct (last_statusid w) as [l|] eqn:Hcur.
    + destruct (Py.index l (map id recent)) as [k|] eqn:Hidx.
      * destruct (fast_path_run _ Hcur Hitems Hidx)
          as (w2 & wu & e1 & tail & Hm1 & Hd1 & _ & Hm2 & Hq2 & _ & _ & Hres).
        destruct (items_ret _ _ _ _ Hitems) as (_ & e0 & Hm0 & Hq0 & _).
        exists (e0 ++ e1 ++ tail).
        assert (Hw : world_of (update_status w) = wu)
          by (destruct Hres as [(_ & Hr & _)|(Hr & _)]; rewrite Hr; reflexivity).
        rewrite Hw. split; [exact (moved_trans Hm0 (moved_trans Hm1 Hm2))|].
        rewrite !dbs_app, (quiet_dbs Hq0), (quiet_dbs Hq2), Hd1. reflexivity.
      * destruct (rollback_run _ Hcur Hitems Hidx) as (evs & Hm & Hd & _).
        exists evs. auto.
    + destruct (cold_start_run _ Hcur Hitems) as (evs & Hm & Hd & _).
      exists evs. auto.
  - destruct (listing_failure_run w (or_introl Hitems)) as (Hr & _).
    destruct (items_raise _ _ _ _ Hitems) as (_ & _ & e0 & Hm0 & Hq0 & _).
    rewrite Hr. exists (e0 ++ [Logged UpdateFailed]). simpl.
    split; [exact (moved_trans Hm0 (moved_emit _ _))|].
    rewrite dbs_app, (quiet_dbs Hq0). reflexivity.
Qed.

(** The synchronisation never moves the cursor back when the feed is
    ordered newest first. *)
Lemma update_status_monotone (w : World) :
  newest_first (map id (feed timeline)) ->
  cursor_le (last_statusid w) (last_statusid (world_of (update_status w))).
Proof.
  intros Hsorted.
  destruct (items 20 [] timeline w) as [recent w1|e w1] eqn:Hitems.
  - destruct (last_statusid w) as [l|] eqn:Hcur; [|exact I].
    destruct (items_ret _ _ _ _ Hitems) as (Hrecent & _).
    destruct (Py.index l (map id recent)) as [k|] eqn:Hidx.
    + destruct (fast_path_run _ Hcur Hitems Hidx)
        as (w2 & wu & e1 & tail & _ & _ & _ & _ & _ & Hl2 & Hc & Hres).
      assert (Hw : world_of (update_status w) = wu)
        by (destruct Hres as [(_ & Hr & _)|(Hr & _)]; rewrite Hr; reflexivity).
      rewrite Hw, Hl2.
      destruct Hc as [->|(st & Hin & ->)]; [apply Z.le_refl|].
      simpl. apply Z.lt_le_incl.
      assert (Hbefore : Forall (fun x => l < x) (firstn k (map id recent))).
      { apply index_before; [|exact Hidx].
        rewrite Hrecent. simpl app. rewrite <- firstn_map.
        apply newest_first_firstn. exact Hsorted. }
      rewrite Forall_forall in Hbefore. apply Hbefore.
      rewrite firstn_map. apply in_map. apply in_rev. exact Hin.
    + destruct (rollback_run _ Hcur Hitems Hidx) as (evs & _ & _ & _ & _ & Hc & _).
      destruct Hc as [->|(sid & Hin & ->)]; [apply Z.le_refl|].
      simpl. apply Z.lt_le_incl.
      pose proof (collected_newer l) as Hnewer.
      rewrite Forall_forall in Hnewer. apply Hnewer. exact Hin.
  - destruct (listing_failure_run w (or_introl Hitems)) as (Hr & Hl & _).
    rewrite Hr. simpl world_of. rewrite Hl. apply cursor_le_refl.
Qed.


(** ** Idempotence *)

Lemma index_head (x : Z) (rest : list Z) : Py.index x (x :: rest) = Some 0%nat.
Proof. simpl. rewrite Z.eqb_refl. reflexivity. Qed.

Lemma newer_run_in_feed (since sid : Z) (posts : list Status) :
  In sid (TweetDrasta.newer_run since posts) -> exists st, In st posts /\ id st = sid.
Proof.
  induction posts as [|st posts IH]; simpl; [contradiction|].
  destruct (id st <=? since); [contradiction|].
  intros [<-|H].
  - exists st. auto.
  - destruct (IH H) as (st' & Hin & Hid). exists st'. auto.
Qed.

(** The newest id collected by a rollback is the id of the newest post of
    the feed. *)
Lemma collected_head (since sid : Z) (others : list Z) :
  collected since = sid :: others ->
  exists st rest, feed timeline = st :: rest /\ id st = sid.
Proof.
  unfold TweetDrasta.collected.
  destruct (feed timeline) as [|st rest]; simpl.
  - rewrite firstn_nil. discriminate.
  - destruct (id st <=? since); [rewrite firstn_nil; discriminate|].
    destruct (Z.to_nat max_rollback); simpl; [discriminate|].
    intros H. injection H as <- _. exists st, rest. auto.
Qed.

(** A cycle that starts with the cursor on the newest of the recent
    posts, or with a cursor for which the rollback collects nothing, hands
    nothing to the bot and leaves the cursor where it is. *)
Lemma idle_cycle (w : World) (c : Z) :
  last_statusid w = Some c ->
  Py.index c (map id (firstn 20 (feed timeline))) = Some 0%nat
  \/ (Py.index c (map id (firstn 20 (feed timeline))) = None /\ collected c = []) ->
  handed (trace (world_of (update_status w))) = handed (trace w) /\
  last_statusid (world_of (update_status w)) = last_statusid w.
Proof.
  intros Hcur Hidle.
  destruct (items 20 [] timeline w) as [recent w1|e w1] eqn:Hitems.
  - destruct (items_ret _ _ _ _ Hitems) as (Hrecent & e0 & Hm0 & Hq0 & Hl0).
    change ([] ++ feed timeline) with (feed timeline) in Hrecent.
    rewrite <- Hrecent in Hidle.
    assert (Hh1 : handed (trace w1) = handed (trace w))
      by (rewrite (moved_handed Hm0), (quiet_handed Hq0); apply app_nil_r).
    unfold TweetDrasta.update_status, try_except, bind. rewrite Hitems.
    cbv beta iota. unfold reads. cbv beta iota. rewrite Hl0, Hcur.
    destruct Hidle as [Hidx|[Hidx Hnone]]; rewrite Hidx.
    + simpl. split; congruence.
    + unfold bind.
      destruct (get_statuses_since_spec c w1)
        as (w2 & e1 & Hm1 & Hq1 & Hl1 & [Hr1|[Hr1 Hin1]]); rewrite Hr1.
      * rewrite Hnone. simpl. rewrite (moved_handed Hm1), (quiet_handed Hq1), app_nil_r.
        split; congruence.
      * simpl. rewrite (mv_trace Hm1), !handed_app, (quiet_handed Hq1). simpl.
        rewrite !app_nil_r. split; congruence.
  - destruct (listing_failure_run w (or_introl Hitems)) as (Hr & Hl & Hh).
    rewrite Hr. simpl world_of. auto.
Qed.

(** A cycle that returns without having met an error of the feed API
    leaves the cursor where the next cycle finds nothing to forward. *)
Lemma clean_cycle_settles (w w1 : World) :
  update_status w = Ret tt w1 ->
  api_clean w ->
  Forall (fun st => get_status (id st) <> None) (feed timeline) ->
  exists c,
    last_statusid w1 = Some c /\
    (Py.index c (map id (firstn 20 (feed timeline))) = Some 0%nat
     \/ (Py.index c (map id (firstn 20 (feed timeline))) = None /\ collected c = [])).
Proof.
  intros Hret Hclean Hserved.
  destruct (items 20 [] timeline w) as [recent w0|e w0] eqn:Hitems.
  2:{ exfalso. destruct (items_raise _ _ _ _ Hitems) as (_ & Hin & _).
      exact (Hclean Hin). }
  destruct (items_ret _ _ _ _ Hitems) as (Hrecent & _).
  change ([] ++ feed timeline) with (feed timeline) in Hrecent.
  rewrite <- Hrecent.
  destruct (last_statusid w) as [l|] eqn:Hcur.
  - destruct (Py.index l (map id recent)) as [k|] eqn:Hidx.
    + destruct (fast_path_run _ Hcur Hitems Hidx)
        as (w2 & wu & e1 & tail & _ & _ & _ & _ & _ & Hl2 & _ & Hres).
      destruct Hres as [(_ & Hr & _ & Hl & _)|(Hr & _)]; rewrite Hr in Hret; [|discriminate].
      injection Hret as <-. rewrite Hl2, Hl.
      destruct recent as [|newest older].
      * simpl in Hidx. discriminate.
      * destruct k as [|k].
        -- exists l. split; [reflexivity|]. left. exact Hidx.
        -- exists (id newest). split.
           ++ exact (last_rev_cons (fun st => Some (id st)) newest (firstn k older) (Some l)).
           ++ left. apply index_head.
    + destruct (rollback_run _ Hcur Hitems Hidx) as (evs & _ & _ & _ & _ & _ & _ & Hnom).
      assert (Hserved' : Forall (fun sid => get_status sid <> None) (collected l)).
      { apply Forall_forall. intros sid Hin.
        apply in_firstn, newer_run_in_feed in Hin. destruct Hin as (st & Hin & <-).
        rewrite Forall_forall in Hserved. exact (Hserved st Hin). }
      destruct (Hnom Hclean Hserved' (ex_intro _ w1 Hret)) as (_ & Hl).
      rewrite Hret in Hl. simpl in Hl. rewrite Hl.
      destruct (collected l) as [|sid others] eqn:Hcol.
      * exists l. split; [reflexivity|]. right. auto.
      * exists sid. split; [exact (last_rev_cons Some sid others (Some l))|].
        left. destruct (collected_head _ Hcol) as (st & rest & Hfeed & <-).
        rewrite Hrecent, Hfeed. apply index_head.
  - destruct (cold_start_run _ Hcur Hitems) as (evs & _ & _ & Hcold).
    destruct (Hcold w1 Hret) as (newest & older & -> & Hl).
    exists (id newest). split; [exact Hl|]. left. apply index_head.
Qed.

(** C4.  When a call of [update_status] has returned without meeting an
    error of the feed API (rate limits apart; every post of the feed can be
    fetched by its id), a second call on the same feed, started with the
    cursor the first call left, hands no further message to the bot and
    leaves the cursor unchanged, whatever the collaborators do during the
    second call. *)
Theorem sync_twice_forwards_nothing_more (w w1 w2 : World) :
  update_status w = Ret tt w1 ->
  api_clean w ->
  Forall (fun st => get_status (id st) <> None) (feed timeline) ->
  last_statusid w2 = last_statusid w1 ->
  handed (trace (world_of (update_status w2))) = handed (trace w2) /\
  last_statusid (world_of (update_status w2)) = last_statusid w2.
Proof.
  intros Hret Hclean Hserved Hsame.
  destruct (clean_cycle_settles Hret Hclean Hserved) as (c & Hc & Hidle).
  apply (idle_cycle w2 (c := c)); [congruence|exact Hidle].
Qed.


(** ** The bulk import *)

Lemma steady_refl (w : World) : steady w w.
Proof. split; [reflexivity|apply tail_of_refl]. Qed.

Lemma steady_trans (w w1 w2 : World) : steady w w1 -> steady w1 w2 -> steady w w2.
Proof.
  intros [H1 T1] [H2 T2]. split; [congruence|]. eapply tail_of_trans; eassumption.
Qed.

Lemma moved_steady (w w' : World) (evs : list Event) :
  moved w w' evs -> last_statusid w' = last_statusid w -> steady w w'.
Proof. intros Hm Hl. split; [exact Hl|]. rewrite (mv_db Hm). apply tail_of_refl. Qed.

Lemma steady_emit (w : World) (e : Event) : steady w (emit e w).
Proof. split; [reflexivity|apply tail_of_refl]. Qed.

Lemma rtlimt_steady (w : World) : steady w (world_of (rtlimt w)).
Proof.
  destruct (rtlimt_spec w) as (w' & evs & Hm & _ & Hl & [Hr|[Hr _]]); rewrite Hr;
    exact (moved_steady Hm Hl).
Qed.

Lemma render_all_spec (page : list Status) :
  forall w, exists stx w', render_all page w = Ret stx w' /\ steady w w'.
Proof.
  induction page as [|st page IH]; intros w.
  - exists [], w. split; [reflexivity|apply steady_refl].
  - cbn [TweetDrasta.render_all]. unfold bind.
    destruct (check_status_spec st w) as (w1 & e1 & r & Hr1 & Hm1 & _ & Hl1 & _).
    rewrite Hr1. destruct (IH w1) as (stx & w2 & Hr2 & Hs2). rewrite Hr2.
    exists (status_str r :: stx), w2. split; [reflexivity|].
    exact (steady_trans (moved_steady Hm1 Hl1) Hs2).
Qed.

Lemma send_msg_steady (msg : string) (w : World) :
  steady w (world_of (TelegramBot.send_msg msg w)).
Proof.
  destruct (send_msg_spec msg w) as (w' & evs & Hm & Hl & [(Hr & _)|(Hr & _)]); rewrite Hr;
    exact (moved_steady Hm Hl).
Qed.

Lemma send_all_steady (msgs : list string) :
  forall w, steady w (world_of (TweetDrasta.send_all msgs w)).
Proof.
  induction msgs as [|msg msgs IH]; intros w; [apply steady_refl|].
  cbn [TweetDrasta.send_all]. unfold bind. pose proof (send_msg_steady msg w) as Hs.
  destruct (TelegramBot.send_msg msg w) as [[] w1|e w1]; [|exact Hs].
  unfold sleep, modify. cbv beta iota.
  exact (steady_trans Hs (steady_trans (steady_emit w1 (Slept 3)) (IH _))).
Qed.

Lemma send_items_steady (items : list Json) :
  forall w, steady w (world_of (TweetDrasta.send_items items w)).
Proof.
  induction items as [|st items IH]; intros w; [apply steady_refl|].
  cbn [TweetDrasta.send_items]. unfold bind.
  assert (Hs : steady w (world_of (match st with
                                   | JString msg => TelegramBot.send_msg msg
                                   | _ => ret tt
                                   end w)))
    by (destruct st; try apply steady_refl; apply send_msg_steady).
  destruct (match st with
            | JString msg => TelegramBot.send_msg msg
            | _ => ret tt
            end w) as [[] w1|e w1]; [|exact Hs].
  unfold sleep, modify. cbv beta iota.
  exact (steady_trans Hs (steady_trans (steady_emit w1 (Slept 3)) (IH _))).
Qed.

Lemma steady_db (w : World) (o : DbOutcome) (s : list DbOutcome) :
  db_script w = o :: s -> steady w (set_db_script s w).
Proof.
  intros H. split; [reflexivity|]. simpl. rewrite H. apply tail_of_cons, tail_of_refl.
Qed.

Lemma connect_steady (w : World) : steady w (world_of (DBStore.connect w)).
Proof.
  unfold DBStore.connect. destruct (db_script w) as [|[] s] eqn:E; simpl;
    [apply steady_refl|eapply steady_db; eassumption|eapply steady_db; eassumption].
Qed.

Lemma save_tmp_value_spec (key : Z) (value : Text) (w : World) :
  exists w', DBStore.save_tmp_value key value w = Ret tt w' /\ steady w w'.
Proof.
  unfold DBStore.save_tmp_value. destruct (ready w); simpl;
    [|exists w; split; [reflexivity|apply steady_refl]].
  unfold bind. pose proof (connect_steady w) as Hs.
  destruct (DBStore.connect w) as [[|] w1|e w1] eqn:Hc; simpl in Hs.
  - eexists. split; [reflexivity|]. exact Hs.
  - eexists. split; [reflexivity|]. exact Hs.
  - unfold DBStore.connect in Hc. destruct (db_script w) as [|[] s]; discriminate.
Qed.

Lemma get_tmp_value_steady (key : Z) (w : World) :
  steady w (world_of (DBStore.get_tmp_value key w)).
Proof.
  unfold DBStore.get_tmp_value. destruct (ready w); simpl; [|apply steady_refl].
  unfold bind. pose proof (connect_steady w) as Hs.
  destruct (DBStore.connect w) as [[|] w1|e w1]; simpl in Hs; simpl; [| |exact Hs].
  - destruct (tmp w1) as [rows|]; simpl; [|exact Hs].
    destruct (find (fun row => fst row =? key) rows); exact Hs.
  - exact Hs.
Qed.

Lemma dig_drain_steady (i : nat) :
  forall c w, steady w (world_of (TweetDrasta.dig_drain i c w)).
Proof.
  induction i as [|i IH]; intros c w; [apply steady_refl|].
  cbn [TweetDrasta.dig_drain]. unfold bind.
  pose proof (get_tmp_value_steady (Z.of_nat (S i)) w) as Hs.
  destruct (DBStore.get_tmp_value (Z.of_nat (S i)) w) as [[[msgs| |v]|] w1|e w1];
    [| | | |exact Hs]; simpl in Hs.
  - pose proof (send_all_steady (rev msgs) w1) as Hs2.
    destruct (TweetDrasta.send_all (rev msgs) w1) as [[] w2|e w2]; simpl in Hs2.
    + exact (steady_trans Hs (steady_trans Hs2 (IH _ _))).
    + exact (steady_trans Hs Hs2).
  - unfold log, modify. cbv beta iota.
    exact (steady_trans Hs (steady_trans (steady_emit w1 _) (IH _ _))).
  - destruct (list_of v) as [items|]; [|exact Hs].
    pose proof (send_items_steady (rev items) w1) as Hs2.
    destruct (TweetDrasta.send_items (rev items) w1) as [[] w2|e w2]; simpl in Hs2.
    + exact (steady_trans Hs (steady_trans Hs2 (IH _ _))).
    + exact (steady_trans Hs Hs2).
  - exact Hs.
Qed.

(** The fetch phase uses the database script further and moves the cursor
    at most once, when it stages its first page, to the newest post of the
    feed. *)
Lemma dig_fetch_cursor (all : bool) (f r : Z) (pages : PageCursor) :
  forall i c last w,
    tail_of (db_script (world_of (dig_fetch all f r pages i c last w))) (db_script w) /\
    (last_statusid (world_of (dig_fetch all f r pages i c last w)) = last_statusid w
     \/ (i = 0%nat /\
         exists st rest, feed pages = st :: rest /\
           last_statusid (world_of (dig_fetch all f r pages i c last w)) = Some (id st))).
Proof.
  induction pages as [|pg pages IH]; intros i c last w.
  - simpl. unfold bind. destruct (rtlimt_steady w) as [Hl Ht].
    destruct (rtlimt w) as [[] w1|e w1]; simpl in *; auto.
  - destruct pg as [|st page].
    + simpl. unfold bind. destruct (rtlimt_steady w) as [Hl Ht].
      destruct (rtlimt w) as [[] w1|e w1]; simpl in *; auto.
    + cbn [TweetDrasta.dig_fetch]. unfold bind.
      destruct (rtlimt_steady w) as [Hl1 Ht1].
      destruct (rtlimt w) as [[] w1|e w1]; simpl in Hl1, Ht1; [|simpl; auto].
      set (page_taken := if negb all && (f - Z.of_nat i <=? 0) && (0 <? r)
                         then firstn (Z.to_nat r) (st :: page) else st :: page).
      destruct (render_all_spec page_taken w1) as (stx & w2 & Hr2 & Hl2 & Ht2).
      rewrite Hr2. cbv beta iota.
      assert (Hhead : page_taken = [] \/ exists more, page_taken = st :: more).
      { unfold page_taken.
        destruct (negb all && (f - Z.of_nat i <=? 0) && (0 <? r)); [|right; eauto].
        destruct (Z.to_nat r); simpl; [left; reflexivity|right; eauto]. }
      destruct Hhead as [->|[more ->]].
      * simpl. split; [eapply tail_of_trans; eassumption|left; congruence].
      * destruct (Py.last_item (st :: more)) as [oldest|];
          [|simpl; split; [eapply tail_of_trans; eassumption|left; congruence]].
        set (w3 := if Nat.eqb (S i) 1 then set_last_statusid (Some (id st)) w2 else w2).
        assert (Hw3 : (if Nat.eqb (S i) 1
                       then modify (set_last_statusid (Some (id st)))
                       else ret tt) w2 = Ret tt w3)
          by (unfold w3; destruct (Nat.eqb (S i) 1); reflexivity).
        rewrite Hw3. cbv beta iota.
        assert (Ht3 : db_script w3 = db_script w2)
          by (unfold w3; destruct (Nat.eqb (S i) 1); reflexivity).
        assert (Hc3 : last_statusid w3 = last_statusid w
                      \/ (i = 0%nat /\ last_statusid w3 = Some (id st))).
        { unfold w3. destruct i as [|i]; simpl; [right; auto|left; congruence]. }
        destruct (save_tmp_value_spec (Z.of_nat (S i)) (JsonArray stx) w3)
          as (w4 & Hr4 & Hl4 & Ht4).
        rewrite Hr4. cbv beta iota.
        assert (Ht04 : tail_of (db_script w4) (db_script w)).
        { eapply tail_of_trans; [exact Ht4|]. rewrite Ht3.
          eapply tail_of_trans; eassumption. }
        assert (Hc4 : last_statusid w4 = last_statusid w
                      \/ (i = 0%nat /\ exists st0 rest, feed ((st :: page) :: pages) = st0 :: rest
                                       /\ last_statusid w4 = Some (id st0))).
        { destruct Hc3 as [Hc3|[Hi Hc3]]; [left; congruence|].
          right. split; [exact Hi|]. exists st, (page ++ feed pages).
          split; [reflexivity|congruence]. }
        destruct (negb all && (f <=? Z.of_nat (S i))); [simpl; auto|].
        destruct (IH (S i) (c + Z.of_nat (List.length stx)) (Some (id oldest)) w4)
          as [Ht5 Hc5].
        split; [eapply tail_of_trans; eassumption|].
        destruct Hc5 as [Hc5|[Hi _]]; [|discriminate].
        rewrite Hc5. exact Hc4.
Qed.


Lemma finally_world {A} (m : M A) (cleanup : M unit) (w : World) :
  world_of (finally m cleanup w) = world_of (cleanup (world_of (m w))).
Proof.
  unfold finally. destruct (m w) as [a w1|e w1]; simpl;
    destruct (cleanup w1) as [[] w2|e2 w2]; reflexivity.
Qed.

Lemma try_except_raise_world {A} (m : M A) (caught : Exn -> bool) (e' : Exn) (w : World) :
  world_of (try_except m caught (raise e') w) = world_of (m w).
Proof.
  unfold try_except. destruct (m w) as [a w1|e w1]; [reflexivity|].
  destruct (caught e); reflexivity.
Qed.

(** [drop_tmp] leaves the cursor alone; it ends with the table dropped,
    or, when its connection fails, with the failure logged. *)
Lemma drop_tmp_spec (w : World) :
  last_statusid (world_of (DBStore.drop_tmp w)) = last_statusid w /\
  (((exists tr, trace (world_of (DBStore.drop_tmp w)) = tr ++ [Db DropTmp]) /\
    tmp (world_of (DBStore.drop_tmp w)) = None)
   \/ ((exists tr, trace (world_of (DBStore.drop_tmp w)) = tr ++ [Logged DbDeleteFailed]) /\
       In DbDown (db_script w))).
Proof.
  unfold DBStore.drop_tmp, DBStore.connect, bind.
  destruct (db_script w) as [|[] s]; simpl.
  - split; [reflexivity|]. left. split; [eexists; reflexivity|reflexivity].
  - split; [reflexivity|]. left. split; [eexists; reflexivity|reflexivity].
  - split; [reflexivity|]. right. split; [eexists; reflexivity|left; reflexivity].
Qed.

(** A bulk import on a ready store ends with [drop_tmp], run in a state
    in which the cursor is where it was or on the newest post of the
    feed. *)
Lemma dig_try_run (count : Z) (all : bool) (w : World) :
  tail_of (db_script (world_of (dig_try count all w))) (db_script w) /\
  (last_statusid (world_of (dig_try count all w)) = last_statusid w
   \/ exists st rest, feed timeline = st :: rest /\
        last_statusid (world_of (dig_try count all w)) = Some (id st)).
Proof.
  unfold TweetDrasta.dig_try. unfold bind.
  destruct (dig_fetch_cursor all (count / 20) (count mod 20) timeline 0 0 None w)
    as [Ht1 Hc1].
  assert (Hc1' : last_statusid
                   (world_of (dig_fetch all (count / 20) (count mod 20) timeline 0 0 None w))
                 = last_statusid w
                 \/ exists st rest, feed timeline = st :: rest /\
                      last_statusid
                        (world_of (dig_fetch all (count / 20) (count mod 20) timeline 0 0 None w))
                      = Some (id st)).
  { destruct Hc1 as [Hc1|[_ Hc1]]; [left; exact Hc1|right; exact Hc1]. }
  clear Hc1.
  destruct (dig_fetch all (count / 20) (count mod 20) timeline 0 0 None w)
    as [[[i c] last] w1|e w1]; simpl in Ht1, Hc1'; [|simpl; auto].
  unfold log, modify. cbv beta iota.
  destruct (dig_drain_steady i 0 (emit (Logged (Fetched c)) w1)) as [Hl2 Ht2].
  destruct (TweetDrasta.dig_drain i 0 (emit (Logged (Fetched c)) w1)) as [c' w2|e w2];
    simpl in Hl2, Ht2; simpl.
  - split; [eapply tail_of_trans; eassumption|]. rewrite Hl2. exact Hc1'.
  - split; [eapply tail_of_trans; eassumption|]. rewrite Hl2. exact Hc1'.
Qed.

Lemma dig_update_run (count : Z) (all : bool) (w : World) :
  ready w = true ->
  exists wm,
    world_of (dig_update count all w) = world_of (DBStore.drop_tmp wm) /\
    tail_of (db_script wm) (db_script w) /\
    (last_statusid wm = last_statusid w
     \/ exists st rest, feed timeline = st :: rest /\ last_statusid wm = Some (id st)).
Proof.
  intros Hready. unfold TweetDrasta.dig_update. rewrite Hready. simpl negb. cbv iota.
  unfold bind at 1. unfold log at 1, modify at 1. cbv beta iota.
  rewrite finally_world, try_except_raise_world.
  eexists. split; [reflexivity|].
  exact (dig_try_run count all (emit (Logged (Digging count all)) w)).
Qed.

(** The bulk import moves the cursor nowhere but onto the newest post of
    the feed. *)
Lemma dig_update_cursor (count : Z) (all : bool) (w : World) :
  last_statusid (world_of (dig_update count all w)) = last_statusid w
  \/ exists st rest, feed timeline = st :: rest /\
       last_statusid (world_of (dig_update count all w)) = Some (id st).
Proof.
  destruct (ready w) eqn:Hready.
  - destruct (@dig_update_run count all w Hready) as (wm & -> & _ & Hc).
    destruct (drop_tmp_spec wm) as [-> _]. exact Hc.
  - left. unfold TweetDrasta.dig_update. rewrite Hready. reflexivity.
Qed.

(** C9, amended.  Every bulk import on a ready store, whether it returns
    or is left by an exception, ends with [drop_tmp]: either the drop is
    the last thing done and the staging table is gone, or the connection
    of the drop failed, which is logged and leaves the staging table as it
    is; the latter only when some connection to the database fails. *)
Theorem dig_update_ends_with_drop (count : Z) (all : bool) (w : World) :
  ready w = true ->
  ((exists tr, trace (world_of (dig_update count all w)) = tr ++ [Db DropTmp]) /\
   tmp (world_of (dig_update count all w)) = None)
  \/ ((exists tr, trace (world_of (dig_update count all w)) = tr ++ [Logged DbDeleteFailed]) /\
      In DbDown (db_script w)).
Proof.
  intros Hready.
  destruct (@dig_update_run count all w Hready) as (wm & -> & Ht & _).
  destruct (drop_tmp_spec wm) as [_ [Hdrop|[Hfail Hin]]]; [left; exact Hdrop|].
  right. split; [exact Hfail|]. exact (tail_of_in _ Ht Hin).
Qed.

(** C7, amended.  On a feed whose ids are unique and ordered newest
    first, no run of [update_status] (cold start, fast path or rollback,
    completed or interrupted) leaves the cursor below where it found it.
    No bulk import does either, whatever the order of the feed, unless the
    cursor it starts with is above the id of the newest post of the feed
    (the first post of its first page): the import sets the cursor to that
    id without comparing, or leaves it alone. *)
Theorem cursor_never_moves_back (w : World) :
  (newest_first (map id (feed timeline)) ->
   cursor_le (last_statusid w) (last_statusid (world_of (update_status w)))) /\
  (forall count all,
      match last_statusid w, feed timeline with
      | Some l, newest :: _ => l <= id newest
      | _, _ => True
      end ->
      cursor_le (last_statusid w) (last_statusid (world_of (dig_update count all w)))) /\
  (forall count all,
      last_statusid (world_of (dig_update count all w)) = last_statusid w
      \/ exists newest older,
           feed timeline = newest :: older /\
           last_statusid (world_of (dig_update count all w)) = Some (id newest)).
Proof.
  split; [exact (update_status_monotone w)|].
  split; [|intros count all; exact (dig_update_cursor count all w)].
  intros count all Hle.
  destruct (dig_update_cursor count all w) as [->|(st & rest & Hfeed & ->)].
  - apply cursor_le_refl.
  - destruct (last_statusid w) as [l|]; [|exact I].
    rewrite Hfeed in Hle. exact Hle.
Qed.


(** ** Running without the database *)

Lemma dict_get_set {V} (key : string) (v : V) (d : list (string * V)) :
  Py.dict_get key (Py.dict_set key v d) = Some v.
Proof.
  induction d as [|[k v0] d IH]; simpl.
  - rewrite String.eqb_refl. reflexivity.
  - destruct (String.eqb k key) eqn:E; simpl; rewrite E; [reflexivity|exact IH].
Qed.

(** [__update_hook] is [update_status] followed, when it returns, by the
    update of [persist] and one save of the keystore. *)
Lemma update_hook_unfold (w : World) :
  update_hook w
  = match update_status w with
    | Ret _ wu =>
        DBStore.save_keystore
          (set_persist
             (Py.dict_set "last_statusid"
                (match last_statusid wu with Some n => Py.VInt n | None => Py.VNone end)
                (persist wu)) wu)
    | Raise e wu => Raise e wu
    end.
Proof.
  unfold TweetDrasta.update_hook, bind.
  destruct (update_status w) as [[] wu|e wu]; reflexivity.
Qed.

(** C10.  When the connection tried at start-up fails, [ready] is false;
    and with [ready] false, loading and saving the keystore and writing and
    reading staging values change nothing and return nothing, without even
    trying a connection.  The program goes on: a cycle of [__update_hook]
    leaves the database and its script untouched, makes no transaction, and
    when it returns the cursor is held in the [persist] dictionary in
    memory. *)
Theorem unreachable_database_disables_persistence (w0 : World) (rest : list DbOutcome) :
  db_script w0 = DbDown :: rest ->
  ready (world_of (DBStore.init w0)) = false /\
  forall w, ready w = false ->
    DBStore.load_keystore w = Ret tt w /\
    DBStore.save_keystore w = Ret tt w /\
    (forall key value, DBStore.save_tmp_value key value w = Ret tt w) /\
    (forall key, DBStore.get_tmp_value key w = Ret None w) /\
    ready (world_of (update_hook w)) = false /\
    keystore (world_of (update_hook w)) = keystore w /\
    tmp (world_of (update_hook w)) = tmp w /\
    db_script (world_of (update_hook w)) = db_script w /\
    dbs (trace (world_of (update_hook w))) = dbs (trace w) /\
    (forall wu, update_hook w = Ret tt wu ->
                Py.dict_get "last_statusid" (persist wu)
                = Some (match last_statusid wu with
                        | Some n => Py.VInt n
                        | None => Py.VNone
                        end)).
Proof.
  intros Hdown. split.
  { unfold DBStore.init, DBStore.connect, bind. rewrite Hdown. reflexivity. }
  intros w Hready.
  split; [unfold DBStore.load_keystore; rewrite Hready; reflexivity|].
  split; [unfold DBStore.save_keystore; rewrite Hready; reflexivity|].
  split; [intros key value; unfold DBStore.save_tmp_value; rewrite Hready; reflexivity|].
  split; [intros key; unfold DBStore.get_tmp_value; rewrite Hready; reflexivity|].
  destruct (update_status_moved w) as (evs & Hm & Hd).
  rewrite update_hook_unfold.
  destruct (update_status w) as [[] wu|e wu]; simpl in Hm.
  - unfold DBStore.save_keystore. simpl ready. rewrite (mv_ready Hm), Hready. simpl.
    rewrite (mv_ready Hm), (mv_keystore Hm), (mv_tmp Hm), (mv_db Hm), (mv_trace Hm),
      dbs_app, Hd, app_nil_r.
    repeat (split; [assumption || reflexivity|]).
    intros wu' H. injection H as <-. simpl. apply dict_get_set.
  - simpl.
    rewrite (mv_ready Hm), (mv_keystore Hm), (mv_tmp Hm), (mv_db Hm), (mv_trace Hm),
      dbs_app, Hd, app_nil_r.
    repeat (split; [assumption || reflexivity|]).
    intros wu' H. discriminate.
Qed.


(** ** What leaves [update_status], and the empty feed *)





(** X2.  On an empty feed whose listing meets no API error, a cold start
    is left by [IndexError] and a start with a cursor returns; either way
    nothing is handed to the bot and the cursor stays as it was. *)
Theorem update_status_on_empty_feed (w : World) :
  feed timeline = [] ->
  api_clean w ->
  exists w',
    update_status w = match last_statusid w with
                      | None => Raise IndexError w'
                      | Some _ => Ret tt w'
                      end /\
    handed (trace w') = handed (trace w) /\
    last_statusid w' = last_statusid w.
Proof.
  intros Hfeed Hclean.
  destruct (items_spec 20 [] timeline w) as (w1 & e0 & Hm0 & Hq0 & Hl0 & [Hitems|[_ Hin]]);
    [|contradiction].
  change ([] ++ feed timeline) with (feed timeline) in Hitems. rewrite Hfeed in Hitems.
  change (firstn 20 (@nil Status)) with (@nil Status) in Hitems.
  assert (Hh0 : handed (trace w1) = handed (trace w))
    by (rewrite (moved_handed Hm0), (quiet_handed Hq0); apply app_nil_r).
  unfold TweetDrasta.update_status, try_except, bind. rewrite Hitems.
  cbv beta iota. unfold reads. cbv beta iota. rewrite Hl0.
  destruct (last_statusid w) as [l|] eqn:Hcur.
  - change (Py.index l (map id [])) with (@None nat). cbv iota. unfold bind.
    destruct (get_statuses_since_spec l w1) as (w2 & e1 & Hm1 & Hq1 & Hl1 & [Hr1|[_ Hin1]]).
    2:{ exfalso. exact (moved_clean Hm0 Hclean Hin1). }
    rewrite Hr1.
    assert (Hnone : collected l = [])
      by (unfold TweetDrasta.collected; rewrite Hfeed; simpl; apply firstn_nil).
    rewrite Hnone. simpl. exists w2. split; [reflexivity|].
    split; [|congruence].
    rewrite (moved_handed Hm1), (quiet_handed Hq1), app_nil_r. exact Hh0.
  - exists w1. split; [reflexivity|]. split; [exact Hh0|congruence].
Qed.

(** ** A cycle that is left by an exception persists nothing *)

Lemma save_keystore_returns (w : World) :
  exists w', DBStore.save_keystore w = Ret tt w'.
Proof.
  unfold DBStore.save_keystore. destruct (ready w); simpl; [|eexists; reflexivity].
  unfold bind, DBStore.connect. destruct (db_script w) as [|[] s]; eexists; reflexivity.
Qed.

(** X3.  When [__update_hook] is left by an exception, it is the
    exception of [update_status]; the [persist] dictionary and the
    [keystore] table are as they were and no database transaction was
    made, so a cursor advanced in memory before the exception is not
    written anywhere. *)
Theorem update_hook_raise_persists_nothing (w w' : World) (e : Exn) :
  update_hook w = Raise e w' ->
  update_status w = Raise e w' /\
  persist w' = persist w /\ keystore w' = keystore w /\
  dbs (trace w') = dbs (trace w).
Proof.
  rewrite update_hook_unfold.
  destruct (update_status_moved w) as (evs & Hm & Hd).
  destruct (update_status w) as [[] wu|e1 wu]; simpl in Hm.
  - intros H.
    destruct (save_keystore_returns
                (set_persist
                   (Py.dict_set "last_statusid"
                      match last_statusid wu with
                      | Some n => Py.VInt n
                      | None => Py.VNone
                      end (persist wu)) wu)) as (w2 & Hs).
    rewrite Hs in H. discriminate.
  - intros H. injection H as <- <-. split; [reflexivity|].
    split; [exact (mv_persist Hm)|]. split; [exact (mv_keystore Hm)|].
    rewrite (mv_trace Hm), dbs_app, Hd. apply app_nil_r.
Qed.


(** ** Rate limits of the feed API *)






(** ** The fetch of the recent posts *)

(** X5.  The fetch of the [limit] most recent posts yields the first
    [limit] posts of the feed in feed order, taking them from as many pages
    as it needs, and all of the feed when the feed is shorter; or it is
    left by a [TweepError], which only an error of the API causes.  Either
    way the cursor, the messages handed over and the database are as they
    were. *)
Theorem recent_fetch_is_feed_prefix (limit : nat) (c : PageCursor) (w : World) :
  exists w' evs,
    (items limit [] c w = Ret (firstn limit (feed c)) w'
     \/ (items limit [] c w = Raise TweepError w' /\ In ApiError (api_script w))) /\
    moved w w' evs /\
    last_statusid w' = last_statusid w /\
    handed (trace w') = handed (trace w) /\
    dbs (trace w') = dbs (trace w).
Proof.
  destruct (items_spec limit [] c w) as (w' & evs & Hm & Hq & Hl & Hr).
  exists w', evs. split; [exact Hr|]. split; [exact Hm|]. split; [exact Hl|].
  rewrite (mv_trace Hm), handed_app, dbs_app, (quiet_handed Hq), (quiet_dbs Hq), !app_nil_r.
  auto.
Qed.

(** ** The fetch of one post by its id *)



End EngineFacts.

(** * The claims on concrete feeds *)

(** ** Leading run of mentions *)

(** C6, as stated, fails: on mentions with the offsets (0,2), (4,6) and
    (10,12) the run returned by [__rangem] does not end at offset 6. *)
Lemma rangem_gap_of_two_counterexample :
  snd (Formatter.rangem [mkMention "a" (0, 2); mkMention "b" (4, 6); mkMention "c" (10, 12)])
  <> 6.
Proof. vm_compute. discriminate. Qed.

(** C6, amended.  On mentions with the offsets (0,2), (4,6) and (10,12)
    [__rangem] returns the run (0,2): the second mention starts at 4, not
    at 2+1, so the run holds the first mention only.  With the offsets
    (0,2), (3,5) and (10,12), where the second mention starts one past the
    end of the first, the run ends at offset 5 and leaves the third mention
    out. *)
Theorem rangem_stops_at_first_gap :
  Formatter.rangem [mkMention "a" (0, 2); mkMention "b" (4, 6); mkMention "c" (10, 12)]
  = (0, 2) /\
  Formatter.rangem [mkMention "a" (0, 2); mkMention "b" (3, 5); mkMention "c" (10, 12)]
  = (0, 5).
Proof. split; reflexivity. Qed.

(** ** Bulk import of 45 posts *)

(** C3: the code delivers 40 messages, not 45.  On a feed of sixty posts
    in pages of twenty, [dig_update] with [count = 45] and [all = False]
    stages two pages and leaves the loop before the third, partial page is
    fetched; it hands over the forty newest posts, oldest first, returns
    the id of the fortieth, and drops the staging table. *)
Theorem dig_update_45_delivers_40 :
  Default.dig_update Sample.sixty [] 45 false (Sample.calm None)
  = Ret (Some 121)
        (world_of (Default.dig_update Sample.sixty [] 45 false (Sample.calm None))) /\
  delivered (trace (world_of (Default.dig_update Sample.sixty [] 45 false (Sample.calm None))))
  = map (fun st => Default.status_str (Some st)) (rev (firstn 40 (feed Sample.sixty))) /\
  List.length
    (delivered (trace (world_of (Default.dig_update Sample.sixty [] 45 false
                                                    (Sample.calm None)))))
  = 40%nat /\
  tmp (world_of (Default.dig_update Sample.sixty [] 45 false (Sample.calm None))) = None.
Proof. vm_compute. repeat split. Qed.

(** ** Cold start on twenty posts *)

Lemma cold_start_forwards_newest_witness :
  exists w',
    Default.update_status Sample.twenty [] (Sample.calm None) = Ret tt w' /\
    handed (trace w') = [Default.status_str (Some (Sample.post 20))] /\
    delivered (trace w') = [Default.status_str (Some (Sample.post 20))] /\
    last_statusid w' = Some 20.
Proof.
  destruct (@cold_start_forwards_newest 50 (15 * 60) Sample.retweet_emoji Sample.reply_emoji
              Sample.twenty [] (Sample.calm None) (Sample.calm None)
              (feed Sample.twenty) (Sample.post 20) (List.tl (feed Sample.twenty)))
    as (w' & msg & H1 & H2 & H3 & _ & H4 & H5).
  - reflexivity.
  - vm_compute. reflexivity.
  - vm_compute. reflexivity.
  - vm_compute. intros H. exact H.
  - assert (Hmsg : msg = Default.status_str (Some (Sample.post 20)))
      by (apply H4; vm_compute; intros H; exact H).
    exists w'. split; [exact H1|].
    split; [rewrite H2, Hmsg; reflexivity|].
    split; [rewrite H3, Hmsg; [reflexivity|vm_compute; intros H; exact H]|].
    exact H5.
Defined.

(** ** Fast path on three posts *)



(** ** Rollback on sixty posts *)

Lemma rollback_forwards_collected_witness :
  exists evs,
    trace (world_of (Default.update_status Sample.sixty (feed Sample.sixty)
                                           (Sample.calm (Some 105))))
    = trace (Sample.calm (Some 105)) ++ evs /\
    paced evs /\
    (List.length (handed evs) <= 50)%nat /\
    handed evs
    = map (fun st => Default.status_str (Some st)) (rev (firstn 50 (feed Sample.sixty))) /\
    delivered evs
    = map (fun st => Default.status_str (Some st)) (rev (firstn 50 (feed Sample.sixty))) /\
    last_statusid (world_of (Default.update_status Sample.sixty (feed Sample.sixty)
                                                   (Sample.calm (Some 105))))
    = Some 160.
Proof.
  destruct (@rollback_forwards_collected 50 (15 * 60) Sample.retweet_emoji Sample.reply_emoji
              Sample.sixty (feed Sample.sixty) (Sample.calm (Some 105))
              (Sample.calm (Some 105)) (firstn 20 (feed Sample.sixty)) 105)
    as (_ & _ & _ & evs & H1 & H2 & H3 & _ & Hd & H4).
  - reflexivity.
  - vm_compute. reflexivity.
  - vm_compute. reflexivity.
  - destruct H4 as (_ & H5 & H6).
    + vm_compute. intros H. exact H.
    + vm_compute. intros H. exact H.
    + vm_compute. repeat constructor; discriminate.
    + exists evs. split; [exact H1|]. split; [exact H2|]. split; [exact H3|].
      split; [rewrite H5; vm_compute; reflexivity|].
      split.
      * rewrite Hd; [|vm_compute; intros H; exact H]. rewrite H5. vm_compute. reflexivity.
      * unfold Default.update_status. rewrite H6. vm_compute. reflexivity.
Defined.

(** ** Failures of the feed API *)

(** C8, as stated, fails: a [TweepError] raised by the second fetch of a
    truncated post does not abort the cycle.  It is logged, an empty text
    is handed to the bot in place of the post, and the cursor moves onto
    the post. *)
Lemma refetch_failure_counterexample :
  exists wu,
    Default.update_status Sample.two_long [Sample.full_post 2]
                          (Sample.state [ApiOk; ApiOk; ApiError] [] [] (Some 1))
    = Ret tt wu /\
    In (Logged (FetchFailed 2)) (trace wu) /\
    ~ In (Logged UpdateFailed) (trace wu) /\
    handed (trace wu) = [""%string] /\
    last_statusid wu = Some 2.
Proof.
  eexists. split; [vm_compute; reflexivity|].
  split; [vm_compute; tauto|].
  split; [vm_compute; intuition discriminate|].
  split; reflexivity.
Qed.

Lemma listing_failure_aborts_cycle_witness :
  Default.update_status Sample.three [] (Sample.state [ApiError] [] [] (Some 1))
  = Ret tt (emit (Logged UpdateFailed) (Sample.calm (Some 1))) /\
  last_statusid (emit (Logged UpdateFailed) (Sample.calm (Some 1))) = Some 1 /\
  handed (trace (emit (Logged UpdateFailed) (Sample.calm (Some 1)))) = [].
Proof.
  apply (@listing_failure_aborts_cycle 50 (15 * 60) Sample.retweet_emoji Sample.reply_emoji
           Sample.three [] (Sample.state [ApiError] [] [] (Some 1))
           (Sample.calm (Some 1)) TweepError).
  left. vm_compute. reflexivity.
Defined.

(** ** Two calls in a row *)

Lemma sync_twice_forwards_nothing_more_witness :
  handed (trace (world_of (Default.update_status Sample.three (feed Sample.three)
                             (world_of (Default.update_status Sample.three (feed Sample.three)
                                                              (Sample.calm None))))))
  = handed (trace (world_of (Default.update_status Sample.three (feed Sample.three)
                                                   (Sample.calm None)))) /\
  last_statusid (world_of (Default.update_status Sample.three (feed Sample.three)
                             (world_of (Default.update_status Sample.three (feed Sample.three)
                                                              (Sample.calm None)))))
  = last_statusid (world_of (Default.update_status Sample.three (feed Sample.three)
                                                   (Sample.calm None))).
Proof.
  apply (@sync_twice_forwards_nothing_more 50 (15 * 60) Sample.retweet_emoji
           Sample.reply_emoji Sample.three (feed Sample.three) (Sample.calm None)
           (world_of (Default.update_status Sample.three (feed Sample.three)
                                            (Sample.calm None)))).
  - vm_compute. reflexivity.
  - vm_compute. intros H. exact H.
  - vm_compute. repeat constructor; discriminate.
  - reflexivity.
Defined.

(** ** The cursor and the bulk import *)

(** C7, as stated, fails for the bulk import: on a feed of three posts,
    ids unique and newest first, whose newest id is 3, an import started
    with the cursor on 4 (a post that is no longer in the feed) sets the
    cursor back to 3. *)
Lemma dig_update_rewinds_counterexample :
  newest_first (map id (feed Sample.three)) /\
  last_statusid (world_of (Default.dig_update Sample.three [] 2 false (Sample.calm (Some 4))))
  = Some 3 /\
  ~ cursor_le (last_statusid (Sample.calm (Some 4)))
      (last_statusid (world_of (Default.dig_update Sample.three [] 2 false
                                                   (Sample.calm (Some 4))))).
Proof.
  split; [|split].
  - simpl. repeat split; repeat constructor.
  - vm_compute. reflexivity.
  - vm_compute. intros H. apply H. reflexivity.
Qed.

Lemma cursor_never_moves_back_witness :
  cursor_le (last_statusid (Sample.calm (Some 1)))
    (last_statusid (world_of (Default.update_status Sample.three [] (Sample.calm (Some 1)))))
  /\
  cursor_le (last_statusid (Sample.calm (Some 2)))
    (last_statusid (world_of (Default.dig_update [[Sample.post 3; Sample.post 1]] [] 2 false
                                                 (Sample.calm (Some 2))))).
Proof.
  split.
  - apply (@cursor_never_moves_back 50 (15 * 60) Sample.retweet_emoji Sample.reply_emoji
             Sample.three [] (Sample.calm (Some 1))).
    simpl. repeat split; repeat constructor.
  - apply (@cursor_never_moves_back 50 (15 * 60) Sample.retweet_emoji Sample.reply_emoji
             [[Sample.post 3; Sample.post 1]] [] (Sample.calm (Some 2))).
    vm_compute. discriminate.
Defined.

(** ** The staging table *)

(** C9, as stated, fails: when the connection made by [drop_tmp] fails,
    the import returns normally and the staged page is still in the
    staging table. *)
Lemma drop_failure_leaves_staging_counterexample :
  ready (Sample.state [] [] [DbUp; DbUp; DbDown] None) = true /\
  exists w',
    Default.dig_update Sample.three [] 2 false (Sample.state [] [] [DbUp; DbUp; DbDown] None)
    = Ret (Some 2) w' /\
    tmp w' = Some [(1, JsonArray [Default.status_str (Some (Sample.post 3));
                                  Default.status_str (Some (Sample.post 2))])].
Proof.
  split; [reflexivity|]. eexists. split; vm_compute; reflexivity.
Qed.

Lemma dig_update_ends_with_drop_witness :
  ((exists tr, trace (world_of (Default.dig_update Sample.three [] 2 false (Sample.calm None)))
               = tr ++ [Db DropTmp]) /\
   tmp (world_of (Default.dig_update Sample.three [] 2 false (Sample.calm None))) = None)
  \/ ((exists tr, trace (world_of (Default.dig_update Sample.three [] 2 false
                                                      (Sample.calm None)))
                  = tr ++ [Logged DbDeleteFailed]) /\
      In DbDown (db_script (Sample.calm None))).
Proof.
  apply (@dig_update_ends_with_drop (15 * 60) Sample.retweet_emoji Sample.reply_emoji
           Sample.three [] 2 false (Sample.calm None)).
  reflexivity.
Defined.

(** ** Start-up without a database *)

Lemma unreachable_database_disables_persistence_witness :
  ready (world_of (DBStore.init (Sample.state [] [] [DbDown] None))) = false /\
  DBStore.save_keystore (world_of (DBStore.init (Sample.state [] [] [DbDown] None)))
  = Ret tt (world_of (DBStore.init (Sample.state [] [] [DbDown] None))).
Proof.
  destruct (@unreachable_database_disables_persistence 50 (15 * 60) Sample.retweet_emoji
              Sample.reply_emoji Sample.three [] (Sample.state [] [] [DbDown] None) [])
    as [H1 H2].
  - reflexivity.
  - split; [exact H1|]. exact (proj1 (proj2 (H2 _ H1))).
Defined.

(** * Further properties *)

(** ** TelegramBot.send_msg *)

(** X7.  [send_msg] never hands a text to the bot twice.  A call that
    returns has added exactly one verdict of the bot to the trace, on the
    text it was given; a call that is left by a [TelegramError] has added
    none.  Neither touches the cursor or the database. *)
Theorem send_msg_hands_over_once (msg : string) (w : World) :
  exists w' evs,
    moved w w' evs /\ last_statusid w' = last_statusid w /\
    ((TelegramBot.send_msg msg w = Ret tt w' /\
      handed (trace w') = handed (trace w) ++ [msg])
     \/ (TelegramBot.send_msg msg w = Raise TelegramError w' /\
         handed (trace w') = handed (trace w) /\ In BotError (bot_script w))).
Proof.
  destruct (send_msg_spec msg w)
    as (w' & evs & Hm & Hl & [(Hr & pre & v & He & Hq & Hv)|(Hr & Hq & Hin)]);
    exists w', evs; (split; [exact Hm|]); (split; [exact Hl|]).
  - left. split; [exact Hr|]. rewrite (moved_handed Hm). f_equal. subst evs.
    rewrite handed_app, (quiet_handed Hq). destruct Hv as [-> | ->]; reflexivity.
  - right. split; [exact Hr|]. split; [|exact Hin].
    rewrite (moved_handed Hm), (quiet_handed Hq). apply app_nil_r.
Qed.

Lemma send_msg_on_waits (msg : string) (waits : list Z) (rest : list BotOutcome) :
  forall w,
    TelegramBot.send_msg_on (map RetryAfter waits ++ Delivered :: rest) msg w
    = Ret tt
        (mkWorld (api_script w) rest (db_script w) (keystore w) (tmp w) (ready w)
                 (last_statusid w) (persist w)
                 (trace w
                  ++ flat_map (fun secs => [Logged TelegramRateLimited; Slept secs]) waits
                  ++ [Sent msg])).
Proof.
  induction waits as [|secs waits IH]; intros w; simpl.
  - reflexivity.
  - rewrite IH. simpl. rewrite <- !app_assoc. reflexivity.
Qed.

(** X8.  When Telegram answers a message with a run of [RetryAfter]
    before it takes it, [send_msg] sleeps exactly the seconds each
    [RetryAfter] asks for, in order, logging a warning before each sleep,
    and then delivers the text once; nothing else changes. *)
Theorem send_msg_waits_as_told (msg : string) (waits : list Z) (rest : list BotOutcome)
        (w : World) :
  bot_script w = map RetryAfter waits ++ Delivered :: rest ->
  TelegramBot.send_msg msg w
  = Ret tt
      (mkWorld (api_script w) rest (db_script w) (keystore w) (tmp w) (ready w)
               (last_statusid w) (persist w)
               (trace w
                ++ flat_map (fun secs => [Logged TelegramRateLimited; Slept secs]) waits
                ++ [Sent msg])).
Proof.
  intros Hs. unfold TelegramBot.send_msg. rewrite Hs. apply send_msg_on_waits.
Qed.

Lemma send_msg_waits_as_told_witness :
  TelegramBot.send_msg "hello" (Sample.state [] [RetryAfter 5; RetryAfter 7; Delivered; BotError] [] None)
  = Ret tt
      (mkWorld [] [BotError] [] None None true None []
               [Logged TelegramRateLimited; Slept 5; Logged TelegramRateLimited; Slept 7;
                Sent "hello"]).
Proof.
  apply (@send_msg_waits_as_told "hello" [5; 7] [BotError]
           (Sample.state [] [RetryAfter 5; RetryAfter 7; Delivered; BotError] [] None)).
  reflexivity.
Defined.

(** ** The formatter *)

Lemma rangem_from_run (rest : list Mention) (run : list Mention) :
  forall prev j,
    chained prev run ->
    match rest with
    | [] => True
    | gap :: _ => snd (indices (List.last run prev)) + 1 <> fst (indices gap)
    end ->
    Formatter.rangem_from (Some prev) j (snd (indices prev)) (run ++ rest)
    = (j, snd (indices (List.last run prev))).
Proof.
  induction run as [|m run IH]; intros prev j Hchain Hgap.
  - simpl in *. destruct rest as [|gap rest']; [reflexivity|].
    simpl. apply Z.eqb_neq in Hgap. rewrite Hgap. reflexivity.
  - destruct Hchain as [Hnext Hchain]. rewrite last_cons in Hgap |- *.
    simpl. apply Z.eqb_eq in Hnext. rewrite Hnext. simpl.
    exact (IH m j Hchain Hgap).
Qed.

(** X9.  [__rangem] returns the start of the first mention and the end
    of the last mention of the longest leading run in which every mention
    starts one past the end of the one before it: whatever comes after the
    first gap is ignored, even mentions that are again next to each
    other. *)
Theorem rangem_is_leading_run (first : Mention) (run rest : list Mention) :
  chained first run ->
  match rest with
  | [] => True
  | gap :: _ => snd (indices (List.last run first)) + 1 <> fst (indices gap)
  end ->
  Formatter.rangem (first :: run ++ rest)
  = (fst (indices first), snd (indices (List.last run first))).
Proof.
  intros Hchain Hgap. unfold Formatter.rangem. simpl.
  exact (rangem_from_run rest run first (fst (indices first)) Hchain Hgap).
Qed.

Lemma rangem_is_leading_run_witness :
  Formatter.rangem ([mkMention "a" (0, 2); mkMention "b" (3, 5)]
                      ++ [mkMention "c" (10, 12); mkMention "d" (13, 15)])
  = (0, 5).
Proof.
  apply (@rangem_is_leading_run (mkMention "a" (0, 2)) [mkMention "b" (3, 5)]
           [mkMention "c" (10, 12); mkMention "d" (13, 15)]).
  - simpl. auto.
  - simpl. discriminate.
Defined.

Lemma chars_of_sound (s : string) :
  (fst (Py.chars_of s) ++ Py.unchars (snd (Py.chars_of s)))%string = s.
Proof.
  induction s as [|c s IH]; [reflexivity|]. simpl.
  destruct (Py.chars_of s) as [pending cs]. simpl in IH.
  destruct (Py.continues c); simpl; rewrite IH; reflexivity.
Qed.

(** Cutting a text into its characters loses nothing. *)
Lemma unchars_chars (s : string) : Py.unchars (Py.chars s) = s.
Proof.
  pose proof (chars_of_sound s) as H. unfold Py.chars.
  destruct (Py.chars_of s) as [[|c pending] cs]; exact H.
Qed.

Lemma slice_from_0 (s : string) : Py.slice_from 0 s = s.
Proof. unfold Py.slice_from. simpl. apply unchars_chars. Qed.

Lemma string_app_assoc (a b c : string) : ((a ++ b) ++ c = a ++ (b ++ c))%string.
Proof. induction a as [|x a IH]; simpl; [reflexivity|]. rewrite IH. reflexivity. Qed.

(** X10.  With an empty mention list nothing is cut from the front of the
    text.  A post that is not a retweet and has no mentions is rendered as
    its text verbatim, a line break and the footer, reply or not.  A
    retweet whose original has no mentions is rendered as the marker, the
    original author in bold, and the whole text with only the white space
    at its two ends stripped. *)
Theorem status_str_without_mentions (RETWEET_EMOJI REPLY_EMOJI : string) (status : Status) :
  match retweeted_status status with
  | Some rt => rt_mentions rt
  | None => user_mentions status
  end = [] ->
  Formatter.status_str RETWEET_EMOJI REPLY_EMOJI (Some status)
  = match retweeted_status status with
    | None =>
        ((match full_text status with Some ft => ft | None => text status end)
           ++ Formatter.newline ++ footer status)%string
    | Some rt =>
        (RETWEET_EMOJI ++ "  <b>" ++ rt_user rt ++ "</b>" ++ Formatter.newline
           ++ Py.strip (match full_text status with
                        | Some _ => rt_full_text rt
                        | None => text status
                        end)
           ++ Formatter.newline ++ footer status)%string
    end.
Proof.
  unfold Formatter.status_str, footer.
  destruct (retweeted_status status) as [rt|]; intros Hnone; rewrite Hnone.
  - change (Formatter.rangem []) with (0, 0). cbn [snd List.length Nat.eqb negb].
    rewrite slice_from_0, !string_app_assoc. cbn [append]. reflexivity.
  - cbn [List.length Nat.eqb negb]. rewrite andb_false_r.
    destruct (full_text status); rewrite !string_app_assoc; reflexivity.
Qed.

Lemma status_str_without_mentions_witness :
  Default.status_str (Some (Sample.post 7))
  = ("post 7" ++ Formatter.newline ++ footer (Sample.post 7))%string.
Proof.
  apply (@status_str_without_mentions Sample.retweet_emoji Sample.reply_emoji (Sample.post 7)).
  reflexivity.
Defined.

(** ** DBStore: the staging table *)

Lemma set_db_script_same (w : World) : set_db_script (db_script w) w = w.
Proof. destruct w. reflexivity. Qed.

(** With the database up, [pg.connect] connects and only uses up the
    script. *)
Lemma connect_up (w : World) :
  db_up w ->
  exists s, DBStore.connect w = Ret true (set_db_script s w) /\ ~ In DbDown s.
Proof.
  unfold db_up, DBStore.connect. intros Hup.
  destruct (db_script w) as [|[] s] eqn:E.
  - exists []. assert (Hsame : set_db_script [] w = w)
      by (rewrite <- E; apply set_db_script_same).
    rewrite Hsame. auto.
  - exists s. split; [reflexivity|]. intros H. apply Hup. right. exact H.
  - exfalso. apply Hup. left. reflexivity.
Qed.

Lemma find_none_of_existsb {A} (f : A -> bool) (l : list A) :
  existsb f l = false -> find f l = None.
Proof.
  induction l as [|x l IH]; simpl; [reflexivity|].
  destruct (f x); simpl; [discriminate|exact IH].
Qed.

Lemma find_app {A} (f : A -> bool) (a b : list A) :
  find f (a ++ b) = match find f a with Some x => Some x | None => find f b end.
Proof.
  induction a as [|x a IH]; simpl; [reflexivity|]. destruct (f x); [reflexivity|exact IH].
Qed.

Lemma find_updated_rows (key k : Z) (value : Text) (rows : list (Z * Text)) :
  option_map snd
    (find (fun row => fst row =? k)
          (map (fun row => if fst row =? key then (key, value) else row) rows))
  = if k =? key
    then (if DBStore.row_exists key rows then Some value else None)
    else option_map snd (find (fun row => fst row =? k) rows).
Proof.
  unfold DBStore.row_exists.
  induction rows as [|r rows IH]; simpl.
  - destruct (k =? key); reflexivity.
  - destruct (fst r =? key) eqn:Er; simpl.
    + apply Z.eqb_eq in Er. destruct (k =? key) eqn:Ek.
      * apply Z.eqb_eq in Ek. subst k. rewrite Z.eqb_refl. reflexivity.
      * rewrite Z.eqb_sym, Ek. rewrite Er. rewrite Z.eqb_sym, Ek.
        rewrite IH. reflexivity.
    + destruct (fst r =? k) eqn:Erk.
      * apply Z.eqb_eq in Erk. subst k. rewrite Er. reflexivity.
      * exact IH.
Qed.

(** The rows of [tmp] after [save_tmp_value]: a lookup finds the new
    value under the key and what it found before under the others. *)
Lemma find_saved_rows (key k : Z) (value : Text) (rows : list (Z * Text)) :
  option_map snd
    (find (fun row => fst row =? k)
          (if DBStore.row_exists key rows
           then map (fun row => if fst row =? key then (key, value) else row) rows
           else rows ++ [(key, value)]))
  = if k =? key then Some value
    else option_map snd (find (fun row => fst row =? k) rows).
Proof.
  destruct (DBStore.row_exists key rows) eqn:Ex.
  - rewrite find_updated_rows, Ex. reflexivity.
  - rewrite find_app. simpl. destruct (k =? key) eqn:Ek.
    + apply Z.eqb_eq in Ek. subst k.
      unfold DBStore.row_exists in Ex. rewrite (find_none_of_existsb _ _ Ex).
      rewrite Z.eqb_refl. reflexivity.
    + rewrite Z.eqb_sym, Ek. destruct (find (fun row => fst row =? k) rows); reflexivity.
Qed.

Lemma keys_of_saved_rows (key : Z) (value : Text) (rows : list (Z * Text)) :
  NoDup (map fst rows) ->
  NoDup (map fst (if DBStore.row_exists key rows
                  then map (fun row => if fst row =? key then (key, value) else row) rows
                  else rows ++ [(key, value)])).
Proof.
  intros Hnd. destruct (DBStore.row_exists key rows) eqn:Ex.
  - rewrite map_map.
    rewrite (map_ext (fun row => fst (if fst row =? key then (key, value) else row)) fst);
      [exact Hnd|].
    intros r. destruct (fst r =? key) eqn:E; [|reflexivity].
    apply Z.eqb_eq in E. symmetry. exact E.
  - rewrite map_app. simpl.
    assert (Hnot : ~ In key (map fst rows)).
    { intros Hin. apply in_map_iff in Hin. destruct Hin as (r & Hr & Hin).
      unfold DBStore.row_exists in Ex.
      assert (Ht : existsb (fun row => fst row =? key) rows = true).
      { apply existsb_exists. exists r. split; [exact Hin|]. apply Z.eqb_eq. exact Hr. }
      rewrite Ex in Ht. discriminate. }
    clear Ex. induction (map fst rows) as [|x l IH]; simpl.
    + constructor; [intros []|constructor].
    + inversion Hnd as [|? ? Hx Hl]; subst. constructor.
      * intros Hin. apply in_app_or in Hin. destruct Hin as [Hin|[Hin|[]]].
        -- exact (Hx Hin).
        -- apply Hnot. left. symmetry. exact Hin.
      * apply IH; [exact Hl|]. intros Hin. apply Hnot. right. exact Hin.
Qed.

(** A run of [save_tmp_value] on a ready store whose database is up:
    what it does to the staging table and what it leaves alone. *)
Lemma save_tmp_value_run (key : Z) (value : Text) (w : World) :
  ready w = true ->
  db_up w ->
  exists w',
    DBStore.save_tmp_value key value w = Ret tt w' /\
    (forall k, tmp_lookup k w' = if k =? key then Some value else tmp_lookup k w) /\
    (NoDup (tmp_keys w) -> NoDup (tmp_keys w')) /\
    keystore w' = keystore w /\
    ready w' = true /\ db_up w' /\
    api_script w' = api_script w /\ bot_script w' = bot_script w /\
    last_statusid w' = last_statusid w /\ persist w' = persist w /\
    trace w' = trace w ++ [Db (SaveTmp key)].
Proof.
  intros Hready Hup. destruct (connect_up Hup) as (s & Hc & Hs).
  unfold DBStore.save_tmp_value. rewrite Hready. simpl negb. cbv iota.
  unfold bind. rewrite Hc. cbv beta iota. unfold modify, reads. cbv beta iota.
  eexists. split; [reflexivity|]. unfold tmp_lookup, tmp_keys, db_up. simpl.
  split; [|split; [|split; [reflexivity|split; [exact Hready|split; [exact Hs|auto 10]]]]].
  - intros k. rewrite find_saved_rows.
    destruct (tmp w) as [rows|]; [reflexivity|]. simpl. destruct (k =? key); reflexivity.
  - intros Hnd. apply keys_of_saved_rows.
    destruct (tmp w) as [rows|]; [exact Hnd|constructor].
Qed.

(** X11.  [save_tmp_value] with an id that the [INTEGER] column holds,
    on a ready store whose database is up, stores the value under its id
    and leaves every other row as it was: a lookup of the id finds the new
    value, a lookup of any other id finds what it found before; the table
    never gets two rows with one id; the [keystore] table is not
    touched. *)
Theorem save_tmp_value_then_lookup (key : Z) (value : Text) (w : World) :
  ready w = true ->
  db_up w ->
  DBStore.integer key ->
  exists w',
    DBStore.save_tmp_value key value w = Ret tt w' /\
    (forall k, tmp_lookup k w' = if k =? key then Some value else tmp_lookup k w) /\
    (NoDup (tmp_keys w) -> NoDup (tmp_keys w')) /\
    keystore w' = keystore w /\
    ready w' = true /\ db_up w'.
Proof.
  intros Hready Hup _.
  destruct (save_tmp_value_run key value Hready Hup)
    as (w' & H1 & H2 & H3 & H4 & H5 & H6 & _).
  exists w'. auto 10.
Qed.

Lemma save_tmp_value_then_lookup_witness :
  exists w',
    DBStore.save_tmp_value 2 (JsonArray ["b"%string])
      (set_tmp (Some [(1, JsonArray ["a"%string]); (2, NotJson)]) (Sample.calm None))
    = Ret tt w' /\
    tmp_lookup 1 w' = Some (JsonArray ["a"%string]) /\
    tmp_lookup 2 w' = Some (JsonArray ["b"%string]).
Proof.
  destruct (@save_tmp_value_then_lookup 2 (JsonArray ["b"%string])
              (set_tmp (Some [(1, JsonArray ["a"%string]); (2, NotJson)]) (Sample.calm None)))
    as (w' & H1 & H2 & _).
  - reflexivity.
  - vm_compute. intros H. exact H.
  - unfold DBStore.integer. lia.
  - exists w'. split; [exact H1|]. split; [exact (H2 1)|exact (H2 2)].
Defined.

(** What [get_tmp_value] does on a ready store whose database is up. *)
Lemma get_tmp_value_up (key : Z) (w : World) :
  ready w = true ->
  db_up w ->
  exists s,
    ~ In DbDown s /\
    DBStore.get_tmp_value key w
    = match tmp w with
      | Some rows =>
          match find (fun row => fst row =? key) rows with
          | Some row => Ret (Some (snd row)) (emit (Db (GetTmp key)) (set_db_script s w))
          | None => Raise TypeError (emit (Db (GetTmp key)) (set_db_script s w))
          end
      | None => Ret None (emit (Db (GetTmp key)) (set_db_script s w))
      end.
Proof.
  intros Hready Hup. destruct (connect_up Hup) as (s & Hc & Hs).
  exists s. split; [exact Hs|].
  unfold DBStore.get_tmp_value. rewrite Hready. simpl negb. cbv iota.
  unfold bind. rewrite Hc. cbv beta iota. unfold modify, reads. cbv beta iota.
  change (tmp (emit (Db (GetTmp key)) (set_db_script s w))) with (tmp w).
  destruct (tmp w) as [rows|]; [|reflexivity].
  destruct (find (fun row => fst row =? key) rows); reflexivity.
Qed.

(** X12.  What is staged is read back: on a ready store whose database
    is up, [get_tmp_value] of an id that the [INTEGER] column holds, right
    after [save_tmp_value] of that id, returns the value saved, and reading
    changes neither table. *)
Theorem tmp_round_trip (key : Z) (value : Text) (w : World) :
  ready w = true ->
  db_up w ->
  DBStore.integer key ->
  exists w1 w2,
    DBStore.save_tmp_value key value w = Ret tt w1 /\
    DBStore.get_tmp_value key w1 = Ret (Some value) w2 /\
    tmp w2 = tmp w1 /\ keystore w2 = keystore w.
Proof.
  intros Hready Hup _.
  destruct (save_tmp_value_run key value Hready Hup)
    as (w1 & Hsave & Hlook & _ & Hk & Hready1 & Hup1 & _).
  destruct (get_tmp_value_up key Hready1 Hup1) as (s & _ & Hget).
  specialize (Hlook key). rewrite Z.eqb_refl in Hlook. unfold tmp_lookup in Hlook.
  destruct (tmp w1) as [rows|]; [|discriminate].
  destruct (find (fun row => fst row =? key) rows) as [row|]; [|discriminate].
  simpl in Hlook. injection Hlook as Hrow. rewrite Hrow in Hget.
  exists w1. eexists. split; [exact Hsave|]. split; [exact Hget|].
  split; [reflexivity|exact Hk].
Qed.

Lemma tmp_round_trip_witness :
  exists w1 w2,
    DBStore.save_tmp_value 1 (JsonArray ["a"%string]) (Sample.calm None) = Ret tt w1 /\
    DBStore.get_tmp_value 1 w1 = Ret (Some (JsonArray ["a"%string])) w2 /\
    tmp w2 = tmp w1 /\ keystore w2 = keystore (Sample.calm None).
Proof.
  apply (@tmp_round_trip 1 (JsonArray ["a"%string]) (Sample.calm None)).
  - reflexivity.
  - vm_compute. intros H. exact H.
  - unfold DBStore.integer. lia.
Defined.

(** X13.  The three answers of [get_tmp_value] on a ready store whose
    database is up: the stored value when the row exists; [None] when the
    [tmp] table does not exist; and, when the table exists but holds no row
    under the key, a [TypeError] that the function does not catch (it
    subscripts the [None] that [fetchone] returned). *)
Theorem get_tmp_value_answers (key : Z) (w : World) :
  ready w = true ->
  db_up w ->
  exists w',
    tmp w' = tmp w /\
    DBStore.get_tmp_value key w
    = match tmp w with
      | None => Ret None w'
      | Some _ =>
          match tmp_lookup key w with
          | Some value => Ret (Some value) w'
          | None => Raise TypeError w'
          end
      end.
Proof.
  intros Hready Hup. destruct (get_tmp_value_up key Hready Hup) as (s & _ & Hget).
  exists (emit (Db (GetTmp key)) (set_db_script s w)). split; [reflexivity|].
  rewrite Hget. unfold tmp_lookup. destruct (tmp w) as [rows|]; [|reflexivity].
  destruct (find (fun row => fst row =? key) rows); reflexivity.
Qed.

Lemma get_tmp_value_answers_witness :
  exists w',
    DBStore.get_tmp_value 5 (set_tmp (Some [(1, NotJson)]) (Sample.calm None))
    = Raise TypeError w'.
Proof.
  destruct (@get_tmp_value_answers 5 (set_tmp (Some [(1, NotJson)]) (Sample.calm None)))
    as (w' & _ & H).
  - reflexivity.
  - vm_compute. intros H. exact H.
  - exists w'. exact H.
Defined.

(** X14.  [drop_tmp] does not look at [ready]: whenever its connection
    is made it leaves no [tmp] table, on a store that is not ready as well,
    and it leaves the [keystore] table and the cursor alone; dropping a
    table that does not exist is not an error. *)
Theorem drop_tmp_whatever_ready (w : World) :
  db_up w ->
  exists w',
    DBStore.drop_tmp w = Ret tt w' /\
    tmp w' = None /\ keystore w' = keystore w /\
    last_statusid w' = last_statusid w /\ ready w' = ready w /\ db_up w'.
Proof.
  intros Hup. destruct (connect_up Hup) as (s & Hc & Hs).
  unfold DBStore.drop_tmp, bind. rewrite Hc. cbv beta iota.
  eexists. split; [reflexivity|]. unfold db_up. simpl. auto 10.
Qed.

Lemma drop_tmp_whatever_ready_witness :
  exists w',
    DBStore.drop_tmp (set_ready false (set_tmp (Some [(1, NotJson)]) (Sample.calm None)))
    = Ret tt w' /\
    tmp w' = None.
Proof.
  destruct (@drop_tmp_whatever_ready
              (set_ready false (set_tmp (Some [(1, NotJson)]) (Sample.calm None))))
    as (w' & H1 & H2 & _).
  - vm_compute. intros H. exact H.
  - exists w'. auto.
Defined.

(** X15.  When the connection fails, every operation of a ready store
    swallows the failure: it returns (nothing, for the reads [None]) after
    logging one error, and the two tables and the [persist] dictionary are
    as they were. *)
Theorem database_down_is_swallowed (w : World) (s : list DbOutcome) (key : Z) (value : Text) :
  ready w = true ->
  db_script w = DbDown :: s ->
  DBStore.load_keystore w = Ret tt (emit (Logged DbReadFailed) (set_db_script s w)) /\
  DBStore.save_keystore w = Ret tt (emit (Logged DbWriteFailed) (set_db_script s w)) /\
  DBStore.save_tmp_value key value w
  = Ret tt (emit (Logged DbWriteFailed) (set_db_script s w)) /\
  DBStore.get_tmp_value key w = Ret None (emit (Logged DbReadFailed) (set_db_script s w)) /\
  DBStore.drop_tmp w = Ret tt (emit (Logged DbDeleteFailed) (set_db_script s w)) /\
  forall e,
    keystore (emit e (set_db_script s w)) = keystore w /\
    tmp (emit e (set_db_script s w)) = tmp w /\
    persist (emit e (set_db_script s w)) = persist w.
Proof.
  intros Hready Hdown.
  unfold DBStore.load_keystore, DBStore.save_keystore, DBStore.save_tmp_value,
    DBStore.get_tmp_value, DBStore.drop_tmp, bind, DBStore.connect.
  rewrite Hready, Hdown. simpl. auto 10.
Qed.

Lemma database_down_is_swallowed_witness :
  DBStore.save_keystore (Sample.state [] [] [DbDown] (Some 3))
  = Ret tt (emit (Logged DbWriteFailed) (Sample.calm (Some 3))).
Proof.
  destruct (@database_down_is_swallowed (Sample.state [] [] [DbDown] (Some 3)) [] 1 NotJson)
    as (_ & H & _).
  - reflexivity.
  - reflexivity.
  - exact H.
Defined.

(** ** DBStore: the keystore table *)

Lemma dict_get_set_other {V} (key k : string) (v : V) (d : list (string * V)) :
  String.eqb key k = false ->
  Py.dict_get k (Py.dict_set key v d) = Py.dict_get k d.
Proof.
  intros Hk. induction d as [|[k0 v0] d IH]; simpl.
  - rewrite Hk. reflexivity.
  - destruct (String.eqb k0 key) eqn:E; simpl.
    + apply String.eqb_eq in E. subst k0. rewrite Hk. reflexivity.
    + rewrite IH. reflexivity.
Qed.

Lemma dict_get_in {V} (k : string) (v : V) (d : list (string * V)) :
  Py.dict_get k d = Some v -> In (k, v) d.
Proof.
  induction d as [|[k0 v0] d IH]; simpl; [discriminate|].
  destruct (String.eqb k0 k) eqn:E.
  - apply String.eqb_eq in E. intros H. injection H as H. subst. left. reflexivity.
  - intros H. right. exact (IH H).
Qed.

Lemma dict_get_none {V} (k : string) (d : list (string * V)) :
  ~ In k (map fst d) -> Py.dict_get k d = None.
Proof.
  induction d as [|[k0 v0] d IH]; simpl; [reflexivity|]. intros Hnot.
  destruct (String.eqb k0 k) eqn:E.
  - apply String.eqb_eq in E. exfalso. apply Hnot. left. exact E.
  - apply IH. intros Hin. apply Hnot. right. exact Hin.
Qed.

Lemma dict_get_updated_rows (key k : string) (c : option string)
      (rows : list (string * option string)) :
  Py.dict_get k (map (fun row => if String.eqb (fst row) key then (key, c) else row) rows)
  = if String.eqb k key
    then (if DBStore.key_exists key rows then Some c else None)
    else Py.dict_get k rows.
Proof.
  unfold DBStore.key_exists.
  induction rows as [|[k0 c0] rows IH]; simpl.
  - destruct (String.eqb k key); reflexivity.
  - destruct (String.eqb k0 key) eqn:E0; simpl.
    + apply String.eqb_eq in E0. subst k0. rewrite (String.eqb_sym key k).
      destruct (String.eqb k key) eqn:Ek; [reflexivity|]. exact IH.
    + destruct (String.eqb k0 k) eqn:E0k.
      * apply String.eqb_eq in E0k. subst k0. rewrite E0. reflexivity.
      * exact IH.
Qed.

Lemma dict_get_app {V} (k : string) (a b : list (string * V)) :
  Py.dict_get k (a ++ b)
  = match Py.dict_get k a with Some v => Some v | None => Py.dict_get k b end.
Proof.
  induction a as [|[k0 v0] a IH]; simpl; [reflexivity|].
  destruct (String.eqb k0 k); [reflexivity|exact IH].
Qed.

Lemma dict_get_no_key (k : string) (rows : list (string * option string)) :
  DBStore.key_exists k rows = false -> Py.dict_get k rows = None.
Proof.
  unfold DBStore.key_exists. induction rows as [|[k0 c0] rows IH]; simpl; [reflexivity|].
  destruct (String.eqb k0 k); simpl; [discriminate|exact IH].
Qed.

(** One [UPDATE]-or-[INSERT] of [save_keystore], as a lookup sees it. *)
Lemma dict_get_upsert (key k : string) (v : Py.val) (rows : list (string * option string)) :
  Py.dict_get k (DBStore.upsert rows (key, v))
  = if String.eqb k key then Some (DBStore.adapt v) else Py.dict_get k rows.
Proof.
  unfold DBStore.upsert. destruct (DBStore.key_exists key rows) eqn:Ex.
  - rewrite dict_get_updated_rows, Ex. reflexivity.
  - rewrite dict_get_app. simpl. rewrite (String.eqb_sym key k).
    destruct (String.eqb k key) eqn:Ek.
    + apply String.eqb_eq in Ek. subst k. rewrite (dict_get_no_key _ _ Ex). reflexivity.
    + destruct (Py.dict_get k rows); reflexivity.
Qed.

Lemma dict_get_fold_upsert (k : string) (values : list (string * Py.val)) :
  NoDup (map fst values) ->
  forall rows,
    Py.dict_get k (fold_left DBStore.upsert values rows)
    = match Py.dict_get k values with
      | Some v => Some (DBStore.adapt v)
      | None => Py.dict_get k rows
      end.
Proof.
  induction values as [|[key v] values IH]; intros Hnd rows; [reflexivity|].
  inversion Hnd as [|? ? Hkey Hrest]; subst. cbn [fold_left].
  rewrite (IH Hrest), dict_get_upsert. simpl. rewrite (String.eqb_sym key k).
  destruct (String.eqb k key) eqn:Ek.
  - apply String.eqb_eq in Ek. subst k. rewrite (dict_get_none _ _ Hkey). reflexivity.
  - reflexivity.
Qed.

(** What [save_keystore] does on a ready store whose database is up. *)
Lemma save_keystore_up (w : World) :
  ready w = true ->
  db_up w ->
  exists s,
    ~ In DbDown s /\
    DBStore.save_keystore w
    = Ret tt (set_keystore
                (Some (fold_left DBStore.upsert (persist w)
                                 match keystore w with Some rows => rows | None => [] end))
                (emit (Db SaveKeystore) (set_db_script s w))).
Proof.
  intros Hready Hup. destruct (connect_up Hup) as (s & Hc & Hs).
  exists s. split; [exact Hs|].
  unfold DBStore.save_keystore. rewrite Hready. simpl negb. cbv iota.
  unfold bind. rewrite Hc. reflexivity.
Qed.

(** X16.  [save_keystore] on a ready store whose database is up writes
    every entry of the dictionary into the [keystore] table, as text (an
    [int] in decimal, [None] as NULL), and leaves the rows of every other
    key as they were: it never deletes a row.  The dictionary and the
    staging table are not changed. *)
Theorem save_keystore_then_lookup (w : World) :
  ready w = true ->
  db_up w ->
  NoDup (map fst (persist w)) ->
  exists w',
    DBStore.save_keystore w = Ret tt w' /\
    (forall k, keystore_lookup k w'
               = match Py.dict_get k (persist w) with
                 | Some v => Some (DBStore.adapt v)
                 | None => keystore_lookup k w
                 end) /\
    persist w' = persist w /\ tmp w' = tmp w /\ ready w' = true /\ db_up w'.
Proof.
  intros Hready Hup Hnd. destruct (save_keystore_up Hready Hup) as (s & Hs & Hsave).
  eexists. split; [exact Hsave|]. unfold keystore_lookup, db_up. simpl.
  split; [|auto]. intros k. rewrite (@dict_get_fold_upsert k _ Hnd).
  destruct (keystore w); reflexivity.
Qed.

Lemma save_keystore_then_lookup_witness :
  exists w',
    DBStore.save_keystore
      (set_persist [("last_statusid"%string, Py.VInt 42); ("channel_id"%string, Py.VNone)]
         (set_keystore (Some [("other"%string, Some "x"%string)]) (Sample.calm None)))
    = Ret tt w' /\
    keystore_lookup "last_statusid" w' = Some (Some "42"%string) /\
    keystore_lookup "channel_id" w' = Some None /\
    keystore_lookup "other" w' = Some (Some "x"%string).
Proof.
  destruct (@save_keystore_then_lookup
              (set_persist [("last_statusid"%string, Py.VInt 42);
                            ("channel_id"%string, Py.VNone)]
                 (set_keystore (Some [("other"%string, Some "x"%string)])
                               (Sample.calm None))))
    as (w' & H1 & H2 & _).
  - reflexivity.
  - vm_compute. intros H. exact H.
  - vm_compute. repeat constructor; simpl; intuition discriminate.
  - exists w'. split; [exact H1|].
    split; [exact (H2 "last_statusid"%string)|].
    split; [exact (H2 "channel_id"%string)|exact (H2 "other"%string)].
Defined.

Lemma upsert_holds_key (key : string) (v : Py.val) (rows : list (string * option string)) :
  holds key (DBStore.adapt v) (DBStore.upsert rows (key, v)).
Proof.
  unfold holds, DBStore.upsert. destruct (DBStore.key_exists key rows) eqn:Ex.
  - split.
    + unfold DBStore.key_exists in Ex. apply existsb_exists in Ex.
      destruct Ex as (r & Hin & Hr). exists (key, DBStore.adapt v). split; [|reflexivity].
      apply in_map_iff. exists r. rewrite Hr. auto.
    + intros row Hin Hrow. apply in_map_iff in Hin. destruct Hin as (r & Hr & _).
      destruct (String.eqb (fst r) key) eqn:E.
      * subst row. reflexivity.
      * subst row. apply String.eqb_neq in E. contradiction.
  - split.
    + exists (key, DBStore.adapt v). split; [|reflexivity]. apply in_or_app. right. left.
      reflexivity.
    + intros row Hin Hrow. apply in_app_or in Hin. destruct Hin as [Hin|[Hin|[]]].
      * exfalso. unfold DBStore.key_exists in Ex.
        assert (Ht : existsb (fun r => String.eqb (fst r) key) rows = true).
        { apply existsb_exists. exists row. split; [exact Hin|].
          apply String.eqb_eq. exact Hrow. }
        rewrite Ex in Ht. discriminate.
      * subst row. reflexivity.
Qed.

Lemma upsert_holds_other (key k : string) (v : Py.val) (c : option string)
      (rows : list (string * option string)) :
  k <> key ->
  holds k c rows ->
  holds k c (DBStore.upsert rows (key, v)).
Proof.
  intros Hk ((r & Hin & Hr) & Hall). unfold holds, DBStore.upsert.
  destruct (DBStore.key_exists key rows).
  - split.
    + exists r. split; [|exact Hr]. apply in_map_iff. exists r.
      destruct (String.eqb (fst r) key) eqn:E; [|auto].
      apply String.eqb_eq in E. exfalso. apply Hk. rewrite <- Hr. exact E.
    + intros row Hrow Hfst. apply in_map_iff in Hrow. destruct Hrow as (r0 & Hr0 & Hin0).
      destruct (String.eqb (fst r0) key) eqn:E.
      * subst row. simpl in Hfst. exfalso. apply Hk. symmetry. exact Hfst.
      * subst row. exact (Hall _ Hin0 Hfst).
  - split.
    + exists r. split; [|exact Hr]. apply in_or_app. left. exact Hin.
    + intros row Hrow Hfst. apply in_app_or in Hrow. destruct Hrow as [Hrow|[Hrow|[]]].
      * exact (Hall _ Hrow Hfst).
      * subst row. simpl in Hfst. exfalso. apply Hk. symmetry. exact Hfst.
Qed.

Lemma fold_upsert_keeps (k : string) (c : option string) (values : list (string * Py.val)) :
  ~ In k (map fst values) ->
  forall rows, holds k c rows -> holds k c (fold_left DBStore.upsert values rows).
Proof.
  induction values as [|[key v] values IH]; simpl; intros Hnot rows H; [exact H|].
  apply IH.
  - intros Hin. apply Hnot. right. exact Hin.
  - apply upsert_holds_other; [|exact H]. intros E. apply Hnot. left. symmetry. exact E.
Qed.

Lemma fold_upsert_holds (k : string) (v : Py.val) (values : list (string * Py.val)) :
  NoDup (map fst values) ->
  In (k, v) values ->
  forall rows, holds k (DBStore.adapt v) (fold_left DBStore.upsert values rows).
Proof.
  induction values as [|[key v0] values IH]; simpl; intros Hnd Hin rows; [destruct Hin|].
  inversion Hnd as [|? ? Hkey Hrest]; subst. destruct Hin as [Hin|Hin].
  - injection Hin as Hk Hv. subst key v0.
    apply fold_upsert_keeps; [exact Hkey|]. apply upsert_holds_key.
  - apply IH; assumption.
Qed.

(** The dictionary that [load_keystore] leaves: the rows are read in
    order, a later row with the same key replacing an earlier one. *)
Lemma dict_get_loaded (k : string) (rows : list (string * option string)) :
  forall d,
    Py.dict_get k
      (fold_left (fun d row => Py.dict_set (fst row) (DBStore.of_column (snd row)) d) rows d)
    = match find (fun row => String.eqb (fst row) k) (rev rows) with
      | Some row => Some (DBStore.of_column (snd row))
      | None => Py.dict_get k d
      end.
Proof.
  induction rows as [|r rows IH]; simpl; intros d; [reflexivity|].
  rewrite IH, find_app. destruct (find (fun row => String.eqb (fst row) k) (rev rows));
    [reflexivity|]. simpl.
  destruct (String.eqb (fst r) k) eqn:E.
  - apply String.eqb_eq in E. subst k. apply dict_get_set.
  - apply dict_get_set_other. exact E.
Qed.

Lemma dict_get_loaded_holds (k : string) (c : option string)
      (rows : list (string * option string)) (d : list (string * Py.val)) :
  holds k c rows ->
  Py.dict_get k
    (fold_left (fun d row => Py.dict_set (fst row) (DBStore.of_column (snd row)) d) rows d)
  = Some (DBStore.of_column c).
Proof.
  intros ((r & Hin & Hr) & Hall). rewrite dict_get_loaded.
  destruct (find (fun row => String.eqb (fst row) k) (rev rows)) as [row|] eqn:E.
  - apply find_some in E. destruct E as (Hrow & Hk). apply String.eqb_eq in Hk.
    apply in_rev in Hrow. rewrite (Hall _ Hrow Hk). reflexivity.
  - apply in_rev in Hin. pose proof (find_none _ _ E r Hin) as Hno. cbv beta in Hno.
    apply String.eqb_neq in Hno. contradiction.
Qed.

(** X17.  What is saved is loaded back, as text: after [save_keystore]
    on a ready store whose database is up, [load_keystore] into any
    dictionary [d] (the empty one of a restarted program, say) gives each key
    of the saved dictionary the text form of its saved value: the cursor
    saved as the [int] [n] comes back as the string [str(n)], a string as
    itself and [None] as [None]. *)
Theorem keystore_round_trip (w : World) (d : list (string * Py.val)) :
  ready w = true ->
  db_up w ->
  NoDup (map fst (persist w)) ->
  exists w1 w2,
    DBStore.save_keystore w = Ret tt w1 /\
    DBStore.load_keystore (set_persist d w1) = Ret tt w2 /\
    (forall k v, Py.dict_get k (persist w) = Some v ->
                 Py.dict_get k (persist w2) = Some (DBStore.of_column (DBStore.adapt v))) /\
    (forall n, Py.dict_get "last_statusid" (persist w) = Some (Py.VInt n) ->
               Py.dict_get "last_statusid" (persist w2) = Some (Py.VStr (Py.str_of_int n))) /\
    keystore w2 = keystore w1 /\ tmp w2 = tmp w.
Proof.
  intros Hready Hup Hnd. destruct (save_keystore_up Hready Hup) as (s & Hs & Hsave).
  match type of Hsave with _ = Ret tt ?x => set (w1 := x) in * end.
  assert (Hup1 : db_up (set_persist d w1)) by exact Hs.
  destruct (connect_up Hup1) as (s1 & Hc1 & _).
  exists w1. eexists. split; [exact Hsave|]. split.
  { unfold DBStore.load_keystore. change (ready (set_persist d w1)) with (ready w).
    rewrite Hready. simpl negb. cbv iota. unfold bind. rewrite Hc1. reflexivity. }
  assert (Hget : forall k v, Py.dict_get k (persist w) = Some v ->
            Py.dict_get k
              (fold_left (fun d row => Py.dict_set (fst row) (DBStore.of_column (snd row)) d)
                 (fold_left DBStore.upsert (persist w)
                    match keystore w with Some rows => rows | None => [] end) d)
            = Some (DBStore.of_column (DBStore.adapt v))).
  { intros k v Hk. apply dict_get_loaded_holds.
    apply fold_upsert_holds; [exact Hnd|]. apply dict_get_in. exact Hk. }
  split; [exact Hget|]. split; [|split; reflexivity].
  intros n Hn. exact (Hget _ _ Hn).
Qed.

Lemma keystore_round_trip_witness :
  exists w1 w2,
    DBStore.save_keystore
      (set_persist [("last_statusid"%string, Py.VInt 42)] (Sample.calm (Some 42)))
    = Ret tt w1 /\
    DBStore.load_keystore (set_persist [] w1) = Ret tt w2 /\
    Py.dict_get "last_statusid" (persist w2) = Some (Py.VStr "42").
Proof.
  destruct (@keystore_round_trip
              (set_persist [("last_statusid"%string, Py.VInt 42)] (Sample.calm (Some 42))) [])
    as (w1 & w2 & H1 & H2 & _ & H4 & _).
  - reflexivity.
  - vm_compute. intros H. exact H.
  - vm_compute. repeat constructor; simpl; intuition.
  - exists w1, w2. split; [exact H1|]. split; [exact H2|]. exact (H4 42 eq_refl).
Defined.

(** ** The extras of the engine on concrete feeds *)


Lemma update_status_on_empty_feed_witness :
  exists w',
    Default.update_status [] [] (Sample.calm None) = Raise IndexError w' /\
    handed (trace w') = [] /\ last_statusid w' = None.
Proof.
  apply (@update_status_on_empty_feed 50 (15 * 60) Sample.retweet_emoji Sample.reply_emoji
           [] [] (Sample.calm None)).
  - reflexivity.
  - vm_compute. intros H. exact H.
Defined.

Lemma update_hook_raise_persists_nothing_witness :
  Default.update_status Sample.three [] (Sample.state [] [BotError] [] None)
  = Raise TelegramError (Sample.calm None) /\
  persist (Sample.calm None) = [] /\
  keystore (Sample.calm None) = None /\
  dbs (trace (Sample.calm None)) = [].
Proof.
  apply (@update_hook_raise_persists_nothing 50 (15 * 60) Sample.retweet_emoji
           Sample.reply_emoji Sample.three [] (Sample.state [] [BotError] [] None)
           (Sample.calm None) TelegramError).
  vm_compute. reflexivity.
Defined.


(** ** The bulk import when nothing fails *)

Lemma nominal_emit (e : Event) (w : World) : nominal w -> nominal (emit e w).
Proof. intros H. exact H. Qed.

Lemma handed_emit_quiet (e : Event) (w : World) :
  quiet_event e -> handed (trace (emit e w)) = handed (trace w).
Proof.
  intros He. simpl. rewrite handed_app.
  rewrite (@quiet_handed [e]); [apply app_nil_r|]. constructor; [exact He|constructor].
Qed.

(** A step that only the Twitter and Telegram collaborators take part in,
    and that adds sleeps and log records only. *)
Lemma quiet_step (w w' : World) (evs : list Event) :
  moved w w' evs -> quiet evs -> last_statusid w' = last_statusid w ->
  nominal w ->
  nominal w' /\ last_statusid w' = last_statusid w /\ tmp w' = tmp w /\
  handed (trace w') = handed (trace w).
Proof.
  intros Hm Hq Hl (Hr & Hd & Ha & Hb). split.
  - split; [rewrite (mv_ready Hm); exact Hr|].
    split; [unfold db_up; rewrite (mv_db Hm); exact Hd|].
    split; [exact (moved_clean Hm Ha)|exact (moved_polite Hm Hb)].
  - split; [exact Hl|]. split; [exact (mv_tmp Hm)|].
    rewrite (moved_handed Hm), (quiet_handed Hq). apply app_nil_r.
Qed.

Lemma last_item_app {A} (a b : list A) :
  Py.last_item (a ++ b)
  = match Py.last_item b with Some x => Some x | None => Py.last_item a end.
Proof.
  unfold Py.last_item. rewrite rev_app_distr.
  destruct (rev b); [rewrite app_nil_l|]; reflexivity.
Qed.

Lemma last_item_none {A} (l : list A) : Py.last_item l = None -> l = [].
Proof.
  unfold Py.last_item. intros H. destruct (rev l) eqn:E; [|discriminate].
  rewrite <- (rev_involutive l), E. reflexivity.
Qed.

Lemma concat_leading (c : PageCursor) : List.concat (leading c) = feed c.
Proof.
  induction c as [|[|st page] rest IH]; simpl; [reflexivity|reflexivity|].
  rewrite IH. reflexivity.
Qed.

(** The pages of an import, one turn of its first loop at a time. *)
Lemma dug_from_cons (all : bool) (f r : Z) (st : Status) (page : list Status)
      (rest : PageCursor) (i : nat) :
  dug_from all f r ((st :: page) :: rest) i
  = (if negb all && (f - Z.of_nat i <=? 0) && (0 <? r)
     then firstn (Z.to_nat r) (st :: page) else st :: page)
      :: (if negb all && (f <=? Z.of_nat (S i)) then []
          else dug_from all f r rest (S i)).
Proof.
  unfold dug_from. destruct all; cbn [negb andb leading]; [reflexivity|].
  destruct (Z.of_nat i <? f) eqn:Ei.
  - apply Z.ltb_lt in Ei.
    replace (f - Z.of_nat i <=? 0) with false by (symmetry; apply Z.leb_gt; lia).
    cbn [andb].
    replace (Z.to_nat (f - Z.of_nat i)) with (S (Z.to_nat (f - Z.of_nat (S i)))) by lia.
    cbn [firstn]. f_equal.
    destruct (f <=? Z.of_nat (S i)) eqn:Es.
    + apply Z.leb_le in Es. replace (Z.to_nat (f - Z.of_nat (S i))) with 0%nat by lia.
      reflexivity.
    + apply Z.leb_gt in Es.
      replace (Z.of_nat (S i) <? f) with true by (symmetry; apply Z.ltb_lt; lia).
      reflexivity.
  - apply Z.ltb_ge in Ei.
    replace (f - Z.of_nat i <=? 0) with true by (symmetry; apply Z.leb_le; lia).
    replace (f <=? Z.of_nat (S i)) with true by (symmetry; apply Z.leb_le; lia).
    reflexivity.
Qed.

Lemma dug_from_none (all : bool) (f r : Z) (c : PageCursor) (i : nat) :
  leading c = [] -> dug_from all f r c i = [].
Proof.
  intros H. unfold dug_from. rewrite H. rewrite firstn_nil.
  destruct all; [reflexivity|]. destruct (Z.of_nat i <? f); reflexivity.
Qed.

Lemma dug_from_start (count : Z) (all : bool) (c : PageCursor) :
  List.concat (dug_from all (count / 20) (count mod 20) c 0) = dug count all c.
Proof.
  unfold dug_from, dug. destruct all; [apply concat_leading|].
  change (Z.of_nat 0) with 0. rewrite Z.sub_0_r.
  destruct (0 <? count / 20); [reflexivity|].
  destruct (leading c) as [|page pages]; [reflexivity|].
  simpl. apply app_nil_r.
Qed.

Section DigFacts.

Variable ratelimit_wait : Z.
Variables RETWEET_EMOJI REPLY_EMOJI : string.
Variable timeline : PageCursor.
Variable statuses : list Status.

Local Notation rtlimt := (TweetDrasta.rtlimt ratelimit_wait).
Local Notation check_status := (TweetDrasta.check_status ratelimit_wait statuses).
Local Notation status_str := (TweetDrasta.status_str RETWEET_EMOJI REPLY_EMOJI).
Local Notation render_all :=
  (TweetDrasta.render_all ratelimit_wait RETWEET_EMOJI REPLY_EMOJI statuses).
Local Notation dig_fetch :=
  (TweetDrasta.dig_fetch ratelimit_wait RETWEET_EMOJI REPLY_EMOJI statuses).
Local Notation dig_try :=
  (TweetDrasta.dig_try ratelimit_wait RETWEET_EMOJI REPLY_EMOJI timeline statuses).
Local Notation dig_update :=
  (TweetDrasta.dig_update ratelimit_wait RETWEET_EMOJI REPLY_EMOJI timeline statuses).
Local Notation checked := (TweetDrasta.checked statuses).
Local Notation render := (fun st => status_str (checked st)).

Lemma rtlimt_nominal (w : World) :
  nominal w ->
  exists w',
    rtlimt w = Ret tt w' /\
    nominal w' /\ last_statusid w' = last_statusid w /\ tmp w' = tmp w /\
    handed (trace w') = handed (trace w).
Proof.
  intros Hn.
  destruct (rtlimt_spec ratelimit_wait w) as (w' & evs & Hm & Hq & Hl & [Hr|[_ Hin]]).
  - exists w'. split; [exact Hr|]. exact (quiet_step Hm Hq Hl Hn).
  - exfalso. destruct Hn as (_ & _ & Ha & _). exact (Ha Hin).
Qed.

Lemma render_all_nominal (page : list Status) :
  forall w,
    nominal w ->
    exists w',
      render_all page w = Ret (map render page) w' /\
      nominal w' /\ last_statusid w' = last_statusid w /\ tmp w' = tmp w /\
      handed (trace w') = handed (trace w).
Proof.
  induction page as [|st page IH]; intros w Hn.
  - exists w. split; [reflexivity|]. auto.
  - cbn [TweetDrasta.render_all map]. unfold bind.
    destruct (check_status_spec ratelimit_wait RETWEET_EMOJI REPLY_EMOJI statuses st w)
      as (w1 & evs & r & Hc & Hm & Hq & Hl & _ & Hr).
    rewrite Hc. rewrite (Hr (proj1 (proj2 (proj2 Hn)))).
    destruct (quiet_step Hm Hq Hl Hn) as (Hn1 & Hl1 & Ht1 & Hh1).
    destruct (IH w1 Hn1) as (w2 & Hr2 & Hn2 & Hl2 & Ht2 & Hh2). rewrite Hr2.
    exists w2. split; [reflexivity|]. split; [exact Hn2|].
    split; [congruence|]. split; congruence.
Qed.

Lemma save_tmp_value_nominal (key : Z) (value : Text) (w : World) :
  nominal w ->
  exists w',
    DBStore.save_tmp_value key value w = Ret tt w' /\
    nominal w' /\ last_statusid w' = last_statusid w /\
    handed (trace w') = handed (trace w) /\
    forall k, tmp_lookup k w' = if k =? key then Some value else tmp_lookup k w.
Proof.
  intros (Hr & Hd & Ha & Hb).
  destruct (save_tmp_value_run key value Hr Hd)
    as (w' & Hs & Hlook & _ & _ & Hr' & Hd' & Ha' & Hb' & Hl' & _ & Ht').
  exists w'. split; [exact Hs|]. split.
  { split; [exact Hr'|]. split; [exact Hd'|].
    unfold api_clean, bot_polite. rewrite Ha', Hb'. auto. }
  split; [exact Hl'|]. split; [|exact Hlook].
  rewrite Ht', handed_app. apply app_nil_r.
Qed.

Lemma get_tmp_value_nominal (key : Z) (value : Text) (w : World) :
  nominal w ->
  tmp_lookup key w = Some value ->
  exists w',
    DBStore.get_tmp_value key w = Ret (Some value) w' /\
    nominal w' /\ last_statusid w' = last_statusid w /\ tmp w' = tmp w /\
    handed (trace w') = handed (trace w).
Proof.
  intros (Hr & Hd & Ha & Hb) Hlook.
  destruct (get_tmp_value_up key Hr Hd) as (s & Hs & Hget).
  unfold tmp_lookup in Hlook. destruct (tmp w) as [rows|] eqn:Et; [|discriminate].
  destruct (find (fun row => fst row =? key) rows) as [row|]; [|discriminate].
  simpl in Hlook. injection Hlook as Hrow. rewrite Hrow in Hget.
  eexists. split; [exact Hget|]. split.
  { split; [exact Hr|]. split; [exact Hs|]. split; [exact Ha|exact Hb]. }
  split; [reflexivity|]. split; [exact Et|].
  simpl. rewrite handed_app. apply app_nil_r.
Qed.

Lemma drop_tmp_nominal (w : World) :
  nominal w ->
  exists w',
    DBStore.drop_tmp w = Ret tt w' /\
    nominal w' /\ last_statusid w' = last_statusid w /\ tmp w' = None /\
    handed (trace w') = handed (trace w) /\
    keystore w' = keystore w /\ persist w' = persist w.
Proof.
  intros (Hr & Hd & Ha & Hb). destruct (connect_up Hd) as (s & Hc & Hs).
  unfold DBStore.drop_tmp, bind. rewrite Hc. cbv beta iota.
  eexists. split; [reflexivity|]. split.
  { split; [exact Hr|]. split; [exact Hs|]. split; [exact Ha|exact Hb]. }
  split; [reflexivity|]. split; [reflexivity|]. split; [|split; reflexivity].
  simpl. rewrite handed_app. apply app_nil_r.
Qed.

Lemma send_all_nominal (msgs : list string) :
  forall w,
    nominal w ->
    exists w',
      TweetDrasta.send_all msgs w = Ret tt w' /\
      nominal w' /\ last_statusid w' = last_statusid w /\ tmp w' = tmp w /\
      handed (trace w') = handed (trace w) ++ msgs.
Proof.
  induction msgs as [|msg msgs IH]; intros w Hn.
  - exists w. split; [reflexivity|]. rewrite app_nil_r. auto.
  - cbn [TweetDrasta.send_all]. unfold bind.
    destruct (send_msg_spec msg w)
      as (w1 & evs & Hm & Hl & [(Hs & pre & v & He & Hq & Hv)|(_ & _ & Hin)]).
    2:{ exfalso. destruct Hn as (_ & _ & _ & Hb). exact (Hb Hin). }
    rewrite Hs. unfold sleep, modify.
    assert (Hn1 : nominal (emit (Slept 3) w1)).
    { apply nominal_emit. destruct Hn as (Hr & Hd & Ha & Hb).
      split; [rewrite (mv_ready Hm); exact Hr|].
      split; [unfold db_up; rewrite (mv_db Hm); exact Hd|].
      split; [exact (moved_clean Hm Ha)|exact (moved_polite Hm Hb)]. }
    destruct (IH _ Hn1) as (w2 & Hr2 & Hn2 & Hl2 & Ht2 & Hh2).
    exists w2. split; [exact Hr2|]. split; [exact Hn2|].
    split; [rewrite Hl2; exact Hl|]. split; [rewrite Ht2; exact (mv_tmp Hm)|].
    rewrite Hh2. rewrite handed_emit_quiet by exact I.
    rewrite (moved_handed Hm), He, handed_app, (quiet_handed Hq).
    rewrite <- app_assoc. f_equal.
    destruct Hv as [Hv|Hv]; rewrite Hv; reflexivity.
Qed.

Lemma dig_fetch_cons (all : bool) (f r : Z) (st : Status) (page : list Status)
      (rest : PageCursor) (i : nat) (c : Z) (last : option Z) :
  dig_fetch all f r ((st :: page) :: rest) i c last
  = (rtlimt ;;
     stx <- render_all
              (if negb all && (f - Z.of_nat i <=? 0) && (0 <? r)
               then firstn (Z.to_nat r) (st :: page) else st :: page) ;;
     match Py.last_item
             (if negb all && (f - Z.of_nat i <=? 0) && (0 <? r)
              then firstn (Z.to_nat r) (st :: page) else st :: page),
           (if negb all && (f - Z.of_nat i <=? 0) && (0 <? r)
            then firstn (Z.to_nat r) (st :: page) else st :: page) with
     | Some oldest, newest :: _ =>
         (if Nat.eqb (S i) 1 then modify (set_last_statusid (Some (id newest)))
          else ret tt) ;;
         DBStore.save_tmp_value (Z.of_nat (S i)) (JsonArray stx) ;;
         if negb all && (f <=? Z.of_nat (S i))
         then ret (S i, c + Z.of_nat (List.length stx), Some (id oldest))
         else dig_fetch all f r rest (S i) (c + Z.of_nat (List.length stx))
                        (Some (id oldest))
     | _, _ => raise IndexError
     end).
Proof. reflexivity. Qed.

Lemma dig_fetch_none (all : bool) (f r : Z) (c0 : PageCursor) (i : nat) (c : Z)
      (last : option Z) :
  leading c0 = [] ->
  dig_fetch all f r c0 i c last = (rtlimt ;; ret (i, c, last)).
Proof.
  destruct c0 as [|[|st page] rest]; [reflexivity|reflexivity|discriminate].
Qed.

(** The first loop of the import when nothing fails: it stages the
    renderings of the pages [dug_from] lists under the keys [i+1], [i+2],
    ... and hands nothing to the bot. *)
Lemma dig_fetch_run (all : bool) (f r : Z) (pages : PageCursor) :
  forall i c last w,
    nominal w ->
    exists n c' last' w',
      dig_fetch all f r pages i c last w = Ret (n, c', last') w' /\
      n = (i + List.length (dug_from all f r pages i))%nat /\
      last' = match Py.last_item (List.concat (dug_from all f r pages i)) with
              | Some oldest => Some (id oldest)
              | None => last
              end /\
      nominal w' /\
      handed (trace w') = handed (trace w) /\
      (forall j page,
          nth_error (dug_from all f r pages i) j = Some page ->
          tmp_lookup (Z.of_nat (i + S j)) w' = Some (JsonArray (map render page))) /\
      (forall k, k <= Z.of_nat i -> tmp_lookup k w' = tmp_lookup k w) /\
      last_statusid w'
      = match List.concat (dug_from all f r pages i) with
        | newest :: _ => if Nat.eqb i 0 then Some (id newest) else last_statusid w
        | [] => last_statusid w
        end.
Proof.
  induction pages as [|page0 rest IH]; intros i c last w Hn.
  - rewrite dig_fetch_none by reflexivity. rewrite dug_from_none by reflexivity.
    unfold bind. destruct (rtlimt_nominal Hn) as (w1 & Hr1 & Hn1 & Hl1 & Ht1 & Hh1).
    rewrite Hr1. exists i, c, last, w1. split; [reflexivity|].
    split; [simpl; lia|]. split; [reflexivity|]. split; [exact Hn1|].
    split; [exact Hh1|]. split; [intros [|j] page Hj; discriminate Hj|].
    split; [intros k _; unfold tmp_lookup; rewrite Ht1; reflexivity|].
    exact Hl1.
  - destruct page0 as [|st page].
    { rewrite dig_fetch_none by reflexivity. rewrite dug_from_none by reflexivity.
      unfold bind. destruct (rtlimt_nominal Hn) as (w1 & Hr1 & Hn1 & Hl1 & Ht1 & Hh1).
      rewrite Hr1. exists i, c, last, w1. split; [reflexivity|].
      split; [simpl; lia|]. split; [reflexivity|]. split; [exact Hn1|].
      split; [exact Hh1|]. split; [intros [|j] page Hj; discriminate Hj|].
      split; [intros k _; unfold tmp_lookup; rewrite Ht1; reflexivity|].
      exact Hl1. }
    rewrite dig_fetch_cons, dug_from_cons.
    set (sts := if negb all && (f - Z.of_nat i <=? 0) && (0 <? r)
                then firstn (Z.to_nat r) (st :: page) else st :: page).
    assert (Hne : sts <> []).
    { unfold sts. destruct (negb all && (f - Z.of_nat i <=? 0) && (0 <? r)) eqn:E;
        [|discriminate].
      apply andb_true_iff in E. destruct E as [_ E]. apply Z.ltb_lt in E.
      destruct (Z.to_nat r) eqn:Er; [lia|]. discriminate. }
    clearbody sts. unfold bind.
    destruct (rtlimt_nominal Hn) as (w1 & Hr1 & Hn1 & Hl1 & Ht1 & Hh1). rewrite Hr1.
    destruct (render_all_nominal sts Hn1) as (w2 & Hr2 & Hn2 & Hl2 & Ht2 & Hh2).
    rewrite Hr2.
    destruct (Py.last_item sts) as [oldest|] eqn:Hlast;
      [|exfalso; exact (Hne (last_item_none _ Hlast))].
    destruct sts as [|newest others]; [exfalso; exact (Hne eq_refl)|].
    set (w3 := match i with
               | O => set_last_statusid (Some (id newest)) w2
               | S _ => w2
               end).
    assert (Hstep : (if Nat.eqb (S i) 1
                     then modify (set_last_statusid (Some (id newest))) else ret tt) w2
                    = Ret tt w3) by (destruct i; reflexivity).
    rewrite Hstep.
    assert (Hn3 : nominal w3) by (unfold w3; destruct i; exact Hn2).
    assert (Ht3 : tmp w3 = tmp w2) by (unfold w3; destruct i; reflexivity).
    assert (Hh3 : handed (trace w3) = handed (trace w2))
      by (unfold w3; destruct i; reflexivity).
    assert (Hl3 : last_statusid w3 = match i with
                                     | O => Some (id newest)
                                     | S _ => last_statusid w
                                     end).
    { unfold w3. destruct i; [reflexivity|]. rewrite Hl2. exact Hl1. }
    clearbody w3.
    destruct (save_tmp_value_nominal (Z.of_nat (S i))
                (JsonArray (map render (newest :: others))) Hn3)
      as (w4 & Hs4 & Hn4 & Hl4 & Hh4 & Hlook4).
    rewrite Hs4.
    assert (Hold : forall k, k <= Z.of_nat i -> tmp_lookup k w4 = tmp_lookup k w).
    { intros k Hk. rewrite Hlook4.
      replace (k =? Z.of_nat (S i)) with false by (symmetry; apply Z.eqb_neq; lia).
      unfold tmp_lookup. rewrite Ht3, Ht2, Ht1. reflexivity. }
    assert (Hnew : tmp_lookup (Z.of_nat (S i)) w4
                   = Some (JsonArray (map render (newest :: others)))).
    { rewrite Hlook4, Z.eqb_refl. reflexivity. }
    destruct (negb all && (f <=? Z.of_nat (S i))) eqn:Estop.
    + exists (S i), (c + Z.of_nat (List.length (map render (newest :: others)))),
        (Some (id oldest)), w4.
      split; [reflexivity|]. split; [simpl; lia|].
      split. { simpl List.concat. rewrite app_nil_r, Hlast. reflexivity. }
      split; [exact Hn4|]. split; [congruence|].
      split.
      { intros [|j] pg Hj; [|destruct j; discriminate Hj].
        injection Hj as Hj. subst pg. rewrite Nat.add_1_r. exact Hnew. }
      split; [exact Hold|].
      rewrite Hl4, Hl3. cbn [List.concat app]. destruct i; reflexivity.
    + destruct (IH (S i) (c + Z.of_nat (List.length (map render (newest :: others))))
                  (Some (id oldest)) w4 Hn4)
        as (n & c' & last' & w' & Hr & Hnn & Hlast' & Hn' & Hh' & Hnew' & Hold' & Hl').
      exists n, c', last', w'. split; [exact Hr|].
      split; [rewrite Hnn; simpl; lia|].
      split.
      { rewrite Hlast'. cbn [List.concat]. rewrite last_item_app.
        destruct (Py.last_item (List.concat (dug_from all f r rest (S i))));
          [reflexivity|]. rewrite Hlast. reflexivity. }
      split; [exact Hn'|]. split; [congruence|].
      split.
      { intros [|j] pg Hj.
        - injection Hj as Hj. subst pg. rewrite Nat.add_1_r.
          rewrite Hold' by lia. exact Hnew.
        - replace (i + S (S j))%nat with (S i + S j)%nat by lia.
          apply Hnew'. exact Hj. }
      split.
      { intros k Hk. rewrite Hold' by lia. apply Hold. exact Hk. }
      rewrite Hl'. cbn [List.concat app Nat.eqb]. rewrite Hl4, Hl3.
      destruct (List.concat (dug_from all f r rest (S i))); destruct i; reflexivity.
Qed.

(** The second loop of the import when nothing fails and the pages
    [1..length staged] are staged: it hands them over, last page first and
    each page backwards. *)
Lemma dig_drain_run (staged : list (list string)) :
  forall c w,
    nominal w ->
    (forall j msgs, nth_error staged j = Some msgs ->
                    tmp_lookup (Z.of_nat (S j)) w = Some (JsonArray msgs)) ->
    exists w',
      TweetDrasta.dig_drain (List.length staged) c w
      = Ret (c + Z.of_nat (List.length (List.concat staged))) w' /\
      nominal w' /\ last_statusid w' = last_statusid w /\ tmp w' = tmp w /\
      handed (trace w') = handed (trace w) ++ rev (List.concat staged).
Proof.
  induction staged as [|msgs staged IH] using rev_ind; intros c w Hn Hst.
  - exists w. split; [simpl; rewrite Z.add_0_r; reflexivity|].
    rewrite app_nil_r. auto.
  - rewrite length_app, Nat.add_1_r. cbn [TweetDrasta.dig_drain]. unfold bind.
    assert (Hk : tmp_lookup (Z.of_nat (S (List.length staged))) w = Some (JsonArray msgs)).
    { apply Hst. rewrite nth_error_app2 by lia. rewrite Nat.sub_diag. reflexivity. }
    destruct (get_tmp_value_nominal _ Hn Hk) as (w1 & Hg & Hn1 & Hl1 & Ht1 & Hh1).
    rewrite Hg.
    destruct (send_all_nominal (rev msgs) Hn1) as (w2 & Hs & Hn2 & Hl2 & Ht2 & Hh2).
    rewrite Hs.
    destruct (IH (c + Z.of_nat (List.length msgs)) w2 Hn2)
      as (w3 & Hd & Hn3 & Hl3 & Ht3 & Hh3).
    { intros j m Hj. unfold tmp_lookup. rewrite Ht2, Ht1. apply Hst.
      rewrite nth_error_app1; [exact Hj|]. apply nth_error_Some. rewrite Hj. discriminate. }
    exists w3. split.
    { rewrite Hd. f_equal. rewrite concat_app, length_app. simpl. rewrite app_nil_r. lia. }
    split; [exact Hn3|]. split; [congruence|]. split; [congruence|].
    rewrite Hh3, Hh2, Hh1, concat_app. simpl. rewrite app_nil_r, rev_app_distr.
    rewrite app_assoc. reflexivity.
Qed.

(** A bulk import when nothing fails. *)
Lemma dig_update_nominal (count : Z) (all : bool) (w : World) :
  nominal w ->
  exists w',
    dig_update count all w
    = Ret (option_map id (Py.last_item (dug count all timeline))) w' /\
    handed (trace w') = handed (trace w) ++ rev (map render (dug count all timeline)) /\
    last_statusid w' = match dug count all timeline with
                       | newest :: _ => Some (id newest)
                       | [] => last_statusid w
                       end /\
    tmp w' = None /\ nominal w'.
Proof.
  intros Hn. unfold TweetDrasta.dig_update.
  rewrite (proj1 Hn). simpl negb. cbv iota.
  unfold bind at 1. unfold log at 1. unfold modify at 1. cbv beta iota.
  assert (Hn0 : nominal (emit (Logged (Digging count all)) w)) by exact Hn.
  unfold finally, try_except, TweetDrasta.dig_try. unfold bind at 1.
  destruct (dig_fetch_run all (count / 20) (count mod 20) timeline 0 0 None Hn0)
    as (n & c' & last' & w1 & Hf & Hnn & Hlast & Hn1 & Hh1 & Hnew & _ & Hl1).
  rewrite Hf. cbv beta iota. unfold bind. unfold log, modify.
  assert (Hn2 : nominal (emit (Logged (Fetched c')) w1)) by exact Hn1.
  destruct (@dig_drain_run
              (map (map render) (dug_from all (count / 20) (count mod 20) timeline 0))
              0 _ Hn2)
    as (w3 & Hd & Hn3 & Hl3 & Ht3 & Hh3).
  { intros j msgs Hj. rewrite nth_error_map in Hj.
    destruct (nth_error (dug_from all (count / 20) (count mod 20) timeline 0) j)
      as [page|] eqn:Ej; [|discriminate].
    injection Hj as Hj. subst msgs.
    exact (Hnew j page Ej). }
  rewrite length_map in Hd. simpl in Hnn. subst n. rewrite Hd.
  assert (Hn4 : nominal (emit (Logged (UpdatedTweets
                 (0 + Z.of_nat (List.length (List.concat
                    (map (map render)
                       (dug_from all (count / 20) (count mod 20) timeline 0))))))) w3))
    by exact Hn3.
  destruct (drop_tmp_nominal Hn4) as (w5 & Hdrop & Hn5 & Hl5 & Ht5 & Hh5 & _).
  unfold ret. rewrite Hdrop.
  exists w5. rewrite dug_from_start in Hlast, Hl1.
  split; [rewrite Hlast; destruct (Py.last_item (dug count all timeline)); reflexivity|].
  split.
  { rewrite Hh5. simpl trace. rewrite handed_app, app_nil_r. rewrite Hh3.
    simpl trace. rewrite handed_app, app_nil_r. rewrite Hh1.
    simpl trace. rewrite handed_app, app_nil_r.
    rewrite <- concat_map, dug_from_start. reflexivity. }
  split; [rewrite Hl5; simpl; rewrite Hl3; simpl; exact Hl1|].
  split; [exact Ht5|exact Hn5].
Qed.

(** X18.  A bulk import on a ready store when nothing fails (database
    reachable, no Twitter error but rate limits, no Telegram error but
    [RetryAfter] and [BadRequest]): it hands to the bot, oldest first, the
    renderings of the whole feed when [all] is set, and otherwise of the
    first [count // 20] pages, or, when [count < 20], of the first
    [count % 20] posts of the first page; it returns the id of the oldest
    of these posts, leaves the cursor on the newest of them and leaves no
    staging table. *)
Theorem dig_update_forwards_oldest_first (count : Z) (all : bool) (w : World) :
  ready w = true ->
  db_up w ->
  api_clean w ->
  bot_polite w ->
  exists w',
    dig_update count all w
    = Ret (option_map id (Py.last_item (dug count all timeline))) w' /\
    handed (trace w') = handed (trace w) ++ rev (map render (dug count all timeline)) /\
    last_statusid w' = match dug count all timeline with
                       | newest :: _ => Some (id newest)
                       | [] => last_statusid w
                       end /\
    tmp w' = None.
Proof.
  intros Hr Hd Ha Hb.
  destruct (@dig_update_nominal count all w) as (w' & H1 & H2 & H3 & H4 & _).
  - split; [exact Hr|]. split; [exact Hd|]. split; [exact Ha|exact Hb].
  - exists w'. auto.
Qed.

Lemma whole_pages_length (pages : list (list Status)) :
  Forall (fun page => List.length page = 20%nat) pages ->
  forall n, (n <= List.length pages)%nat ->
            List.length (List.concat (firstn n pages)) = (20 * n)%nat.
Proof.
  induction 1 as [|page pages Hp _ IH]; intros n Hn.
  - simpl in Hn. replace n with 0%nat by lia. reflexivity.
  - destruct n as [|n]; [reflexivity|]. simpl in Hn. cbn [firstn List.concat].
    rewrite length_app, Hp, IH by lia. lia.
Qed.

(** X19.  The remainder of a bulk import is not fetched: when the pages
    of the feed hold twenty posts each and the feed has them, an import of
    [count >= 20] posts on a ready store, nothing failing, hands
    [20 * (count // 20)] messages to the bot, which is less than [count]
    whenever [count] is not a multiple of twenty. *)
Theorem dig_update_forwards_whole_pages_only (count : Z) (w : World) :
  ready w = true ->
  db_up w ->
  api_clean w ->
  bot_polite w ->
  Forall (fun page => List.length page = 20%nat) (leading timeline) ->
  20 <= count <= 20 * Z.of_nat (List.length (leading timeline)) ->
  exists last w',
    dig_update count false w = Ret last w' /\
    Z.of_nat (List.length (handed (trace w')))
    = Z.of_nat (List.length (handed (trace w))) + (count - count mod 20).
Proof.
  intros Hr Hd Ha Hb Hfull Hcount.
  destruct (@dig_update_nominal count false w) as (w' & H1 & H2 & _).
  { split; [exact Hr|]. split; [exact Hd|]. split; [exact Ha|exact Hb]. }
  eexists. exists w'. split; [exact H1|].
  rewrite H2, length_app, length_rev, length_map. unfold dug.
  assert (Hf : 1 <= count / 20) by (apply Z.div_le_lower_bound; lia).
  assert (Hf' : count / 20 <= Z.of_nat (List.length (leading timeline)))
    by (apply Z.div_le_upper_bound; lia).
  replace (0 <? count / 20) with true by (symmetry; apply Z.ltb_lt; lia).
  rewrite (whole_pages_length Hfull) by lia.
  pose proof (Z.div_mod count 20). lia.
Qed.

End DigFacts.

(** ** The cursor and the messages of a sync cycle *)

Section SyncFacts.

Variables max_rollback ratelimit_wait : Z.
Variables RETWEET_EMOJI REPLY_EMOJI : string.
Variable timeline : PageCursor.
Variable statuses : list Status.

Local Notation check_status := (TweetDrasta.check_status ratelimit_wait statuses).
Local Notation status_str := (TweetDrasta.status_str RETWEET_EMOJI REPLY_EMOJI).
Local Notation items := (TweetDrasta.items ratelimit_wait).
Local Notation forward_recent :=
  (TweetDrasta.forward_recent ratelimit_wait RETWEET_EMOJI REPLY_EMOJI statuses).
Local Notation update_status :=
  (TweetDrasta.update_status max_rollback ratelimit_wait RETWEET_EMOJI REPLY_EMOJI
                             timeline statuses).
Local Notation update_hook :=
  (TweetDrasta.update_hook max_rollback ratelimit_wait RETWEET_EMOJI REPLY_EMOJI
                           timeline statuses).
Local Notation rendering := (TweetDrasta.rendering RETWEET_EMOJI REPLY_EMOJI statuses).

(** The loop over the recent posts hands over a leading part [done] of
    its posts, the cursor following each message, and is left by a
    [TelegramError] exactly when a part [rest] remains. *)
Lemma forward_recent_progress (todo : list Status) :
  forall count w,
  exists done rest w' evs,
    todo = done ++ rest /\
    world_of (forward_recent todo count w) = w' /\
    trace w' = trace w ++ evs /\
    Forall2 rendering done (handed evs) /\
    last_statusid w' = List.last (map (fun st => Some (id st)) done) (last_statusid w) /\
    ((rest = [] /\
      forward_recent todo count w = Ret (count + Z.of_nat (List.length todo)) w')
     \/ (rest <> [] /\ forward_recent todo count w = Raise TelegramError w')).
Proof.
  induction todo as [|st todo IH]; intros count w.
  - exists [], [], w, []. split; [reflexivity|]. split; [reflexivity|].
    split; [symmetry; apply app_nil_r|]. split; [constructor|]. split; [reflexivity|].
    left. split; [reflexivity|]. simpl. rewrite Z.add_0_r. reflexivity.
  - rewrite forward_recent_cons. unfold bind.
    destruct (check_status_spec ratelimit_wait RETWEET_EMOJI REPLY_EMOJI statuses st w)
      as (w1 & e1 & r & Hr1 & Hm1 & Hq1 & Hl1 & Hrend & _).
    rewrite Hr1. cbv beta iota.
    destruct (send_msg_spec (status_str r) w1)
      as (w2 & e2 & Hm2 & Hl2 & [(Hr2 & pre & v & He2 & Hq2 & Hv)|(Hr2 & Hq2 & _)]);
      rewrite Hr2; cbv beta iota.
    + unfold sleep, modify. cbv beta iota.
      set (w4 := emit (Slept 3) (set_last_statusid (Some (id st)) w2)).
      destruct (IH (count + 1) w4)
        as (done & rest & w' & e3 & Hsplit & Hw & Ht & Hf & Hl & Hres).
      exists (st :: done), rest, w', (e1 ++ e2 ++ Slept 3 :: e3).
      split; [rewrite Hsplit; reflexivity|]. split; [exact Hw|].
      split.
      { rewrite Ht. unfold w4. simpl trace. rewrite (mv_trace Hm2), (mv_trace Hm1).
        rewrite <- !app_assoc. reflexivity. }
      destruct (pass_events e3 Hq2 Hv) as (Hh & _).
      split.
      { rewrite handed_app, (quiet_handed Hq1). subst e2. rewrite Hh.
        constructor; [exact Hrend|exact Hf]. }
      split; [rewrite Hl; simpl map; rewrite last_cons; reflexivity|].
      destruct Hres as [(Hnil & Hr)|(Hnot & Hr)].
      * left. split; [exact Hnil|]. rewrite Hr. f_equal. simpl List.length. lia.
      * right. split; [exact Hnot|exact Hr].
    + exists [], (st :: todo), w2, (e1 ++ e2).
      split; [reflexivity|]. split; [reflexivity|].
      split; [rewrite (mv_trace Hm2), (mv_trace Hm1), app_assoc; reflexivity|].
      split; [rewrite handed_app, (quiet_handed Hq1), (quiet_handed Hq2); constructor|].
      split; [simpl; congruence|].
      right. split; [discriminate|reflexivity].
Qed.

(** X20.  On the fast path the cursor follows the messages, also when a
    [TelegramError] interrupts the cycle: the posts whose renderings were
    handed to the bot are a leading part of the posts to forward (oldest
    first), the cursor ends on the last of them (it stays where it was when
    there is none), and the cycle is left by the error exactly when some
    post remains. *)
Theorem fast_path_cursor_follows_messages (w w1 : World) (recent : list Status)
        (l : Z) (k : nat) :
  last_statusid w = Some l ->
  items 20 [] timeline w = Ret recent w1 ->
  Py.index l (map id recent) = Some k ->
  exists done rest evs,
    rev (firstn k recent) = done ++ rest /\
    trace (world_of (update_status w)) = trace w ++ evs /\
    Forall2 rendering done (handed evs) /\
    last_statusid (world_of (update_status w))
    = List.last (map (fun st => Some (id st)) done) (Some l) /\
    ((rest = [] /\ update_status w = Ret tt (world_of (update_status w)))
     \/ (rest <> [] /\
         update_status w = Raise TelegramError (world_of (update_status w)))).
Proof.
  intros Hcur Hitems Hidx.
  destruct (@items_ret _ _ _ _ _ _ _ Hitems) as (_ & e0 & Hm0 & Hq0 & Hl0).
  assert (Hcur1 : last_statusid w1 = Some l) by congruence.
  assert (Hupd : update_status w
                 = match forward_recent (rev (firstn k recent)) 0 w1 with
                   | Ret count w2 =>
                       if 0 <? count then Ret tt (emit (Logged (Updated count)) w2)
                       else Ret tt w2
                   | Raise e w2 => if is_tweep e then log UpdateFailed w2 else Raise e w2
                   end).
  { unfold TweetDrasta.update_status, try_except, bind. rewrite Hitems.
    cbv beta iota. unfold reads. cbv beta iota. rewrite Hcur1, Hidx.
    destruct (forward_recent (rev (firstn k recent)) 0 w1) as [count w2|e w2];
      [|reflexivity].
    destruct (0 <? count); reflexivity. }
  destruct (forward_recent_progress (rev (firstn k recent)) 0 w1)
    as (done & rest & w2 & e1 & Hsplit & _ & Ht & Hf & Hl & [(Hnil & Hr)|(Hnot & Hr)]);
    rewrite Hr in Hupd; rewrite Hupd; rewrite Hcur1 in Hl.
  - destruct (0 <? 0 + Z.of_nat (List.length (rev (firstn k recent)))).
    + exists done, rest,
        (e0 ++ e1 ++ [Logged (Updated (0 + Z.of_nat (List.length (rev (firstn k recent)))))]).
      split; [exact Hsplit|]. split.
      { simpl. rewrite Ht, (mv_trace Hm0), <- !app_assoc. reflexivity. }
      split.
      { rewrite handed_app, (quiet_handed Hq0), handed_app. simpl.
        rewrite app_nil_r. exact Hf. }
      split; [exact Hl|]. left. split; [exact Hnil|reflexivity].
    + exists done, rest, (e0 ++ e1).
      split; [exact Hsplit|]. split.
      { simpl. rewrite Ht, (mv_trace Hm0), <- !app_assoc. reflexivity. }
      split; [rewrite handed_app, (quiet_handed Hq0); exact Hf|].
      split; [exact Hl|]. left. split; [exact Hnil|reflexivity].
  - exists done, rest, (e0 ++ e1).
    split; [exact Hsplit|]. split.
    { simpl. rewrite Ht, (mv_trace Hm0), <- !app_assoc. reflexivity. }
    split; [rewrite handed_app, (quiet_handed Hq0); exact Hf|].
    split; [exact Hl|]. right. split; [exact Hnot|reflexivity].
Qed.

Lemma dict_set_key_in {V} (key k : string) (v : V) (d : list (string * V)) :
  In k (map fst (Py.dict_set key v d)) -> k = key \/ In k (map fst d).
Proof.
  induction d as [|[k0 v0] d IH]; simpl; intros Hk.
  - destruct Hk as [Hk|[]]. left. symmetry. exact Hk.
  - destruct (String.eqb k0 key); simpl in Hk.
    + right. exact Hk.
    + destruct Hk as [Hk|Hk]; [right; left; exact Hk|].
      destruct (IH Hk) as [H|H]; [left; exact H|right; right; exact H].
Qed.

(** [d[key] = v] keeps the keys of a dictionary distinct. *)
Lemma dict_set_keys {V} (key : string) (v : V) (d : list (string * V)) :
  NoDup (map fst d) -> NoDup (map fst (Py.dict_set key v d)).
Proof.
  induction d as [|[k0 v0] d IH]; simpl; intros Hnd.
  - constructor; [intros []|constructor].
  - inversion Hnd as [|? ? Hk0 Hd]; subst.
    destruct (String.eqb k0 key) eqn:E; simpl.
    + constructor; assumption.
    + constructor; [|exact (IH Hd)].
      intros Hk. destruct (dict_set_key_in _ _ _ _ Hk) as [H|H]; [|exact (Hk0 H)].
      apply String.eqb_neq in E. exact (E H).
Qed.

(** X21.  A cycle of [__update_hook] that returns, on a ready store
    whose database is up, leaves the cursor persisted: the row
    [last_statusid] of the [keystore] table holds the cursor of the engine
    in decimal, and the [persist] dictionary holds it as an [int]. *)
Theorem update_hook_persists_cursor (w w' : World) :
  update_hook w = Ret tt w' ->
  ready w = true ->
  db_up w ->
  NoDup (map fst (persist w)) ->
  keystore_lookup "last_statusid" w'
  = Some (option_map Py.str_of_int (last_statusid w')) /\
  Py.dict_get "last_statusid" (persist w')
  = Some (match last_statusid w' with Some n => Py.VInt n | None => Py.VNone end) /\
  dbs (trace w') = dbs (trace w) ++ [SaveKeystore].
Proof.
  intros Hhook Hready Hup Hnd.
  rewrite update_hook_unfold in Hhook.
  destruct (update_status_moved max_rollback ratelimit_wait RETWEET_EMOJI REPLY_EMOJI
              timeline statuses w) as (evs & Hm & Hdbs).
  destruct (update_status w) as [[] wu|e wu]; [|discriminate]. simpl in Hm.
  set (d := Py.dict_set "last_statusid"
              (match last_statusid wu with Some n => Py.VInt n | None => Py.VNone end)
              (persist wu)) in Hhook.
  assert (Hready2 : ready (set_persist d wu) = true)
    by (simpl; rewrite (mv_ready Hm); exact Hready).
  assert (Hup2 : db_up (set_persist d wu))
    by (unfold db_up; simpl; rewrite (mv_db Hm); exact Hup).
  destruct (save_keystore_up Hready2 Hup2) as (s & _ & Hsave).
  rewrite Hsave in Hhook. injection Hhook as Hw. subst w'.
  assert (Hnd2 : NoDup (map fst d))
    by (unfold d; apply dict_set_keys; rewrite (mv_persist Hm); exact Hnd).
  unfold keystore_lookup. simpl.
  split.
  { rewrite (@dict_get_fold_upsert "last_statusid" _ Hnd2). unfold d.
    rewrite dict_get_set. destruct (last_statusid wu); reflexivity. }
  split; [unfold d; apply dict_get_set|].
  rewrite dbs_app, (mv_trace Hm), dbs_app, Hdbs, app_nil_r. reflexivity.
Qed.

End SyncFacts.

(** ** TelegramBot.start *)

Section TelegramBotLifeFacts.

Import TelegramBotLife.

Lemma waits_app (a b : list BotEvent) : waits (a ++ b) = (waits a + waits b)%nat.
Proof. unfold waits. rewrite filter_app, length_app. reflexivity. Qed.

Lemma lookups_app (a b : list BotEvent) : lookups (a ++ b) = (lookups a + lookups b)%nat.
Proof. unfold lookups. rewrite filter_app, length_app. reflexivity. Qed.

Lemma failed_tries_S (i k : nat) :
  failed_tries i (S k)
  = [Asked; LookupFailed (Z.of_nat i); Waited 10] ++ failed_tries (S i) k.
Proof. reflexivity. Qed.

Lemma waits_failed_tries (k : nat) : forall i, waits (failed_tries i k) = k.
Proof.
  induction k as [|k IH]; intros i; [reflexivity|].
  rewrite failed_tries_S, waits_app, IH. reflexivity.
Qed.

Lemma lookups_failed_tries (k : nat) : forall i, lookups (failed_tries i k) = k.
Proof.
  induction k as [|k IH]; intros i; [reflexivity|].
  rewrite failed_tries_S, lookups_app, IH. reflexivity.
Qed.

(** The loop from try [i] on, when [k] lookups fail and the next one
    succeeds before the tries are used up. *)
Lemma get_channel_id_finds (k : nat) :
  forall i b rest,
    chat_script b = repeat ChatBadRequest k ++ rest ->
    (1 <= i)%nat -> (i + k <= 10)%nat ->
    rest = [] \/ (exists s, rest = ChatOk :: s) ->
    exists b',
      get_channel_id (map Z.of_nat (seq i (11 - i))) b = Returned b' /\
      running b' = running b /\ channel_id b' = Some (chat b) /\ chat b' = chat b /\
      chat_script b' = tl rest /\
      events b' = events b ++ failed_tries i k ++ [Asked].
Proof.
  induction k as [|k IH]; intros i b rest Hs Hi Hk Hrest.
  - destruct (11 - i)%nat as [|m] eqn:Em; [lia|]. cbn [seq map get_channel_id].
    simpl in Hs. rewrite Hs.
    destruct Hrest as [Hrest|(s & Hrest)]; rewrite Hrest in *;
      (eexists; split; [reflexivity|]; simpl; rewrite ?Hs; auto 10).
  - destruct (11 - i)%nat as [|m] eqn:Em; [lia|]. cbn [seq map get_channel_id].
    simpl in Hs. rewrite Hs.
    replace (Z.of_nat i =? 10) with false by (symmetry; apply Z.eqb_neq; lia).
    replace m with (11 - S i)%nat by lia.
    set (b2 := note (Waited 10)
                 (note (LookupFailed (Z.of_nat i))
                    (note Asked (set_chat_script (repeat ChatBadRequest k ++ rest) b)))).
    destruct (IH (S i) b2 rest eq_refl) as (b' & Hr & Hrun & Hc & Hchat & Hscr & Hev);
      [lia|lia|exact Hrest|].
    exists b'. split; [exact Hr|]. split; [exact Hrun|]. split; [exact Hc|].
    split; [exact Hchat|]. split; [exact Hscr|].
    rewrite Hev, failed_tries_S. simpl. rewrite <- !app_assoc. reflexivity.
Qed.

(** The loop from try [i] on, when every lookup up to the tenth fails. *)
Lemma get_channel_id_gives_up (n : nat) :
  forall i b rest,
    (i + n = 10)%nat -> (1 <= i)%nat ->
    chat_script b = repeat ChatBadRequest (S n) ++ rest ->
    running b = true ->
    exists b',
      get_channel_id (map Z.of_nat (seq i (S n))) b = Exited 2 b' /\
      running b' = false /\ channel_id b' = channel_id b /\
      chat_script b' = rest /\
      events b' = events b ++ failed_tries i n
                           ++ [Asked; LookupFailed 10; Halted; NoChannel].
Proof.
  induction n as [|n IH]; intros i b rest Hi H1 Hs Hrun.
  - assert (i = 10%nat) by lia. subst i. cbn [seq map get_channel_id].
    simpl in Hs. rewrite Hs. change (Z.of_nat 10 =? 10) with true. cbv iota zeta.
    unfold stop. simpl running. rewrite Hrun.
    eexists. split; [reflexivity|]. simpl. rewrite <- !app_assoc. auto.
  - cbn [seq map get_channel_id]. simpl in Hs. rewrite Hs.
    replace (Z.of_nat i =? 10) with false by (symmetry; apply Z.eqb_neq; lia).
    set (b2 := note (Waited 10)
                 (note (LookupFailed (Z.of_nat i))
                    (note Asked
                       (set_chat_script
                          (ChatBadRequest :: repeat ChatBadRequest n ++ rest) b)))).
    destruct (IH (S i) b2 rest) as (b' & Hr & Hrun' & Hc & Hscr & Hev);
      [lia|lia|reflexivity|exact Hrun|].
    exists b'. split; [exact Hr|]. split; [exact Hrun'|]. split; [exact Hc|].
    split; [exact Hscr|].
    rewrite Hev, failed_tries_S. simpl. rewrite <- !app_assoc. reflexivity.
Qed.

(** X22.  [start] on a bot that is not running and holds no channel id:
    when the first [k < 10] lookups of the channel are refused with
    [BadRequest] and the next one is answered, it returns with the updater
    running and the channel id set to the id of the channel, after [k + 1]
    lookups and [k] waits of ten seconds. *)
Theorem start_finds_channel (b : Bot) (k : nat) (rest : list ChatOutcome) :
  running b = false ->
  unset (channel_id b) = true ->
  chat_script b = repeat ChatBadRequest k ++ rest ->
  (k < 10)%nat ->
  rest = [] \/ (exists s, rest = ChatOk :: s) ->
  exists b',
    start b = Returned b' /\
    running b' = true /\ channel_id b' = Some (chat b) /\ chat_script b' = tl rest /\
    events b' = events b ++ [Polling] ++ failed_tries 1 k ++ [Asked; Online] /\
    lookups (events b') = (lookups (events b) + S k)%nat /\
    waits (events b') = (waits (events b) + k)%nat.
Proof.
  intros Hrun Hunset Hs Hk Hrest. unfold start. rewrite Hrun. cbv zeta.
  change (channel_id (note Polling (set_running true b))) with (channel_id b).
  rewrite Hunset.
  destruct (@get_channel_id_finds k 1 (note Polling (set_running true b)) rest Hs)
    as (b' & Hr & Hrun' & Hc & _ & Hscr & Hev); [lia|lia|exact Hrest|].
  change (map Z.of_nat (seq 1 (11 - 1))) with tries in Hr. rewrite Hr.
  assert (Hev' : events (note Online b')
                 = events b ++ [Polling] ++ failed_tries 1 k ++ [Asked; Online]).
  { simpl. rewrite Hev. simpl. rewrite <- !app_assoc. reflexivity. }
  exists (note Online b'). split; [reflexivity|]. split; [exact Hrun'|].
  split; [exact Hc|]. split; [exact Hscr|]. split; [exact Hev'|].
  rewrite Hev'. rewrite !lookups_app, !waits_app, lookups_failed_tries, waits_failed_tries.
  change (lookups [Polling]) with 0%nat. change (lookups [Asked; Online]) with 1%nat.
  change (waits [Polling]) with 0%nat. change (waits [Asked; Online]) with 0%nat.
  split; lia.
Qed.

Lemma start_finds_channel_witness :
  exists b',
    start (mkBot false None 77 [ChatBadRequest; ChatBadRequest; ChatOk; ChatBadRequest] [])
    = Returned b' /\
    running b' = true /\ channel_id b' = Some 77 /\ chat_script b' = [ChatBadRequest] /\
    events b' = [] ++ [Polling] ++ failed_tries 1 2 ++ [Asked; Online] /\
    lookups (events b') = (0 + 3)%nat /\
    waits (events b') = (0 + 2)%nat.
Proof.
  apply (@start_finds_channel
           (mkBot false None 77 [ChatBadRequest; ChatBadRequest; ChatOk; ChatBadRequest] [])
           2 [ChatOk; ChatBadRequest]).
  - reflexivity.
  - reflexivity.
  - reflexivity.
  - lia.
  - right. exists [ChatBadRequest]. reflexivity.
Defined.

(** X23.  [start] gives up after ten refused lookups: on a bot that is
    not running and holds no channel id, when the first ten lookups are
    refused with [BadRequest] the process exits with code 2 after exactly
    ten lookups and nine waits of ten seconds, the updater stopped again
    and the channel id as it was. *)
Theorem start_gives_up_after_ten (b : Bot) (rest : list ChatOutcome) :
  running b = false ->
  unset (channel_id b) = true ->
  chat_script b = repeat ChatBadRequest 10 ++ rest ->
  exists b',
    start b = Exited 2 b' /\
    running b' = false /\ channel_id b' = channel_id b /\ chat_script b' = rest /\
    events b' = events b ++ [Polling] ++ failed_tries 1 9
                         ++ [Asked; LookupFailed 10; Halted; NoChannel] /\
    lookups (events b') = (lookups (events b) + 10)%nat /\
    waits (events b') = (waits (events b) + 9)%nat.
Proof.
  intros Hrun Hunset Hs. unfold start. rewrite Hrun. cbv zeta.
  change (channel_id (note Polling (set_running true b))) with (channel_id b).
  rewrite Hunset.
  destruct (@get_channel_id_gives_up 9 1 (note Polling (set_running true b)) rest)
    as (b' & Hr & Hrun' & Hc & Hscr & Hev); [lia|lia|exact Hs|reflexivity|].
  change (map Z.of_nat (seq 1 10)) with tries in Hr. rewrite Hr.
  assert (Hev' : events b' = events b ++ [Polling] ++ failed_tries 1 9
                                       ++ [Asked; LookupFailed 10; Halted; NoChannel]).
  { rewrite Hev. simpl events. rewrite <- !app_assoc. reflexivity. }
  exists b'. split; [reflexivity|]. split; [exact Hrun'|]. split; [exact Hc|].
  split; [exact Hscr|]. split; [exact Hev'|].
  rewrite Hev'. rewrite !lookups_app, !waits_app, lookups_failed_tries, waits_failed_tries.
  change (lookups [Polling]) with 0%nat. change (waits [Polling]) with 0%nat.
  change (lookups [Asked; LookupFailed 10; Halted; NoChannel]) with 1%nat.
  change (waits [Asked; LookupFailed 10; Halted; NoChannel]) with 0%nat.
  split; lia.
Qed.

Lemma start_gives_up_after_ten_witness :
  exists b',
    start (mkBot false (Some 0) 77 (repeat ChatBadRequest 10 ++ [ChatOk]) [])
    = Exited 2 b' /\
    running b' = false /\ channel_id b' = Some 0 /\ chat_script b' = [ChatOk] /\
    events b' = [] ++ [Polling] ++ failed_tries 1 9
                   ++ [Asked; LookupFailed 10; Halted; NoChannel] /\
    lookups (events b') = (0 + 10)%nat /\
    waits (events b') = (0 + 9)%nat.
Proof.
  apply (@start_gives_up_after_ten
           (mkBot false (Some 0) 77 (repeat ChatBadRequest 10 ++ [ChatOk]) []) [ChatOk]).
  - reflexivity.
  - reflexivity.
  - reflexivity.
Defined.

Lemma get_channel_id_bounds (left : list Z) :
  forall b,
    (lookups (events (bot_of (get_channel_id left b)))
     <= lookups (events b) + List.length left)%nat /\
    (waits (events (bot_of (get_channel_id left b)))
     <= waits (events b) + List.length (filter (fun i => negb (i =? 10)%Z) left))%nat /\
    (forall b', get_channel_id left b = Returned b' -> running b' = running b).
Proof.
  induction left as [|i left IH]; intros b.
  - simpl. split; [lia|]. split; [lia|]. intros b' H. injection H as H. subst b'.
    reflexivity.
  - cbn [get_channel_id]. destruct (chat_script b) as [|[] s].
    + simpl. rewrite lookups_app, waits_app. change (lookups [Asked]) with 1%nat.
      change (waits [Asked]) with 0%nat. split; [lia|]. split; [lia|].
      intros b' H. injection H as H. subst b'. reflexivity.
    + simpl. rewrite lookups_app, waits_app. change (lookups [Asked]) with 1%nat.
      change (waits [Asked]) with 0%nat. split; [lia|]. split; [lia|].
      intros b' H. injection H as H. subst b'. reflexivity.
    + cbv zeta. cbn [filter List.length]. destruct (i =? 10) eqn:Ei.
      * cbn [bot_of negb]. unfold stop. simpl running.
        destruct (running b); simpl events; rewrite ?lookups_app, ?waits_app;
          (split; [unfold lookups, waits; simpl; lia|]);
          (split; [unfold lookups, waits; simpl; lia|]); intros b' H; discriminate H.
      * cbn [negb List.length].
        set (b2 := note (Waited 10)
                     (note (LookupFailed i) (note Asked (set_chat_script s b)))).
        destruct (IH b2) as (Hl & Hw & Hr).
        assert (Hl2 : lookups (events b2) = (lookups (events b) + 1)%nat).
        { unfold b2. simpl events. rewrite !lookups_app. unfold lookups. simpl. lia. }
        assert (Hw2 : waits (events b2) = (waits (events b) + 1)%nat).
        { unfold b2. simpl events. rewrite !waits_app. unfold waits. simpl. lia. }
        split; [lia|]. split; [lia|]. intros b' H. rewrite (Hr b' H). reflexivity.
    + simpl. rewrite lookups_app, waits_app. change (lookups [Asked]) with 1%nat.
      change (waits [Asked]) with 0%nat. split; [lia|]. split; [lia|].
      intros b' H. discriminate H.
Qed.

(** X24.  Whatever [get_chat] answers and however [start] ends (it
    returns, exits, or is left by a [TelegramError]), one call of [start]
    makes at most ten lookups of the channel and at most nine waits; on a
    bot that holds a channel id, or whose updater runs already, it makes
    none. *)
Theorem start_never_asks_more_than_ten_times (b : Bot) :
  (lookups (events (bot_of (start b))) <= lookups (events b) + 10)%nat /\
  (waits (events (bot_of (start b))) <= waits (events b) + 9)%nat /\
  (running b = true \/ unset (channel_id b) = false ->
   lookups (events (bot_of (start b))) = lookups (events b) /\
   chat_script (bot_of (start b)) = chat_script b /\
   channel_id (bot_of (start b)) = channel_id b).
Proof.
  unfold start. destruct (running b) eqn:Hrun.
  - simpl. split; [lia|]. split; [lia|]. auto.
  - cbv zeta. change (channel_id (note Polling (set_running true b))) with (channel_id b).
    destruct (unset (channel_id b)) eqn:Hunset.
    + destruct (get_channel_id_bounds tries (note Polling (set_running true b)))
        as (Hl & Hw & _).
      change (List.length tries) with 10%nat in Hl.
      change (List.length (filter (fun i => negb (i =? 10)%Z) tries)) with 9%nat in Hw.
      assert (Hl0 : lookups (events (note Polling (set_running true b)))
                    = lookups (events b))
        by (simpl events; rewrite lookups_app; unfold lookups; simpl; lia).
      assert (Hw0 : waits (events (note Polling (set_running true b)))
                    = waits (events b))
        by (simpl events; rewrite waits_app; unfold waits; simpl; lia).
      rewrite Hl0 in Hl. rewrite Hw0 in Hw.
      destruct (get_channel_id tries (note Polling (set_running true b))) as [b2|c b2|b2];
        cbn [bot_of] in Hl, Hw; cbn [bot_of].
      * simpl events. rewrite lookups_app, waits_app.
        change (lookups [Online]) with 0%nat. change (waits [Online]) with 0%nat.
        split; [lia|]. split; [lia|]. intros [H|H]; discriminate H.
      * split; [lia|]. split; [lia|]. intros [H|H]; discriminate H.
      * split; [lia|]. split; [lia|]. intros [H|H]; discriminate H.
    + simpl. rewrite !lookups_app, !waits_app.
      change (lookups [Polling]) with 0%nat. change (waits [Polling]) with 0%nat.
      change (lookups [Online]) with 0%nat. change (waits [Online]) with 0%nat.
      split; [lia|]. split; [lia|]. intros _. split; [lia|]. auto.
Qed.

(** X25.  [start] after [start] does nothing: when a call of [start]
    has returned the updater runs, and a second call returns at once,
    leaving the bot as it is. *)
Theorem start_twice_is_start_once (b b' : Bot) :
  start b = Returned b' ->
  running b' = true /\ start b' = Returned b'.
Proof.
  intros H.
  assert (Hrun : running b' = true).
  { unfold start in H. destruct (running b) eqn:Hrun.
    - injection H as H. subst b'. exact Hrun.
    - cbv zeta in H.
      destruct (unset (channel_id (note Polling (set_running true b)))).
      + destruct (get_channel_id_bounds tries (note Polling (set_running true b)))
          as (_ & _ & Hr).
        destruct (get_channel_id tries (note Polling (set_running true b)))
          as [b2|c b2|b2]; try discriminate H.
        injection H as H. subst b'. simpl. rewrite (Hr b2 eq_refl). reflexivity.
      + injection H as H. subst b'. reflexivity. }
  split; [exact Hrun|]. unfold start. rewrite Hrun. reflexivity.
Qed.

Lemma start_twice_is_start_once_witness :
  running (mkBot true (Some 77) 77 [] [Polling; Asked; Online]) = true /\
  start (mkBot true (Some 77) 77 [] [Polling; Asked; Online])
  = Returned (mkBot true (Some 77) 77 [] [Polling; Asked; Online]).
Proof.
  apply (@start_twice_is_start_once (mkBot false None 77 [] [])).
  reflexivity.
Defined.

End TelegramBotLifeFacts.

(** ** The bulk import and the hook on concrete feeds *)

Lemma dig_update_forwards_oldest_first_witness :
  exists w',
    Default.dig_update Sample.three [] 2 false (Sample.calm None)
    = Ret (option_map id (Py.last_item (dug 2 false Sample.three))) w' /\
    handed (trace w')
    = handed (trace (Sample.calm None))
      ++ rev (map (fun st => Default.status_str (TweetDrasta.checked [] st))
                  (dug 2 false Sample.three)) /\
    last_statusid w' = Some 3 /\
    tmp w' = None.
Proof.
  apply (@dig_update_forwards_oldest_first (15 * 60) Sample.retweet_emoji
           Sample.reply_emoji Sample.three [] 2 false (Sample.calm None)).
  - reflexivity.
  - vm_compute. intros H. exact H.
  - vm_compute. intros H. exact H.
  - vm_compute. intros H. exact H.
Defined.

Lemma dig_update_forwards_whole_pages_only_witness :
  exists last w',
    Default.dig_update Sample.sixty [] 30 false (Sample.calm None) = Ret last w' /\
    Z.of_nat (List.length (handed (trace w')))
    = Z.of_nat (List.length (handed (trace (Sample.calm None)))) + (30 - 30 mod 20).
Proof.
  apply (@dig_update_forwards_whole_pages_only (15 * 60) Sample.retweet_emoji
           Sample.reply_emoji Sample.sixty [] 30 (Sample.calm None)).
  - reflexivity.
  - vm_compute. intros H. exact H.
  - vm_compute. intros H. exact H.
  - vm_compute. intros H. exact H.
  - repeat constructor.
  - vm_compute. split; discriminate.
Defined.

Lemma fast_path_cursor_follows_messages_witness :
  exists done rest evs,
    rev (firstn 2 [Sample.post 3; Sample.post 2; Sample.post 1]) = done ++ rest /\
    trace (world_of (Default.update_status Sample.three []
                       (Sample.state [] [Delivered; BotError] [] (Some 1))))
    = trace (Sample.state [] [Delivered; BotError] [] (Some 1)) ++ evs /\
    Forall2 (TweetDrasta.rendering Sample.retweet_emoji Sample.reply_emoji [])
            done (handed evs) /\
    last_statusid (world_of (Default.update_status Sample.three []
                               (Sample.state [] [Delivered; BotError] [] (Some 1))))
    = List.last (map (fun st => Some (id st)) done) (Some 1) /\
    ((rest = [] /\
      Default.update_status Sample.three []
        (Sample.state [] [Delivered; BotError] [] (Some 1))
      = Ret tt (world_of (Default.update_status Sample.three []
                            (Sample.state [] [Delivered; BotError] [] (Some 1)))))
     \/ (rest <> [] /\
         Default.update_status Sample.three []
           (Sample.state [] [Delivered; BotError] [] (Some 1))
         = Raise TelegramError
             (world_of (Default.update_status Sample.three []
                          (Sample.state [] [Delivered; BotError] [] (Some 1)))))).
Proof.
  apply (@fast_path_cursor_follows_messages 50 (15 * 60) Sample.retweet_emoji
           Sample.reply_emoji Sample.three []
           (Sample.state [] [Delivered; BotError] [] (Some 1))
           (Sample.state [] [Delivered; BotError] [] (Some 1))
           [Sample.post 3; Sample.post 2; Sample.post 1] 1 2).
  - reflexivity.
  - vm_compute. reflexivity.
  - reflexivity.
Defined.

Lemma update_hook_persists_cursor_witness :
  keystore_lookup "last_statusid"
    (world_of (Default.update_hook Sample.three [] (Sample.calm (Some 1))))
  = Some (option_map Py.str_of_int
            (last_statusid
               (world_of (Default.update_hook Sample.three [] (Sample.calm (Some 1)))))) /\
  Py.dict_get "last_statusid"
    (persist (world_of (Default.update_hook Sample.three [] (Sample.calm (Some 1)))))
  = Some (match last_statusid
                  (world_of (Default.update_hook Sample.three [] (Sample.calm (Some 1))))
          with Some n => Py.VInt n | None => Py.VNone end) /\
  dbs (trace (world_of (Default.update_hook Sample.three [] (Sample.calm (Some 1)))))
  = dbs (trace (Sample.calm (Some 1))) ++ [SaveKeystore].
Proof.
  apply (@update_hook_persists_cursor 50 (15 * 60) Sample.retweet_emoji Sample.reply_emoji
           Sample.three [] (Sample.calm (Some 1))
           (world_of (Default.update_hook Sample.three [] (Sample.calm (Some 1))))).
  - vm_compute. reflexivity.
  - reflexivity.
  - vm_compute. intros H. exact H.
  - constructor.
Defined.

(** ** A Twitter failure during the bulk import *)

Section ImportFailure.

Variable ratelimit_wait : Z.
Variables RETWEET_EMOJI REPLY_EMOJI : string.
Variable timeline : PageCursor.
Variable statuses : list Status.

Local Notation dig_fetch :=
  (TweetDrasta.dig_fetch ratelimit_wait RETWEET_EMOJI REPLY_EMOJI statuses).
Local Notation dig_update :=
  (TweetDrasta.dig_update ratelimit_wait RETWEET_EMOJI REPLY_EMOJI timeline statuses).

Lemma dig_fetch_first_call_fails (all : bool) (f r : Z) (pages : PageCursor)
      (i : nat) (c : Z) (last : option Z) (w : World) (s : list ApiOutcome) :
  api_script w = ApiError :: s ->
  dig_fetch all f r pages i c last w = Raise TweepError (set_api_script s w).
Proof.
  intros Hs.
  destruct pages as [|[|st page] rest];
    [rewrite dig_fetch_none by reflexivity
    |rewrite dig_fetch_none by reflexivity
    |rewrite dig_fetch_cons];
    unfold bind, TweetDrasta.rtlimt; rewrite Hs; reflexivity.
Qed.

(** X26.  A Twitter error during a bulk import is not swallowed as it is
    in [update_status]: when the first listing call of the import raises a
    [TweepError] other than a rate limit, the handler's own call of
    [logger.exception()] fails and [dig_update] is left by a [TypeError],
    after the staging table has been dropped; no message was handed to the
    bot and the cursor is where it was. *)
Theorem dig_update_api_failure_is_a_type_error (count : Z) (all : bool) (w : World)
        (s : list ApiOutcome) :
  ready w = true ->
  db_up w ->
  api_script w = ApiError :: s ->
  exists w',
    dig_update count all w = Raise TypeError w' /\
    tmp w' = None /\
    handed (trace w') = handed (trace w) /\
    last_statusid w' = last_statusid w /\
    api_script w' = s.
Proof.
  intros Hready Hup Hs. unfold TweetDrasta.dig_update.
  rewrite Hready. simpl negb. cbv iota.
  unfold bind at 1. unfold log at 1. unfold modify at 1. cbv beta iota.
  unfold finally, try_except, TweetDrasta.dig_try. unfold bind at 1.
  rewrite (@dig_fetch_first_call_fails all (count / 20) (count mod 20) timeline 0 0 None
             (emit (Logged (Digging count all)) w) s Hs).
  cbv beta iota. simpl is_tweep. cbv iota. unfold raise.
  assert (Hup1 : db_up (set_api_script s (emit (Logged (Digging count all)) w)))
    by exact Hup.
  destruct (connect_up Hup1) as (s1 & Hc & _).
  unfold DBStore.drop_tmp, bind. rewrite Hc. cbv beta iota.
  unfold modify. cbv beta iota.
  eexists. split; [reflexivity|]. split; [reflexivity|].
  split; [|split; reflexivity].
  simpl trace. rewrite !handed_app. simpl. rewrite !app_nil_r. reflexivity.
Qed.

End ImportFailure.

Lemma dig_update_api_failure_is_a_type_error_witness :
  exists w',
    Default.dig_update Sample.three [] 2 false (Sample.state [ApiError] [] [] (Some 1))
    = Raise TypeError w' /\
    tmp w' = None /\
    handed (trace w') = handed (trace (Sample.state [ApiError] [] [] (Some 1))) /\
    last_statusid w' = Some 1 /\
    api_script w' = [].
Proof.
  apply (@dig_update_api_failure_is_a_type_error (15 * 60) Sample.retweet_emoji
           Sample.reply_emoji Sample.three [] 2 false
           (Sample.state [ApiError] [] [] (Some 1)) []).
  - reflexivity.
  - vm_compute. intros H. exact H.
  - reflexivity.
Defined.

(** ** Corrupt pages in the staging table *)



